(** * AskFred: the agent proxy (server.js) and the chat client (public/chat.js)

    A shallow embedding of the text normaliser, the proxy endpoints, the run
    polling loop, the feedback-marker detector and the turn protocol, followed
    by the properties proved about them.

    JavaScript strings are sequences of UTF-16 code units; JSON values are a
    tree; exceptions are an explicit [result]; the network, the credential
    provider and the order of user events are parameters of the model. *)

From Stdlib Require Import List NArith ZArith Lia Bool String Ascii DecimalString.
From Stdlib Require Import Permutation Sorted.
Import ListNotations.

Set Warnings "-register-all".

(* ===================================================================== *)
(** * Part I. The model                                                   *)
(* ===================================================================== *)

(** ** JavaScript strings *)

(** A UTF-16 code unit. *)
Definition char := N.

(** A JavaScript string: its code units in order. *)
Definition jsstring := list char.

(** An ASCII literal of the source as a JavaScript string. *)
Definition str (s : string) : jsstring :=
  map N_of_ascii (list_ascii_of_string s).

Definition char_eqb (a b : char) : bool := N.eqb a b.

Fixpoint jsstring_eqb (a b : jsstring) : bool :=
  match a, b with
  | [], [] => true
  | x :: a', y :: b' => char_eqb x y && jsstring_eqb a' b'
  | _, _ => false
  end.

(** U+3010 and U+3011, the citation brackets of the upstream agent; U+2013,
    the en dash of the feedback phrase. *)
Definition LEFT_BRACKET : char := 0x3010%N.
Definition RIGHT_BRACKET : char := 0x3011%N.
Definition EN_DASH : char := 0x2013%N.
Definition LF : char := 10%N.
Definition TAB : char := 9%N.
Definition SPACE : char := 32%N.

(** ECMAScript WhiteSpace and LineTerminator code units: what [trim] strips
    and what the class [\s] matches. *)
Definition is_white_space (c : char) : bool :=
  ((9 <=? c) && (c <=? 13) || (c =? 32) || (c =? 0xA0) || (c =? 0x1680)
   || (0x2000 <=? c) && (c <=? 0x200A)
   || (c =? 0x2028) || (c =? 0x2029) || (c =? 0x202F) || (c =? 0x205F)
   || (c =? 0x3000) || (c =? 0xFEFF))%N.

(** The class [[ \t]]. *)
Definition is_blank (c : char) : bool := char_eqb c SPACE || char_eqb c TAB.

Definition is_lf (c : char) : bool := char_eqb c LF.

(** The class [\w] (the [i] flag without [u] adds nothing to it). *)
Definition is_word (c : char) : bool :=
  ((48 <=? c) && (c <=? 57) || (65 <=? c) && (c <=? 90)
   || (97 <=? c) && (c <=? 122) || (c =? 95))%N.

Fixpoint drop_while (p : char -> bool) (s : jsstring) : jsstring :=
  match s with
  | [] => []
  | c :: rest => if p c then drop_while p rest else s
  end.

Definition trimStart (s : jsstring) : jsstring := drop_while is_white_space s.
Definition trimEnd (s : jsstring) : jsstring :=
  rev (drop_while is_white_space (rev s)).

(** [String.prototype.trim]. *)
Definition trim (s : jsstring) : jsstring := trimEnd (trimStart s).

(** [String.prototype.toLowerCase] on the ASCII letters.  Code units outside
    ASCII are left as they are: none of them lowercases to a single ASCII
    letter except U+212A (Kelvin sign, to k), and the program compares lowered
    text only with the word assistant, which has no k.  The properties also
    use it to say that two ASCII phrases differ by the case of their letters
    only. *)
Definition lower_char (c : char) : char :=
  if ((65 <=? c) && (c <=? 90))%N then (c + 32)%N else c.

Definition toLowerCase (s : jsstring) : jsstring := map lower_char s.

(** ** Global replacement by a regular expression

    [text.replace(/re/g, rep)] scans the text from left to right.  At each
    position the expression is tried; on a match the replacement is emitted and
    the scan resumes after the match, otherwise the code unit is copied.  Each
    regular expression of the program is given as a [matcher]: from the code
    unit before the position ([None] at the start of the input) and the input
    from the position on, the length of the match there, if any.  Every
    expression of the program consumes at least one code unit, so no match is
    tried at the end of the input. *)
Definition matcher := option char -> jsstring -> option nat.

(** [skip] counts the code units of the current match still to be dropped.
    The result is the new text and whether the expression ever matched (the
    replacement callbacks of chat.js raise a flag on every match). *)
Fixpoint scan (m : matcher) (rep : jsstring) (skip : nat) (prev : option char)
  (s : jsstring) : jsstring * bool :=
  match s with
  | [] => ([], false)
  | c :: rest =>
      match skip with
      | S k => scan m rep k (Some c) rest
      | O =>
          match m prev s with
          | Some (S k) => (rep ++ fst (scan m rep k (Some c) rest), true)
          | _ =>
              let r := scan m rep O (Some c) rest in (c :: fst r, snd r)
          end
      end
  end.

Definition replace_all (m : matcher) (rep : jsstring) (s : jsstring) : jsstring :=
  fst (scan m rep O None s).

Definition matches_somewhere (m : matcher) (s : jsstring) : bool :=
  snd (scan m [] O None s).

(** Position of the first code unit satisfying [p]. *)
Fixpoint index_of (p : char -> bool) (s : jsstring) : option nat :=
  match s with
  | [] => None
  | c :: rest => if p c then Some O else option_map S (index_of p rest)
  end.

(** Length of the longest prefix whose code units all satisfy [p]. *)
Fixpoint run_length (p : char -> bool) (s : jsstring) : nat :=
  match s with
  | [] => O
  | c :: rest => if p c then S (run_length p rest) else O
  end.

(** The expression of [stripAgentCitations], U+3010 then lazily any code
    units then U+3011: a left bracket and everything up to the first right
    bracket after it. *)
Definition re_citation : matcher := fun _ s =>
  match s with
  | c :: rest =>
      if char_eqb c LEFT_BRACKET then
        match index_of (char_eqb RIGHT_BRACKET) rest with
        | Some j => Some (S (S j))
        | None => None
        end
      else None
  | [] => None
  end.

(** [/c{n,}/] for a class [c]: the greedy run, when it has [n] units or more. *)
Definition re_run (p : char -> bool) (n : nat) : matcher := fun _ s =>
  let k := run_length p s in if Nat.leb n k then Some k else None.

(** [/[ \t]{2,}/] and [/\n{3,}/]. *)
Definition re_blank_run : matcher := re_run is_blank 2.
Definition re_blank_lines : matcher := re_run is_lf 3.

(** ** server.js: the text normaliser *)

(** [stripAgentCitations]: every citation replaced by nothing, then every
    run of two or more spaces and tabs replaced by one space, then [trim]. *)
Definition stripAgentCitations (text : jsstring) : jsstring :=
  trim (replace_all re_blank_run [SPACE] (replace_all re_citation [] text)).

(** ** JSON values and exceptions *)

(** A value as [JSON.parse] builds it, with [undefined] for what is absent.
    Numbers are the integers a double holds: the program only tests numbers
    for truthiness, prints them and subtracts time stamps.  An object is the
    association list of its own properties, in the order they were made; a
    property is read at its first binding. *)
Inductive value : Type :=
| VUndefined
| VNull
| VBool (b : bool)
| VNumber (n : Z)
| VString (s : jsstring)
| VArray (items : list value)
| VObject (fields : list (jsstring * value)).

(** A thrown exception.  [Exn] is an [Error] whose [message] the program
    chose or was told: [new Error(msg)], a rejection of [fetch].  [TypeError]
    and [SyntaxError] are the exceptions the engine itself throws (a property
    read on null, a call of what is no function, a text that is no JSON); their
    message is the wording of the engine and is not part of this model. *)
Inductive exn : Type :=
| Exn (message : jsstring)
| TypeError
| SyntaxError.

(** The outcome of an expression that may throw. *)
Inductive result (A : Type) : Type :=
| Ok (a : A)
| Throw (e : exn).
Arguments Ok {A} a.
Arguments Throw {A} e.

Definition rbind {A B} (r : result A) (k : A -> result B) : result B :=
  match r with
  | Ok a => k a
  | Throw e => Throw e
  end.

Fixpoint lookup (k : jsstring) (fields : list (jsstring * value)) : value :=
  match fields with
  | [] => VUndefined
  | (k', v) :: rest => if jsstring_eqb k k' then v else lookup k rest
  end.

(** [v?.k], and [v.k] where [v] is known to be neither null nor undefined.
    The names the program reads ([text], [content], [type], [data], ...) are
    own properties of objects only: strings, numbers, booleans and arrays
    answer [undefined] for them. *)
Definition prop (v : value) (k : string) : value :=
  match v with
  | VObject fields => lookup (str k) fields
  | _ => VUndefined
  end.

(** [v.k]: a [TypeError] on null and undefined. *)
Definition get (v : value) (k : string) : result value :=
  match v with
  | VUndefined | VNull => Throw TypeError
  | _ => Ok (prop v k)
  end.

(** ToBoolean. *)
Definition truthy (v : value) : bool :=
  match v with
  | VUndefined | VNull => false
  | VBool b => b
  | VNumber n => negb (Z.eqb n 0)
  | VString s => match s with [] => false | _ => true end
  | VArray _ | VObject _ => true
  end.

(** [a || b]. *)
Definition or_else (a b : value) : value := if truthy a then a else b.

(** [typeof v === "string"]. *)
Definition is_string (v : value) : bool :=
  match v with VString _ => true | _ => false end.

(** [v === "lit"]. *)
Definition is_literal (v : value) (lit : string) : bool :=
  match v with VString s => jsstring_eqb s (str lit) | _ => false end.

(** [Array.prototype.find]: the first element satisfying [p], else undefined. *)
Fixpoint find_value (p : value -> bool) (items : list value) : value :=
  match items with
  | [] => VUndefined
  | x :: rest => if p x then x else find_value p rest
  end.

(** [items.find(c => c?.type === "text")]. *)
Definition find_text_part (items : list value) : value :=
  find_value (fun c => is_literal (prop c "type") "text") items.

Fixpoint join (sep : jsstring) (parts : list jsstring) : jsstring :=
  match parts with
  | [] => []
  | [p] => p
  | p :: rest => p ++ sep ++ join sep rest
  end.

Fixpoint has_key (k : jsstring) (fields : list (jsstring * value)) : bool :=
  match fields with
  | [] => false
  | (k', _) :: rest => jsstring_eqb k k' || has_key k rest
  end.

(** The decimal numeral of a positive integer. *)
Definition decimal (p : positive) : jsstring :=
  str (DecimalString.NilEmpty.string_of_uint (Pos.to_uint p)).

(** Number::toString looks for the shortest decimal that reads back as the
    same double, and among those of that length the closest one, the even one
    on a tie.  [shortest] does so for an integer [n] of 2^53 or more: the
    doubles next to [n] are [lo4/2] below and [hi4/2] above (both counted in
    quarters, so that their halves are integers); the multiples of [p], a power
    of ten, on either side of [n] are tried for powers going down, and one is
    taken as soon as it rounds to [n].  A decimal half way between two doubles
    rounds to the one whose significand is even, which [even] tells of [n]. *)
Fixpoint shortest (fuel : nat) (n lo4 hi4 : Z) (even : bool) (p : Z) : Z :=
  match fuel with
  | O => n
  | S fuel' =>
      let below := (n / p * p)%Z in
      let above := (below + p)%Z in
      let fits := fun v : Z =>
        let d := (4 * (v - n))%Z in
        if even then ((- lo4 <=? d) && (d <=? hi4))%Z
        else ((- lo4 <? d) && (d <? hi4))%Z in
      match fits below, fits above with
      | true, true =>
          if (n - below <? above - n)%Z then below
          else if (above - n <? n - below)%Z then above
          else if Z.even (below / p) then below else above
      | true, false => below
      | false, true => above
      | false, false => shortest fuel' n lo4 hi4 even (p / 10)%Z
      end
  end.

(** The decimal Number::toString prints for the positive integer [p]: [p]
    itself below 2^53, where the doubles next to an integer are less than one
    away. *)
Definition printed (p : positive) : Z :=
  let n := Zpos p in
  let e := Z.log2 n in
  if (e <? 53)%Z then n
  else
    let q := (e - 52)%Z in
    let m := (n / 2 ^ q)%Z in
    let hi4 := (2 ^ (q + 1))%Z in
    let lo4 := if (m =? 2 ^ 52)%Z then (2 ^ q)%Z else hi4 in
    let digits := List.length (decimal p) in
    shortest digits n lo4 hi4 (Z.even m) (10 ^ Z.of_nat (digits - 1))%Z.

Fixpoint drop_zeros (rev_digits : jsstring) : jsstring :=
  match rev_digits with
  | c :: rest => if char_eqb c 48%N then drop_zeros rest else rev_digits
  | [] => []
  end.

(** The numeral of a positive integer as [String(n)] prints it: plain up to
    21 digits, and beyond with one digit before the point, the others down to
    the last that is not zero after it, and the exponent. *)
Definition positive_to_string (p : positive) : jsstring :=
  match printed p with
  | Zpos v =>
      let plain := decimal v in
      if Nat.leb (List.length plain) 21 then plain
      else
        match rev (drop_zeros (rev plain)) with
        | d :: [] =>
            [d] ++ str "e+" ++ decimal (Pos.of_nat (List.length plain - 1))
        | d :: more =>
            [d] ++ str "." ++ more ++ str "e+"
            ++ decimal (Pos.of_nat (List.length plain - 1))
        | [] => plain
        end
  | _ => decimal p
  end.

(** [String(n)] for an integer. *)
Definition number_to_string (n : Z) : jsstring :=
  match n with
  | Z0 => str "0"
  | Zpos p => positive_to_string p
  | Zneg p => str "-" ++ positive_to_string p
  end.

(** [String(v)].  An array prints its elements joined by commas, null and
    undefined elements as nothing.  A parsed object has no callable [toString]
    of its own: it prints as [[object Object]] through the inherited method,
    unless an own property hides that method, in which case the conversion
    throws. *)
Fixpoint to_string (v : value) : result jsstring :=
  match v with
  | VUndefined => Ok (str "undefined")
  | VNull => Ok (str "null")
  | VBool true => Ok (str "true")
  | VBool false => Ok (str "false")
  | VNumber n => Ok (number_to_string n)
  | VString s => Ok s
  | VArray items =>
      rbind
        ((fix elements (l : list value) : result (list jsstring) :=
            match l with
            | [] => Ok []
            | x :: rest =>
                rbind (match x with
                       | VUndefined | VNull => Ok []
                       | _ => to_string x
                       end)
                  (fun s => rbind (elements rest) (fun ss => Ok (s :: ss)))
            end) items)
        (fun ss => Ok (join (str ",") ss))
  | VObject fields =>
      if has_key (str "toString") fields then Throw TypeError
      else Ok (str "[object Object]")
  end.

(** ** server.js: outbound text *)

(** [typeof v === "string" && v.trim()], answering the trimmed text. *)
Definition nonblank (v : value) : option jsstring :=
  match v with
  | VString s => match trim s with [] => None | t => Some t end
  | _ => None
  end.

(** [extractUserText(body = {})]. *)
Definition extractUserText (body : value) : result jsstring :=
  let body := match body with VUndefined => VObject [] | _ => body end in
  rbind (get body "text") (fun text =>
  match nonblank text with Some t => Ok t | None =>
  match nonblank (prop body "message") with Some t => Ok t | None =>
  match nonblank (prop body "input") with Some t => Ok t | None =>
  let p := prop body "payload" in
  let msgs := prop (prop p "thread") "messages" in
  match msgs with
  | VArray (m0 :: _) =>
      match nonblank (prop m0 "content") with Some t => Ok t | None =>
      match nonblank (prop (prop m0 "content") "text") with Some t => Ok t | None =>
      match prop m0 "content" with
      | VArray parts =>
          let t := find_text_part parts in
          let v := or_else (prop (prop t "text") "value")
                     (or_else (prop t "text") (prop t "value")) in
          match nonblank v with Some r => Ok r | None => Ok [] end
      | _ => Ok []
      end
      end end
  | _ => Ok []
  end
  end end end).

(** ** server.js: projections *)

(** A small object builder: the literal [{ k1: v1, ... }]. *)
Definition obj (fields : list (string * value)) : value :=
  VObject (map (fun kv => (str (fst kv), snd kv)) fields).

Definition vstr (s : string) : value := VString (str s).

(** [projectRun(r = {})]. *)
Definition projectRun (r : value) : result value :=
  let r := match r with VUndefined => VObject [] | _ => r end in
  rbind (get r "id") (fun id =>
  Ok (obj [("id", id);
           ("status", prop r "status");
           ("thread_id", prop r "thread_id");
           ("created_at", prop r "created_at");
           ("started_at", prop r "started_at");
           ("completed_at", prop r "completed_at")]%string)).

(** The call [stripAgentCitations(txt)] on an arbitrary value: undefined
    takes the default parameter, and only a string has a [replace] method. *)
Definition call_stripAgentCitations (txt : value) : result jsstring :=
  match txt with
  | VUndefined => Ok (stripAgentCitations [])
  | VString s => Ok (stripAgentCitations s)
  | _ => Throw TypeError
  end.

(** The text [projectMsgList] picks from a message content, before the
    citations are stripped. *)
Definition picked_text (content : value) : value :=
  match content with
  | VArray parts =>
      or_else (prop (prop (find_text_part parts) "text") "value") (VString [])
  | _ =>
      if truthy (prop (prop content "text") "value")
      then prop (prop content "text") "value"
      else if is_string (prop content "value") then prop content "value"
      else VString []
  end.

(** The one-part content the proxy hands to the UI. *)
Definition text_content (t : jsstring) : value :=
  VArray [obj [("type", vstr "text"); ("text", obj [("value", VString t)])]%string].

(** The callback of [map] in [projectMsgList]. *)
Definition projectMsg (m : value) : result value :=
  rbind (get m "content") (fun content =>
  rbind (call_stripAgentCitations (picked_text content)) (fun txt =>
  Ok (obj [("role", prop m "role");
           ("created_at", prop m "created_at");
           ("content", text_content txt)]%string))).

(** [Array.prototype.map] with a callback that may throw. *)
Fixpoint map_result {A B} (f : A -> result B) (l : list A) : result (list B) :=
  match l with
  | [] => Ok []
  | x :: rest =>
      rbind (f x) (fun y => rbind (map_result f rest) (fun ys => Ok (y :: ys)))
  end.

(** [projectMsgList(j = {})]: only arrays have [map]. *)
Definition projectMsgList (j : value) : result value :=
  let j := match j with VUndefined => VObject [] | _ => j end in
  rbind (get j "data") (fun data =>
  match or_else data (VArray []) with
  | VArray items =>
      rbind (map_result projectMsg items) (fun l => Ok (obj [("data"%string, VArray l)]))
  | _ => Throw TypeError
  end).

(** ** server.js: the proxy endpoints

    What an endpoint does depends on the configuration and on three things
    outside the program: what [getAccessToken] answers, what [fetch] answers
    for a request, and what [encodeURIComponent] makes of an identifier. *)

(** An upstream reply: its status and the outcome of reading its body with
    [json()]. *)
Record upstream_reply : Type := {
  status : Z;
  json : result value
}.

(** [Response.ok]. *)
Definition ok (r : upstream_reply) : bool :=
  (200 <=? status r)%Z && (status r <=? 299)%Z.

Record fetch_request : Type := {
  url : jsstring;
  method : jsstring;
  authorization : jsstring;
  body : option value
}.

Record world : Type := {
  PROJECT_ENDPOINT : jsstring;
  ASSISTANT_ID : jsstring;
  access_token : result jsstring;
  encodeURIComponent : value -> result jsstring;
  upstream : fetch_request -> result upstream_reply
}.

(** The calls an endpoint makes, in order. *)
Inductive call : Type :=
| TokenCall
| FetchCall (rq : fetch_request).

(** A computation of an endpoint: it reads the world, may throw, and logs its
    calls. *)
Definition M (A : Type) : Type := world -> list call -> result A * list call.

Definition ret {A} (a : A) : M A := fun _ log => (Ok a, log).

Definition bind {A B} (m : M A) (k : A -> M B) : M B := fun w log =>
  match m w log with
  | (Ok a, log') => k a w log'
  | (Throw e, log') => (Throw e, log')
  end.

Definition lift {A} (r : result A) : M A := fun _ log => (r, log).

Definition ask : M world := fun w log => (Ok w, log).

Definition getAccessToken : M jsstring := fun w log =>
  (access_token w, log ++ [TokenCall]).

Definition fetch (rq : fetch_request) : M upstream_reply := fun w log =>
  (upstream w rq, log ++ [FetchCall rq]).

Definition encode (v : value) : M jsstring := fun w log =>
  (encodeURIComponent w v, log).

Declare Scope proxy_scope.
Delimit Scope proxy_scope with proxy.
Notation "x <- m ;; k" := (bind m (fun x => k))
  (at level 61, m at next level, right associativity) : proxy_scope.

(** What the proxy answers: [res.status(code).json(payload)]. *)
Record response : Type := {
  code : Z;
  payload : value
}.

Definition error_body (msg : string) : value :=
  obj [("error"%string, obj [("message"%string, vstr msg)])].

Definition respond (c : Z) (v : value) : M response :=
  ret {| code := c; payload := v |}.

Definition bearer (token : jsstring) : jsstring := str "Bearer " ++ token.

(** The body of [app.post("/api/threads-runs")], inside its [try]. *)
Definition threads_runs (req_body : value) : M response :=
  (text <- lift (extractUserText req_body) ;;
   match text with
   | [] => respond 400 (error_body "Missing text")
   | _ =>
     token <- getAccessToken ;;
     w <- ask ;;
     upstream <- fetch {|
       url := PROJECT_ENDPOINT w ++ str "/threads/runs?api-version=v1";
       method := str "POST";
       authorization := bearer token;
       body := Some (obj [("assistant_id", VString (ASSISTANT_ID w));
                          ("thread",
                           obj [("messages",
                                 VArray [obj [("role", VString (str "user"));
                                              ("content", VString text)]])])]%string) |} ;;
     body <- lift (json upstream) ;;
     if negb (ok upstream) then respond (status upstream) (error_body "Upstream error")
     else
       thread_id <- lift (get body "thread_id") ;;
       respond 200
         (obj [("thread",
                obj [("id", or_else thread_id
                              (or_else (prop (prop body "thread") "id") VNull))]);
               ("run",
                obj [("id", prop body "id");
                     ("status", prop body "status");
                     ("thread_id", prop body "thread_id");
                     ("created_at", prop body "created_at");
                     ("started_at", prop body "started_at");
                     ("completed_at", prop body "completed_at")])]%string)
   end)%proxy.

(** The body of [app.post("/api/append-message")]. *)
Definition append_message (req_body : value) : M response :=
  (let b := or_else req_body (VObject []) in
   let threadId := prop b "threadId" in
   let content := prop b "content" in
   shown <- lift (if truthy threadId then to_string (or_else content (VString []))
                  else Ok []) ;;
   if negb (truthy threadId) || match trim shown with [] => true | _ => false end
   then respond 400 (error_body "Missing fields")
   else
     token <- getAccessToken ;;
     w <- ask ;;
     id <- encode threadId ;;
     r <- fetch {|
       url := PROJECT_ENDPOINT w ++ str "/threads/" ++ id ++ str "/messages?api-version=v1";
       method := str "POST";
       authorization := bearer token;
       body := Some (obj [("role", VString (str "user")); ("content", content)]%string) |} ;;
     j <- lift (json r) ;;
     if negb (ok r) then respond (status r) (error_body "Upstream error")
     else
       id <- lift (get j "id") ;;
       respond 200 (obj [("ok", VBool true); ("id", id)]%string))%proxy.

(** The body of [app.post("/api/start-run")]. *)
Definition start_run (req_body : value) : M response :=
  (let b := or_else req_body (VObject []) in
   let threadId := prop b "threadId" in
   if negb (truthy threadId) then respond 400 (error_body "Missing threadId")
   else
     token <- getAccessToken ;;
     w <- ask ;;
     id <- encode threadId ;;
     r <- fetch {|
       url := PROJECT_ENDPOINT w ++ str "/threads/" ++ id ++ str "/runs?api-version=v1";
       method := str "POST";
       authorization := bearer token;
       body := Some (obj [("assistant_id"%string, VString (ASSISTANT_ID w))]) |} ;;
     j <- lift (json r) ;;
     if negb (ok r) then respond (status r) (error_body "Upstream error")
     else
       run <- lift (projectRun j) ;;
       respond 200 run)%proxy.

(** The body of [app.get("/api/run-status")]. *)
Definition run_status (req_query : value) : M response :=
  (let q := or_else req_query (VObject []) in
   let threadId := prop q "threadId" in
   let runId := prop q "runId" in
   if negb (truthy threadId) || negb (truthy runId)
   then respond 400 (error_body "Missing ids")
   else
     token <- getAccessToken ;;
     w <- ask ;;
     tid <- encode threadId ;;
     rid <- encode runId ;;
     r <- fetch {|
       url := PROJECT_ENDPOINT w ++ str "/threads/" ++ tid ++ str "/runs/" ++ rid
              ++ str "?api-version=v1";
       method := str "GET";
       authorization := bearer token;
       body := None |} ;;
     j <- lift (json r) ;;
     if negb (ok r) then respond (status r) (error_body "Upstream error")
     else
       st <- lift (get j "status") ;;
       respond 200 (obj [("status"%string, st)]))%proxy.

(** The body of [app.get("/api/messages")]. *)
Definition messages (req_query : value) : M response :=
  (let q := or_else req_query (VObject []) in
   let threadId := prop q "threadId" in
   if negb (truthy threadId) then respond 400 (error_body "Missing threadId")
   else
     token <- getAccessToken ;;
     w <- ask ;;
     id <- encode threadId ;;
     r <- fetch {|
       url := PROJECT_ENDPOINT w ++ str "/threads/" ++ id ++ str "/messages?api-version=v1";
       method := str "GET";
       authorization := bearer token;
       body := None |} ;;
     j <- lift (json r) ;;
     if negb (ok r) then respond (status r) (error_body "Upstream error")
     else
       list <- lift (projectMsgList j) ;;
       respond 200 list)%proxy.

(** The five proxy operations. *)
Inductive endpoint : Type :=
| ThreadsRuns
| AppendMessage
| StartRun
| RunStatus
| Messages.

Definition handler (e : endpoint) : value -> M response :=
  match e with
  | ThreadsRuns => threads_runs
  | AppendMessage => append_message
  | StartRun => start_run
  | RunStatus => run_status
  | Messages => messages
  end.

(** An endpoint as Express runs it: the handler inside [try], any exception
    answered by the [catch] with 500.  [req] is the parsed body of a POST and
    the parsed query of a GET. *)
Definition serve (e : endpoint) (req : value) (w : world) : response * list call :=
  match handler e req w [] with
  | (Ok r, log) => (r, log)
  | (Throw _, log) => ({| code := 500; payload := error_body "Server error" |}, log)
  end.

(** ** chat.js: the regular expressions of the feedback flow *)

(** Two code units match under the [i] flag (without [u]) when they
    canonicalise to the same unit; for the ASCII patterns of this program that
    is equality up to the case of ASCII letters. *)
Definition ci_eqb (a b : char) : bool := char_eqb (lower_char a) (lower_char b).

(** A literal matched at the head of [s], case-insensitively: what follows it. *)
Fixpoint lit_ci (p s : jsstring) : option jsstring :=
  match p with
  | [] => Some s
  | a :: p' =>
      match s with
      | c :: s' => if ci_eqb a c then lit_ci p' s' else None
      | [] => None
      end
  end.

(** [\s*] before something that is no white space: greedy, and giving units
    back cannot help. *)
Definition skip_spaces (s : jsstring) : jsstring := drop_while is_white_space s.

(** [\b] between the code unit [prev] and the head of [s]. *)
Definition word_boundary (prev : option char) (s : jsstring) : bool :=
  xorb (match prev with Some c => is_word c | None => false end)
       (match s with c :: _ => is_word c | [] => false end).

(** [(?:-|\u2013|to)]: a hyphen, an en dash or the word to. *)
Definition range_separator (s : jsstring) : option jsstring :=
  match s with
  | c :: rest =>
      if char_eqb c 45%N then Some rest
      else if char_eqb c EN_DASH then Some rest
      else lit_ci (str "to") s
  | [] => None
  end.

(** What is left of [s] after [\bfeedback\s*1\s*(?:-|\u2013|to)\s*5\b], under
    the [i] flag. *)
Definition after_phrase (prev : option char) (s : jsstring) : option jsstring :=
  if word_boundary prev s then
    match lit_ci (str "feedback") s with
    | Some s1 =>
        match lit_ci (str "1") (skip_spaces s1) with
        | Some s2 =>
            match range_separator (skip_spaces s2) with
            | Some s3 =>
                match lit_ci (str "5") (skip_spaces s3) with
                | Some s4 => if word_boundary (Some 53%N) s4 then Some s4 else None
                | None => None
                end
            | None => None
            end
        | None => None
        end
    | None => None
    end
  else None.

(** The bare phrase, [/\bfeedback\s*1\s*(?:-|\u2013|to)\s*5\b/gi]. *)
Definition re_feedback_phrase : matcher := fun prev s =>
  match after_phrase prev s with
  | Some rest => Some (List.length s - List.length rest)
  | None => None
  end.

Definition not_lf (c : char) : bool := negb (is_lf c).

(** [[^\n]*PHRASE[^\n]*([.!?])?(?=\n|$)] from the start of a line.  The
    first [[^\n]*] is greedy: the phrase is taken at the last place of the line
    where it matches.  After the phrase the second [[^\n]*] runs to the end of
    the line, where the optional group finds nothing and the lookahead holds. *)
Fixpoint line_with_phrase (prev : option char) (s : jsstring) : option nat :=
  match s with
  | [] => None
  | c :: rest =>
      match (if is_lf c then None else line_with_phrase (Some c) rest) with
      | Some n => Some (S n)
      | None =>
          match after_phrase prev s with
          | Some tail => Some (List.length s - List.length tail + run_length not_lf tail)
          | None => None
          end
      end
  end.

(** The whole-line expression,
    [/(^|\n)[^\n]*PHRASE[^\n]*([.!?])?(?=\n|$)/gi]: without the [m] flag
    the caret holds at the start of the input only; the other alternative
    consumes a line feed. *)
Definition re_feedback_line : matcher := fun prev s =>
  match (match prev with None => line_with_phrase None s | Some _ => None end) with
  | Some n => Some n
  | None =>
      match s with
      | c :: rest =>
          if is_lf c then option_map S (line_with_phrase (Some c) rest) else None
      | [] => None
      end
  end.

(** [stripFeedbackPrompt(text = "")]: the cleaned text and the flag the two
    replacement callbacks raise. *)
Definition stripFeedbackPrompt (text : jsstring) : jsstring * bool :=
  let pass1 := scan re_feedback_line [] O None text in
  let pass2 := scan re_feedback_phrase [] O None (fst pass1) in
  let cleaned :=
    trim (replace_all re_blank_run [SPACE]
            (replace_all re_blank_lines [LF; LF] (fst pass2))) in
  (cleaned, snd pass1 || snd pass2).

(** [/re/.test(text)]: the expression matches somewhere. *)
Definition test (m : matcher) (s : jsstring) : bool := matches_somewhere m s.

Definition matched (s : jsstring) (rest : option jsstring) : option nat :=
  match rest with
  | Some r => Some (List.length s - List.length r)
  | None => None
  end.

(** The four expressions of [shouldSkipUserBubble]:
    [/Where is my order\?/i], [/Cycle\s*to\s*Work status/i],
    [/^LOYALTY_SIGNUP\b/i] and [/^FEEDBACK\s*[1-5]\b/i]. *)
Definition re_order : matcher := fun _ s =>
  matched s (lit_ci (str "Where is my order?") s).

Definition re_cycle : matcher := fun _ s =>
  matched s
    match lit_ci (str "Cycle") s with
    | Some s1 =>
        match lit_ci (str "to") (skip_spaces s1) with
        | Some s2 => lit_ci (str "Work status") (skip_spaces s2)
        | None => None
        end
    | None => None
    end.

Definition re_loyalty : matcher := fun prev s =>
  match prev with
  | None =>
      matched s
        match lit_ci (str "LOYALTY_SIGNUP") s with
        | Some s1 => if word_boundary (Some 80%N) s1 then Some s1 else None
        | None => None
        end
  | Some _ => None
  end.

Definition re_rating : matcher := fun prev s =>
  match prev with
  | None =>
      matched s
        match lit_ci (str "FEEDBACK") s with
        | Some s1 =>
            match skip_spaces s1 with
            | d :: s2 =>
                if ((49 <=? d) && (d <=? 53))%N && word_boundary (Some d) s2
                then Some s2 else None
            | [] => None
            end
        | None => None
        end
  | Some _ => None
  end.

(** [shouldSkipUserBubble(text)]. *)
Definition shouldSkipUserBubble (text : jsstring) : bool :=
  test re_order text || test re_cycle text || test re_loyalty text || test re_rating text.

(** ** chat.js: the text of an assistant message *)

Definition hex_digit (n : N) : char :=
  (if n <? 10 then 48 + n else 87 + n)%N.

(** The escape [\uXXXX] of a code unit. *)
Definition unicode_escape (c : char) : jsstring :=
  str "\u" ++ [hex_digit (c / 4096 mod 16); hex_digit (c / 256 mod 16);
               hex_digit (c / 16 mod 16); hex_digit (c mod 16)]%N.

Definition is_high_surrogate (c : char) : bool := ((0xD800 <=? c) && (c <=? 0xDBFF))%N.
Definition is_low_surrogate (c : char) : bool := ((0xDC00 <=? c) && (c <=? 0xDFFF))%N.

(** The inside of a JSON string literal: quotes, backslashes and control
    characters escaped, lone surrogates written as escapes.  [paired] tells
    that the head is the low half of a pair whose high half was just copied. *)
Fixpoint quote_units (paired : bool) (s : jsstring) : jsstring :=
  match s with
  | [] => []
  | c :: rest =>
      if char_eqb c 34%N then str "\" ++ [34%N] ++ quote_units false rest
      else if char_eqb c 92%N then str "\\" ++ quote_units false rest
      else if char_eqb c 8%N then str "\b" ++ quote_units false rest
      else if char_eqb c 12%N then str "\f" ++ quote_units false rest
      else if char_eqb c 10%N then str "\n" ++ quote_units false rest
      else if char_eqb c 13%N then str "\r" ++ quote_units false rest
      else if char_eqb c 9%N then str "\t" ++ quote_units false rest
      else if (c <? 32)%N then unicode_escape c ++ quote_units false rest
      else if is_high_surrogate c then
        match rest with
        | d :: _ =>
            if is_low_surrogate d then c :: quote_units true rest
            else unicode_escape c ++ quote_units false rest
        | [] => unicode_escape c
        end
      else if is_low_surrogate c then
        (if paired then [c] else unicode_escape c) ++ quote_units false rest
      else c :: quote_units false rest
  end.

Definition quote (s : jsstring) : jsstring := [34%N] ++ quote_units false s ++ [34%N].

(** The array index a property key spells, if it spells one: the numeral,
    with no sign and no zero in front, of an integer below 2^32 - 1. *)
Fixpoint numeral (acc : N) (s : jsstring) : option N :=
  match s with
  | [] => Some acc
  | c :: rest =>
      if ((48 <=? c) && (c <=? 57))%N then numeral (10 * acc + (c - 48))%N rest else None
  end.

Definition array_index (k : jsstring) : option N :=
  match k with
  | [] => None
  | c :: rest =>
      if char_eqb c 48%N then match rest with [] => Some 0%N | _ => None end
      else match numeral 0%N k with
           | Some n => if (n <? 4294967295)%N then Some n else None
           | None => None
           end
  end.

Fixpoint insert_index {A} (n : N) (x : A) (l : list (N * A)) : list (N * A) :=
  match l with
  | [] => [(n, x)]
  | (m, y) :: rest => if (n <=? m)%N then (n, x) :: l else (m, y) :: insert_index n x rest
  end.

(** The order in which the engine goes through the properties of an object:
    those whose key is an array index first, by rising index, then the others
    in the order they were made. *)
Definition enumerate {A} (fields : list (jsstring * A)) : list (jsstring * A) :=
  map snd
    (fold_right (fun kv acc => match array_index (fst kv) with
                               | Some n => insert_index n kv acc
                               | None => acc
                               end) [] fields)
  ++ filter (fun kv => match array_index (fst kv) with
                       | Some _ => false
                       | None => true
                       end) fields.

(** [JSON.stringify(v)]; [None] is the undefined it answers for undefined.
    An undefined element of an array prints as null, a property whose value is
    undefined is left out; the members of an object come in the order of
    [enumerate]. *)
Fixpoint JSON_stringify (v : value) : option jsstring :=
  match v with
  | VUndefined => None
  | VNull => Some (str "null")
  | VBool true => Some (str "true")
  | VBool false => Some (str "false")
  | VNumber n => Some (number_to_string n)
  | VString s => Some (quote s)
  | VArray items =>
      Some (str "[" ++
            join (str ",")
              ((fix elements (l : list value) : list jsstring :=
                  match l with
                  | [] => []
                  | x :: rest =>
                      match JSON_stringify x with
                      | Some s => s
                      | None => str "null"
                      end :: elements rest
                  end) items)
            ++ str "]")
  | VObject fields =>
      Some (str "{" ++
            join (str ",")
              (map (fun ks => quote (fst ks) ++ str ":" ++ snd ks)
                 (enumerate
                    ((fix members (l : list (jsstring * value))
                        : list (jsstring * jsstring) :=
                        match l with
                        | [] => []
                        | (k, x) :: rest =>
                            match JSON_stringify x with
                            | Some s => (k, s) :: members rest
                            | None => members rest
                            end
                        end) fields)))
            ++ str "}")
  end.

(** [hay.includes(needle)] on strings. *)
Fixpoint starts_with (needle hay : jsstring) : bool :=
  match needle, hay with
  | [], _ => true
  | a :: n', c :: h' => char_eqb a c && starts_with n' h'
  | _ :: _, [] => false
  end.

Fixpoint includes (needle hay : jsstring) : bool :=
  starts_with needle hay
  || match hay with
     | [] => false
     | _ :: rest => includes needle rest
     end.

(** [it.type?.includes("image")]: a substring of a string, an element of an
    array, undefined for no type; anything else has no [includes] to call. *)
Definition type_includes_image (ty : value) : result bool :=
  match ty with
  | VUndefined | VNull => Ok false
  | VString s => Ok (includes (str "image") s)
  | VArray items => Ok (existsb (fun x => is_literal x "image") items)
  | VBool _ | VNumber _ | VObject _ => Throw TypeError
  end.

(** The helper [take] of [extractAssistantText]: what it pushes for [it]. *)
Definition take (it : value) : result (list jsstring) :=
  if negb (truthy it) then Ok []
  else match it with
  | VString s => Ok [s]
  | _ =>
    if is_literal (prop it "type") "text" && truthy (prop it "text")
       && is_string (prop (prop it "text") "value")
    then Ok (match prop (prop it "text") "value" with VString s => [s] | _ => [] end)
    else match prop it "text" with
    | VString s => Ok [s]
    | _ =>
    match prop it "output_text" with
    | VString s => Ok [s]
    | _ =>
    if truthy (prop it "output_text") && is_string (prop (prop it "output_text") "value")
    then Ok (match prop (prop it "output_text") "value" with VString s => [s] | _ => [] end)
    else match prop it "value" with
    | VString s => Ok [s]
    | _ =>
    rbind (type_includes_image (prop it "type")) (fun image =>
    if image || truthy (prop it "image") || truthy (prop it "image_file")
    then Ok [str "[Image output]"]
    else Ok [match JSON_stringify it with Some s => s | None => [] end])
    end end end
  end.

(** The loop [for (const c of msg.content) take(c)] inside [try {} catch {}]:
    what was pushed before an exception stays. *)
Fixpoint take_all (parts : list value) : list jsstring :=
  match parts with
  | [] => []
  | c :: rest =>
      match take c with
      | Ok pushed => pushed ++ take_all rest
      | Throw _ => []
      end
  end.

(** [extractAssistantText(msg)], given [msg.content]. *)
Definition extractAssistantText (content : value) : jsstring :=
  let out :=
    match content with
    | VArray parts => take_all parts
    | _ => match take content with Ok pushed => pushed | Throw _ => [] end
    end in
  trim (join [LF; LF] out).

(** ** chat.js: the run polling loop *)

(** [terminal.has(status)] for the set of completed, failed, cancelled and
    expired. *)
Definition terminal_has (status : value) : bool :=
  is_literal status "completed" || is_literal status "failed"
  || is_literal status "cancelled" || is_literal status "expired".

(** How the loop is left: normally with the last status, by an exception of
    [getRun], or not yet (the script of answers is used up while the run is
    still in progress).  [calls] counts the calls of [getRun]. *)
Inductive poll_end : Type :=
| Polled (status : value) (calls : nat)
| PollThrew (e : exn) (calls : nat)
| PollPending (status : value) (calls : nat).

(** The loop
    [while (!terminal.has(status)) { sleep; rstatus = await getRun(runId);
     status = rstatus?.status; if (status === "requires_action") break; }]
    run against the answers [getRun] gives, in order.  The pause of 1200 ms
    before each call is not modelled. *)
Fixpoint poll (status : value) (script : list (result value)) (calls : nat) : poll_end :=
  if terminal_has status then Polled status calls
  else
    match script with
    | [] => PollPending status calls
    | Throw e :: _ => PollThrew e (S calls)
    | Ok rstatus :: rest =>
        let status := prop rstatus "status" in
        if is_literal status "requires_action" then Polled status (S calls)
        else poll status rest (S calls)
    end.

(** ** chat.js: the transcript and the state of the client *)

(** A row of the message pane.  An assistant or user bubble keeps the
    markdown source handed to [mdToHtml].  [ErrorBubble] is the assistant
    bubble of the [catch] for an exception of the engine: its markdown ends
    with the wording of the engine, so it keeps the exception instead.  A
    rating form keeps the rank of its creation, which tells forms apart. *)
Inductive bubble : Type :=
| UserBubble (md : jsstring)
| AssistantBubble (md : jsstring)
| ErrorBubble (e : exn)
| TypingBubble
| RatingForm (id : nat)
| WelcomeBubble.

(** The module-level variables [threadId], [sending], [pendingFeedback] and
    the children of [#messages]. *)
Record client : Type := {
  threadId : value;
  sending : bool;
  pendingFeedback : bool;
  transcript : list bubble;
  forms_rendered : nat
}.

Definition set_threadId (v : value) (c : client) : client :=
  {| threadId := v; sending := sending c; pendingFeedback := pendingFeedback c;
     transcript := transcript c; forms_rendered := forms_rendered c |}.

Definition set_sending (b : bool) (c : client) : client :=
  {| threadId := threadId c; sending := b; pendingFeedback := pendingFeedback c;
     transcript := transcript c; forms_rendered := forms_rendered c |}.

Definition set_pendingFeedback (b : bool) (c : client) : client :=
  {| threadId := threadId c; sending := sending c; pendingFeedback := b;
     transcript := transcript c; forms_rendered := forms_rendered c |}.

Definition set_transcript (t : list bubble) (c : client) : client :=
  {| threadId := threadId c; sending := sending c; pendingFeedback := pendingFeedback c;
     transcript := t; forms_rendered := forms_rendered c |}.

(** [addMsg(role, html)]: a row appended before the bottom sentinel. *)
Definition addMsg (b : bubble) (c : client) : client :=
  set_transcript (transcript c ++ [b]) c.

Definition is_typing (b : bubble) : bool :=
  match b with TypingBubble => true | _ => false end.

Definition showTyping (c : client) : client := addMsg TypingBubble c.

(** [hideTyping()]: the row of the typing indicator leaves the pane. *)
Definition hideTyping (c : client) : client :=
  set_transcript (filter (fun b => negb (is_typing b)) (transcript c)) c.

Definition is_form (id : nat) (b : bubble) : bool :=
  match b with RatingForm i => Nat.eqb i id | _ => false end.

Definition is_rating_form (b : bubble) : bool :=
  match b with RatingForm _ => true | _ => false end.

(** [renderFeedbackPrompt()]: a new rating form in the pane. *)
Definition renderFeedbackPrompt (c : client) : client :=
  {| threadId := threadId c; sending := sending c; pendingFeedback := pendingFeedback c;
     transcript := transcript c ++ [RatingForm (forms_rendered c)];
     forms_rendered := S (forms_rendered c) |}.

(** ** chat.js: choosing and rendering the latest assistant message *)

(** An item of the reply of GET /api/messages, as [projectMsgList] builds
    it: [role], [created_at] (a Unix time when upstream gives one) and
    [content]. *)
Record message : Type := {
  role : value;
  created_at : option Z;
  content : value
}.

(** [m.created_at || 0]. *)
Definition stamp (m : message) : Z :=
  match created_at m with
  | Some n => n
  | None => 0%Z
  end.

(** [Array.prototype.sort] with the comparator
    [(a, b) => (b.created_at || 0) - (a.created_at || 0)]: the sort is stable,
    so its result is the one of this insertion sort: decreasing stamps, ties in
    the order of the input. *)
Fixpoint insert_desc (x : message) (l : list message) : list message :=
  match l with
  | [] => [x]
  | y :: rest => if (stamp y <=? stamp x)%Z then x :: l else y :: insert_desc x rest
  end.

Fixpoint sort_desc (l : list message) : list message :=
  match l with
  | [] => []
  | x :: rest => insert_desc x (sort_desc rest)
  end.

(** [items[0]?.created_at] is truthy. *)
Definition first_is_stamped (items : list message) : bool :=
  match items with
  | m :: _ => match created_at m with Some n => negb (Z.eqb n 0) | None => false end
  | [] => false
  end.

(** [sorted]. *)
Definition sorted (items : list message) : list message :=
  if first_is_stamped items then sort_desc items else items.

(** [String(m.role || "").toLowerCase() === "assistant"]. *)
Definition is_assistant (m : message) : result bool :=
  rbind (to_string (or_else (role m) (VString [])))
    (fun s => Ok (jsstring_eqb (toLowerCase s) (str "assistant"))).

(** [Array.prototype.find] with that test. *)
Fixpoint find_assistant (l : list message) : result (option message) :=
  match l with
  | [] => Ok None
  | m :: rest =>
      rbind (is_assistant m) (fun yes => if yes then Ok (Some m) else find_assistant rest)
  end.

(** [latestAssistant]. *)
Definition latestAssistant (items : list message) : result (option message) :=
  find_assistant (sorted items).

(** [renderLatestAssistant(itemsParam)], on the [data] array of the reply. *)
Definition renderLatestAssistant (items : list message) (c : client) : result client :=
  match items with
  | [] => Ok (addMsg (AssistantBubble (str "_No messages returned._")) c)
  | _ =>
      rbind (latestAssistant items) (fun latest =>
      match latest with
      | None => Ok (addMsg (AssistantBubble (str "_No assistant response found._")) c)
      | Some m =>
          let raw := extractAssistantText (content m) in
          let cleaned := fst (stripFeedbackPrompt raw) in
          let found := snd (stripFeedbackPrompt raw) in
          let c1 := match cleaned with
                    | [] => c
                    | _ => addMsg (AssistantBubble cleaned) c
                    end in
          Ok (if found && negb (pendingFeedback c1)
              then renderFeedbackPrompt (set_pendingFeedback true c1)
              else c1)
      end)
  end.

(** ** chat.js: one turn *)

(** What the proxy answers during a turn: to [createThreadAndRun], to
    [appendMessage], to [startRun], to the successive [getRun] and to
    [listThreadMessages] (the [data] array of its reply).  [fetchJSON] throws
    on a network error and on a reply that is not ok. *)
Record answers : Type := {
  created : result value;
  appended : result value;
  started : result value;
  polled : list (result value);
  listed : result (list message)
}.

(** [sendMessage(text)] up to its [try]: [None] when the guard returns at
    once.  Between the guard and the [try] the lock is taken, the inputs are
    disabled, the text is echoed unless [shouldSkipUserBubble] and the typing
    indicator is shown; these operations on the page do not throw. *)
Definition begin_turn (text : jsstring) (c : client) : option client :=
  match trim text with
  | [] => None
  | _ =>
      if sending c then None
      else
        let c1 := set_sending true c in
        let c2 := if shouldSkipUserBubble text then c1
                  else addMsg (UserBubble text) c1 in
        Some (showTyping c2)
  end.

(** How the body of the [try] is left. *)
Inductive body_end : Type :=
| Done (c : client)
| Failed (e : exn) (c : client)
| Waiting (calls : nat) (c : client).

(** The first part of the body of the [try], up to the polling loop: the
    thread and its run are created and [threadId] is kept, or the message is
    appended and a run is started.  The result is the page and the first
    [status].  [fresh] tells that [threadId] was falsy when the turn began; [c]
    is the page when the answer comes. *)
Definition open_run (fresh : bool) (a : answers) (c : client) : result (client * value) :=
  if fresh then
    rbind (created a) (fun r =>
      match r with
      | VUndefined | VNull => Throw TypeError
      | _ =>
          let thread := prop r "thread" in
          let run := prop r "run" in
          Ok (set_threadId (or_else (prop thread "id") (prop run "thread_id")) c,
              prop run "status")
      end)
  else
    rbind (appended a) (fun _ =>
    rbind (started a) (fun run => Ok (c, prop run "status"))).

(** The rest of the body: the polling loop from [status] on, the list of the
    messages and its rendering.  [c1] is the page when the list comes. *)
Definition follow_run (status : value) (a : answers) (c1 : client) : body_end :=
  match poll status (polled a) 0 with
  | PollThrew e _ => Failed e c1
  | PollPending _ n => Waiting n c1
  | Polled _ _ =>
      match listed a with
      | Throw e => Failed e c1
      | Ok list =>
          match renderLatestAssistant list (hideTyping c1) with
          | Ok c2 => Done c2
          | Throw e => Failed e (hideTyping c1)
          end
      end
  end.

(** The body of the [try], run with nothing else happening in between. *)
Definition turn_body (fresh : bool) (a : answers) (c : client) : body_end :=
  match open_run fresh a c with
  | Throw e => Failed e c
  | Ok (c1, status) => follow_run status a c1
  end.

(** [e.message || String(e)]: the message of an [Error], and its name when
    the message is empty.  What an exception of the engine says is not known
    here. *)
Definition error_text (e : exn) : option jsstring :=
  match e with
  | Exn [] => Some (str "Error")
  | Exn msg => Some msg
  | TypeError | SyntaxError => None
  end.

(** The markdown of the bubble of the [catch]: the words Sorry, I hit an
    error, in bold, an empty line, and [error_text]. *)
Definition error_markdown (e : exn) : option jsstring :=
  match error_text e with
  | Some msg => Some (str "**Sorry " ++ [0x2014%N] ++ str " I hit an error:**"
                      ++ [LF; LF] ++ msg)
  | None => None
  end.

(** The bubble of the [catch]. *)
Definition error_row (e : exn) : bubble :=
  match error_markdown e with
  | Some md => AssistantBubble md
  | None => ErrorBubble e
  end.

(** The [catch]: the typing indicator goes and one bubble tells the error. *)
Definition catch_error (e : exn) (c : client) : client :=
  addMsg (error_row e) (hideTyping c).

(** The [finally]. *)
Definition finally (c : client) : client := set_sending false c.

(** How a turn ends, if it does. *)
Inductive turn_end : Type :=
| Ended (c : client)
| StillPolling (calls : nat).

(** From the end of the body to the end of the turn: the [catch] after an
    exception, and the [finally]. *)
Definition conclude (b : body_end) : turn_end :=
  match b with
  | Done c' => Ended (finally c')
  | Failed e c' => Ended (finally (catch_error e c'))
  | Waiting n _ => StillPolling n
  end.

Definition end_turn (fresh : bool) (a : answers) (c : client) : turn_end :=
  conclude (turn_body fresh a c).

(** [sendMessage(text)] run from its call to its end with nothing else
    happening in between: [None] when the guard returns at once. *)
Definition sendMessage (text : jsstring) (a : answers) (c : client) : option turn_end :=
  match begin_turn text c with
  | None => None
  | Some c1 => Some (end_turn (negb (truthy (threadId c))) a c1)
  end.

(** ** chat.js: the client under user events

    The page runs one handler at a time; a handler gives way at each [await],
    and other handlers may run before it resumes.  A turn writes to the page
    at three moments: at its start, up to the first [await]; when the run is
    started, where [threadId] is assigned; and at its end, from the answer of
    [listThreadMessages] on, or from an exception on.  Between the start of the
    run and the end the turn only polls, reading and writing nothing of the
    page.  The handler of a star that awaits a turn resumes right after the
    [finally] of that turn, before any other event.  Events that only add or
    remove other rows (the form fragments and their echo) are left out. *)

(** A turn in flight: [sendMessage] is suspended at an [await].  [owner] is
    the rating form whose click handler awaits the turn, if any; [first_status]
    is the [status] the run started with, once it is started. *)
Record flight : Type := {
  fresh_thread : bool;
  owner : option nat;
  first_status : option value
}.

Record session : Type := {
  ui : client;
  flights : list flight
}.

Inductive event : Type :=
| Send (text : jsstring)         (* the composer, a chip or a form calls sendMessage *)
| Star (id : nat) (n : nat)      (* star n of rating form id is clicked *)
| Started (a : answers)          (* the proxy has answered the calls that start the run *)
| Answered (a : answers)         (* it has answered the polling and the list: the turn ends *)
| NewChat.                       (* the new-chat button *)

(** The bubble of a rating: [Feedback: ***__ (n/5)] with black and white stars. *)
Definition rating_bubble (n : nat) : bubble :=
  UserBubble (str "Feedback: " ++ repeat 0x2605%N n ++ repeat 0x2606%N (5 - n)
              ++ str " (" ++ number_to_string (Z.of_nat n) ++ str "/5)").

Definition rating_text (n : nat) : jsstring :=
  str "FEEDBACK " ++ number_to_string (Z.of_nat n).

(** The end of the click handler, after [await sendMessage(...)]:
    [form.closest(".msg")?.remove(); pendingFeedback = false]. *)
Definition after_rating (id : nat) (c : client) : client :=
  set_pendingFeedback false
    (set_transcript (filter (fun b => negb (is_form id b)) (transcript c)) c).

Definition start_flight (own : option nat) (before c : client) (s : session) : session :=
  {| ui := c;
     flights := flights s ++ [{| fresh_thread := negb (truthy (threadId before));
                                 owner := own;
                                 first_status := None |}] |}.

(** The turn of [f] has ended on the page [c]: the star handler that awaited
    it, if any, resumes. *)
Definition land (f : flight) (rest : list flight) (c : client) : session :=
  {| ui := match owner f with
           | Some id => after_rating id c
           | None => c
           end;
     flights := rest |}.

(** One event.  [None]: the event cannot happen in this state (a star of a
    form that is not in the pane, an answer with no turn in flight, the start
    of a run that is started, the end of a turn whose run is not started or
    goes on polling).  [Started] takes from its answers those of
    [createThreadAndRun], or of [appendMessage] and [startRun]; [Answered]
    takes those of [getRun] and [listThreadMessages]. *)
Definition step (ev : event) (s : session) : option session :=
  match ev with
  | Send text =>
      match begin_turn text (ui s) with
      | None => Some s
      | Some c => Some (start_flight None (ui s) c s)
      end
  | Star id n =>
      if existsb (is_form id) (transcript (ui s)) && Nat.leb 1 n && Nat.leb n 5 then
        let c0 := addMsg (rating_bubble n) (ui s) in
        match begin_turn (rating_text n) c0 with
        | None => Some {| ui := after_rating id c0; flights := flights s |}
        | Some c => Some (start_flight (Some id) c0 c s)
        end
      else None
  | Started a =>
      match flights s with
      | [] => None
      | f :: rest =>
          match first_status f with
          | Some _ => None
          | None =>
              match open_run (fresh_thread f) a (ui s) with
              | Ok (c, status) =>
                  Some {| ui := c;
                          flights := {| fresh_thread := fresh_thread f;
                                        owner := owner f;
                                        first_status := Some status |} :: rest |}
              | Throw e => Some (land f rest (finally (catch_error e (ui s))))
              end
          end
      end
  | Answered a =>
      match flights s with
      | [] => None
      | f :: rest =>
          match first_status f with
          | None => None
          | Some status =>
              match conclude (follow_run status a (ui s)) with
              | Ended c => Some (land f rest c)
              | StillPolling _ => None
              end
          end
      end
  | NewChat =>
      Some {| ui := set_transcript [WelcomeBubble] (set_threadId VNull (ui s));
              flights := flights s |}
  end.

Fixpoint run (evs : list event) (s : session) : option session :=
  match evs with
  | [] => Some s
  | ev :: rest =>
      match step ev s with
      | Some s' => run rest s'
      | None => None
      end
  end.

(** The page as loaded. *)
Definition boot : session :=
  {| ui := {| threadId := VNull; sending := false; pendingFeedback := false;
              transcript := []; forms_rendered := 0 |};
     flights := [] |}.

Definition reachable (s : session) : Prop := exists evs, run evs boot = Some s.
(* ===================================================================== *)
(** * Part I, continued. Predicates the properties are stated with         *)
(* ===================================================================== *)

(** The expression matches at no position of [s] ([prev] being the code unit
    before [s]). *)
Fixpoint quiet (m : matcher) (prev : option char) (s : jsstring) : Prop :=
  match s with
  | [] => True
  | c :: rest => (forall k, m prev s <> Some (S k)) /\ quiet m (Some c) rest
  end.

(** No left bracket of [s] has a right bracket after it. *)
Fixpoint cite_free (s : jsstring) : Prop :=
  match s with
  | [] => True
  | c :: rest =>
      (c = LEFT_BRACKET -> index_of (char_eqb RIGHT_BRACKET) rest = None)
      /\ cite_free rest
  end.

Definition is_bracket (c : char) : bool :=
  char_eqb c LEFT_BRACKET || char_eqb c RIGHT_BRACKET.

Definition brackets (s : jsstring) : jsstring := filter is_bracket s.


(** ** Outbound text: the candidates of a request body *)

(** [payload.thread.messages[0]] when [messages] is a non-empty array. *)
Definition first_message (body : value) : value :=
  match prop (prop (prop body "payload") "thread") "messages" with
  | VArray (m0 :: _) => m0
  | _ => VUndefined
  end.

(** The first part typed text of the legacy content, when it is an array. *)
Definition legacy_text_part (body : value) : value :=
  match prop (first_message body) "content" with
  | VArray parts => find_text_part parts
  | _ => VUndefined
  end.

(** The trimmed text of the first candidate that is a string with something
    left after trimming; the empty string when there is none. *)
Fixpoint first_nonblank (candidates : list value) : jsstring :=
  match candidates with
  | [] => []
  | v :: rest =>
      match nonblank v with
      | Some t => t
      | None => first_nonblank rest
      end
  end.

(** The priority order as the specification words it: the three access paths
    of the typed part are three candidates of their own. *)
Definition candidates_claimed (body : value) : list value :=
  let content := prop (first_message body) "content" in
  let t := legacy_text_part body in
  [ prop body "text"; prop body "message"; prop body "input";
    content; prop content "text";
    prop (prop t "text") "value"; prop t "text"; prop t "value" ].

Definition extractUserText_claimed (body : value) : jsstring :=
  first_nonblank (candidates_claimed body).

(** The priority order of the code: the typed part gives one candidate, the
    first truthy value among its three access paths. *)
Definition candidates (body : value) : list value :=
  let content := prop (first_message body) "content" in
  let t := legacy_text_part body in
  [ prop body "text"; prop body "message"; prop body "input";
    content; prop content "text";
    or_else (prop (prop t "text") "value") (or_else (prop t "text") (prop t "value")) ].

(** A legacy body whose typed part has an object without [value] under
    [text] and a string under [value]. *)
Definition body_shadowed_value : value :=
  obj [("payload"%string,
        obj [("thread"%string,
              obj [("messages"%string,
                    VArray [obj [("content"%string,
                                  VArray [obj [("type"%string, vstr "text");
                                               ("text"%string, obj []);
                                               ("value"%string, vstr "hi")]])]])])])].

(** ** The proxy endpoints: what they answer *)

Definition server_error : response :=
  {| code := 500; payload := error_body "Server error" |}.

Definition upstream_error (c : Z) : response :=
  {| code := c; payload := error_body "Upstream error" |}.

(** What makes an endpoint refuse a request: a required identifier that is
    falsy (absent, null, the empty string), or a required text that is blank
    once converted and trimmed. *)
Definition rejected (e : endpoint) (req : value) : Prop :=
  let r := or_else req (VObject []) in
  match e with
  | ThreadsRuns => extractUserText req = Ok []
  | AppendMessage =>
      truthy (prop r "threadId") = false
      \/ exists s, to_string (or_else (prop r "content") (VString [])) = Ok s
                   /\ trim s = []
  | StartRun => truthy (prop r "threadId") = false
  | RunStatus => truthy (prop r "threadId") = false \/ truthy (prop r "runId") = false
  | Messages => truthy (prop r "threadId") = false
  end.

Definition refusal (e : endpoint) : response :=
  {| code := 400;
     payload := error_body match e with
                           | ThreadsRuns => "Missing text"
                           | AppendMessage => "Missing fields"
                           | StartRun => "Missing threadId"
                           | RunStatus => "Missing ids"
                           | Messages => "Missing threadId"
                           end |}.

(** Absent or blank, as the specification words it: no value, or a string
    with nothing left after trimming. *)
Definition absent_or_blank (v : value) : Prop :=
  v = VUndefined \/ v = VNull \/ exists s, v = VString s /\ trim s = [].

(** A world for the examples: a token is at hand, identifiers need no
    escaping, and upstream gives the same [reply] to every request. *)
Definition sample_world (reply : result upstream_reply) : world :=
  {| PROJECT_ENDPOINT := str "https://agent.example/api/projects/p";
     ASSISTANT_ID := str "asst_1";
     access_token := Ok (str "tok");
     encodeURIComponent := fun v => match v with VString s => Ok s | _ => Ok [] end;
     upstream := fun _ => reply |}.

(** ** Inbound messages on the proxy *)

(** The shapes of a message content the specification calls recognised: an
    array holding a part typed text with a string under [text.value], an
    object with a string under [text.value], an object with a string under
    [value]. *)
Definition recognised (content : value) : bool :=
  match content with
  | VArray parts =>
      existsb (fun c => is_literal (prop c "type") "text"
                        && is_string (prop (prop c "text") "value")) parts
  | VObject _ =>
      is_string (prop (prop content "text") "value") || is_string (prop content "value")
  | _ => false
  end.

(** A part typed text. *)
Definition typed_text (c : value) : bool := is_literal (prop c "type") "text".

(** Where the text of a message content is looked for first: under
    [text.value] of the first part typed text when the content is an array,
    under [text.value] of the content itself otherwise. *)
Definition text_place (content : value) : value :=
  match content with
  | VArray parts =>
      match List.find typed_text parts with
      | Some part => prop (prop part "text") "value"
      | None => VUndefined
      end
  | _ => prop (prop content "text") "value"
  end.

(** The extracted text of a message content: the string at [text_place] when
    it is a string and not empty; failing that, nothing for an array, and for
    another content the string under [value], if it is one. *)
Definition extracted_text (content : value) : jsstring :=
  match text_place content with
  | VString (c :: s) => c :: s
  | _ =>
      match content with
      | VArray _ => []
      | _ => match prop content "value" with VString s => s | _ => [] end
      end
  end.

(** A message the projection can read: it is neither null nor undefined, and
    what stands at [text_place] is falsy or a string. *)
Definition readable (m : value) : bool :=
  match m with
  | VUndefined | VNull => false
  | _ => negb (truthy (text_place (prop m "content")))
         || is_string (text_place (prop m "content"))
  end.

(** An upstream message whose typed part carries a number where the text
    should be. *)
Definition message_with_number : value :=
  obj [("role", vstr "assistant");
       ("created_at", VNumber 1700000000);
       ("content", VArray [obj [("type", vstr "text");
                                ("text", obj [("value", VNumber 42)])]])]%string.

(** ** The polling loop *)

(** The reply of GET /api/run-status carrying [st]. *)
Definition status_reply (st : string) : value := obj [("status"%string, vstr st)].

(** An answer of [getRun] that keeps the loop going: a status that is neither
    terminal nor requires_action. *)
Definition keeps_polling (r : result value) : Prop :=
  exists v, r = Ok v
            /\ terminal_has (prop v "status") = false
            /\ is_literal (prop v "status") "requires_action" = false.

(** ** Choosing the assistant message *)

(** The order of decreasing stamps. *)
Definition later_first (a b : message) : Prop := (stamp b <= stamp a)%Z.

(** The choice as the specification words it: with a stamp on the first item,
    the first assistant message of the sorted list; otherwise the last
    assistant message of the list as it came. *)
Definition latest_claimed (items : list message) : result (option message) :=
  if first_is_stamped items then find_assistant (sort_desc items)
  else find_assistant (rev items).

(** A plain message with no stamp. *)
Definition said (who : string) (what : string) : message :=
  {| role := vstr who; created_at := None; content := text_content (str what) |}.

Definition unstamped_thread : list message :=
  [said "assistant" "first answer"; said "user" "question"; said "assistant" "second answer"].

Definition stamped (who : string) (what : string) (at_time : Z) : message :=
  {| role := vstr who; created_at := Some at_time; content := text_content (str what) |}.

Definition stamped_thread : list message :=
  [stamped "user" "question" 30; stamped "assistant" "older answer" 10;
   stamped "Assistant" "newest answer" 40].

(** ** Turns in flight *)

(** The lock and the turns in flight agree: no turn and the lock free, or one
    turn and the lock held. *)
Definition lock_agrees (s : session) : Prop :=
  (flights s = [] /\ sending (ui s) = false)
  \/ (exists f, flights s = [f] /\ sending (ui s) = true).

(** The rows of a pane but the typing indicator. *)
Definition settled (rows : list bubble) : list bubble :=
  filter (fun b => negb (is_typing b)) rows.

(** What the bubble of an error says before the message of the error: the
    words Sorry, I hit an error, in bold with an em dash, and an empty line. *)
Definition error_heading : jsstring :=
  str "**Sorry " ++ [0x2014%N] ++ str " I hit an error:**" ++ [LF; LF].

(** ** The rating forms in the pane *)

Definition rating_forms (c : client) : list bubble :=
  filter is_rating_form (transcript c).

(** What [renderLatestAssistant] shows for a cleaned text. *)
Definition shown (cleaned : jsstring) : list bubble :=
  match cleaned with
  | [] => []
  | _ => [AssistantBubble cleaned]
  end.

(** A thread whose latest assistant message ends with the feedback marker. *)
Definition reply_with_marker : list message :=
  [stamped "assistant" "Thanks for that." 20; stamped "user" "hi" 10]
  ++ [{| role := vstr "assistant"; created_at := Some 30%Z;
         content := text_content (str "Great, thanks!" ++ [LF; LF]
                                  ++ str "feedback 1 to 5 please") |}].

(** The proxy answering a turn whose run completes after two status calls
    and whose thread is [reply_with_marker]. *)
Definition answers_with_marker : answers :=
  let run := obj [("id", vstr "run_1"); ("status", vstr "queued");
                  ("thread_id", vstr "thread_1")]%string in
  {| created := Ok (obj [("thread", obj [("id", vstr "thread_1")]); ("run", run)]%string);
     appended := Ok (obj [("ok", VBool true); ("id", vstr "msg_1")]%string);
     started := Ok run;
     polled := [Ok (status_reply "in_progress"); Ok (status_reply "completed")];
     listed := Ok reply_with_marker |}.

(** A user sends a message and is asked to rate the answer; two stars of the
    form are clicked one after the other while the turn of the first click is
    in flight; the answer to the rating asks for a rating again; then the user
    sends one more message.  Each turn gets the answers that start its run,
    then the answers that end it. *)
Definition double_click : list event :=
  [Send (str "hi"); Started answers_with_marker; Answered answers_with_marker;
   Star 0 3; Star 0 4; Started answers_with_marker; Answered answers_with_marker;
   Send (str "one more thing"); Started answers_with_marker; Answered answers_with_marker].

(** The proxy failing at the first call of a turn. *)
Definition answers_failing : answers :=
  {| created := Throw (Exn (str "Upstream error"));
     appended := Throw (Exn (str "Upstream error"));
     started := Throw (Exn (str "Upstream error"));
     polled := [];
     listed := Throw (Exn (str "Upstream error")) |}.

(** ** The feedback marker *)




(** The code unit before what follows [pre], [prev] being the one before
    [pre]. *)
Definition unit_before (prev : option char) (pre : jsstring) : option char :=
  fold_left (fun _ c => Some c) pre prev.







(** The last three steps of [stripFeedbackPrompt]: runs of three or more line
    feeds become two, runs of two or more blanks become one space, and the ends
    are trimmed. *)
Definition normalise (text : jsstring) : jsstring :=
  trim (replace_all re_blank_run [SPACE] (replace_all re_blank_lines [LF; LF] text)).

(** A text those steps leave alone. *)
Definition normal (text : jsstring) : Prop :=
  quiet re_blank_lines None text /\ quiet re_blank_run None text /\ trim text = text.

(** A reply of upstream with a cited answer in the recognised array shape
    and a message whose content is a bare string, which is none of the
    recognised shapes. *)
Definition sample_thread : value :=
  obj [("data",
        VArray [obj [("role", vstr "assistant");
                     ("created_at", VNumber 2);
                     ("content",
                      VArray [obj [("type", vstr "text");
                                   ("text",
                                    obj [("value",
                                          VString (str "Hello " ++ [LEFT_BRACKET]
                                                   ++ str "4:0" ++ [RIGHT_BRACKET]
                                                   ++ str " world")%list)])]])];
                obj [("role", vstr "user");
                     ("created_at", VNumber 1);
                     ("content", vstr "raw text")]])]%string.

(** What [projectMsg] answers for a message, when it answers: the role and
    the stamp as they came, and the one-part content around the stripped text
    it picked; a content of no recognised shape gives the empty text. *)
Definition projected (m o : value) : Prop :=
  exists s,
    picked_text (prop m "content") = VString s
    /\ o = obj [("role", prop m "role");
                ("created_at", prop m "created_at");
                ("content", text_content (stripAgentCitations s))]%string
    /\ (recognised (prop m "content") = false -> s = [] /\ stripAgentCitations s = []).

(** ** Proof steps shared by the endpoint proofs *)

(** Unfold an endpoint down to the answers of the world. *)
Ltac run_endpoint :=
  cbv [serve handler threads_runs append_message start_run run_status messages
       bind lift ret ask getAccessToken fetch encode respond].

(** Split on every answer of the world and every test the handler makes. *)
Ltac split_world w :=
  repeat (match goal with
          | |- context [access_token w] => destruct (access_token w) eqn:?
          | |- context [encodeURIComponent w ?v] => destruct (encodeURIComponent w v) eqn:?
          | |- context [upstream w ?rq] => destruct (upstream w rq) as [?up|?] eqn:?
          | |- context [json ?u] => destruct (json u) eqn:?
          | |- context [ok ?u] => destruct (ok u) eqn:?
          | |- context [get ?a ?b] => destruct (get a b) eqn:?
          | |- context [projectRun ?j] => destruct (projectRun j) eqn:?
          | |- context [projectMsgList ?j] => destruct (projectMsgList j) eqn:?
          | |- context [to_string ?v] => destruct (to_string v) eqn:?
          | |- context [truthy ?v] => destruct (truthy v) eqn:?
          | |- context [trim ?s] => destruct (trim s) eqn:?
          end; cbn [negb orb fst snd] in *).

(** Identify a logged call; [inj] is the injectivity of [FetchCall]. *)
Ltac same_fetch inj :=
  repeat match goal with
  | H : In _ (_ ++ _) |- _ => apply in_app_or in H; destruct H as [H|H]
  | H : In _ (_ :: _) |- _ => destruct H as [H|H]
  | H : In _ [] |- _ => destruct H
  | H : TokenCall = FetchCall _ |- _ => discriminate H
  | H : FetchCall _ = TokenCall |- _ => discriminate H
  | H : FetchCall _ = FetchCall _ |- _ => apply inj in H; subst
  end.

(* ===================================================================== *)
(** * Part I, continued. The rest of server.js and of chat.js             *)
(* ===================================================================== *)

(** ** server.js: configuration and start-up *)

Module Config.

(** [process.env]: a variable is a string, or it is not set. *)
Definition environment : Type := jsstring -> option jsstring.

(** [readEnv(...keys)]: the trimmed value of the first key whose value has
    something left after trimming; undefined ([None]) when there is none. *)
Fixpoint readEnv (env : environment) (keys : list string) : option jsstring :=
  match keys with
  | [] => None
  | k :: rest =>
      match env (str k) with
      | Some v =>
          match trim v with
          | [] => readEnv env rest
          | t => Some t
          end
      | None => readEnv env rest
      end
  end.

(** [!v] and [Boolean(v)] on a string or undefined. *)
Definition unset (v : option jsstring) : bool :=
  match v with
  | Some (_ :: _) => false
  | _ => true
  end.

Definition nonempty (s : jsstring) : bool :=
  match s with
  | [] => false
  | _ => true
  end.

(** The constants read at the top of server.js. *)
Record settings : Type := {
  TENANT_ID : option jsstring;
  CLIENT_ID : option jsstring;
  CLIENT_SECRET : option jsstring;
  AGENT_SCOPE : jsstring;
  PROJECT_ENDPOINT : option jsstring;
  ASSISTANT_ID : option jsstring;
  ALLOW_ORIGIN : option jsstring
}.

Definition DEFAULT_SCOPE : jsstring := str "https://ai.azure.com/.default".

Definition read_settings (env : environment) : settings :=
  {| TENANT_ID := readEnv env ["AZURE_TENANT_ID"; "TENANT_ID"]%string;
     CLIENT_ID := readEnv env ["AZURE_CLIENT_ID"; "CLIENT_ID"]%string;
     CLIENT_SECRET := readEnv env ["AZURE_CLIENT_SECRET"; "CLIENT_SECRET"]%string;
     AGENT_SCOPE :=
       match readEnv env ["AGENT_SCOPE"; "AZURE_AGENT_SCOPE"]%string with
       | Some (c :: s) => c :: s
       | _ => DEFAULT_SCOPE
       end;
     PROJECT_ENDPOINT := readEnv env ["PROJECT_ENDPOINT"]%string;
     ASSISTANT_ID := readEnv env ["ASSISTANT_ID"]%string;
     ALLOW_ORIGIN := readEnv env ["ALLOW_ORIGIN"]%string |}.

(** The list [missing]. *)
Definition missing (s : settings) : list string :=
  (if unset (TENANT_ID s) then ["TENANT_ID"%string] else [])
  ++ (if unset (CLIENT_ID s) then ["CLIENT_ID"%string] else [])
  ++ (if unset (CLIENT_SECRET s) then ["CLIENT_SECRET"%string] else [])
  ++ (if unset (PROJECT_ENDPOINT s) then ["PROJECT_ENDPOINT"%string] else [])
  ++ (if unset (ASSISTANT_ID s) then ["ASSISTANT_ID"%string] else []).

(** How the module ends its set-up: [process.exit(1)] after the names of the
    missing settings are printed, or the server listening. *)
Inductive start : Type :=
| Exit (code : Z) (names : list string)
| Listening (s : settings).

Definition startup (env : environment) : start :=
  let s := read_settings env in
  match missing s with
  | [] => Listening s
  | names => Exit 1 names
  end.

(** [isProd]: [process.env.NODE_ENV === "production"]. *)
Definition isProd (env : environment) : bool :=
  match env (str "NODE_ENV") with
  | Some v => jsstring_eqb v (str "production")
  | None => false
  end.

(** [s.split(sep)] for a separator of one code unit. *)
Fixpoint split (sep : char) (s : jsstring) : list jsstring :=
  match s with
  | [] => [[]]
  | c :: rest =>
      if char_eqb c sep then [] :: split sep rest
      else match split sep rest with
           | piece :: pieces => (c :: piece) :: pieces
           | [] => [[c]]
           end
  end.

Definition COMMA : char := 44%N.

(** An entry of the [origin] option handed to [cors]: a literal origin, or
    the expression [/^http:\/\/localhost:\d+$/]. *)
Inductive origin_rule : Type :=
| Origin (o : jsstring)
| LocalhostAnyPort.

(** The [origin] option:
    [ALLOW_ORIGIN ? ALLOW_ORIGIN.split(",").map(s => s.trim()).filter(Boolean)
                  : [/^http:\/\/localhost:\d+$/]]. *)
Definition cors_origin (s : settings) : list origin_rule :=
  match ALLOW_ORIGIN s with
  | Some (c :: a) => map Origin (filter nonempty (map trim (split COMMA (c :: a))))
  | _ => [LocalhostAnyPort]
  end.

(** The handler of GET /api/env-check; [exists_] is what
    [fs.existsSync(ENV_PATH)] tells. *)
Definition env_check (s : settings) (ENV_PATH : jsstring) (exists_ : bool) : value :=
  obj [("envPath", VString ENV_PATH);
       ("exists", VBool exists_);
       ("has",
        obj [("TENANT_ID", VBool (negb (unset (TENANT_ID s))));
             ("CLIENT_ID", VBool (negb (unset (CLIENT_ID s))));
             ("CLIENT_SECRET", VBool (negb (unset (CLIENT_SECRET s))));
             ("PROJECT_ENDPOINT", VBool (negb (unset (PROJECT_ENDPOINT s))));
             ("ASSISTANT_ID", VBool (negb (unset (ASSISTANT_ID s))));
             ("AGENT_SCOPE", VBool (nonempty (AGENT_SCOPE s)))])]%string.

(** GET /api/env-check as the server answers it.  The route is registered
    under [if (!isProd)]: [None] stands for a server that has no such route. *)
Definition get_env_check (env : environment) (s : settings) (ENV_PATH : jsstring)
  (exists_ : bool) : option value :=
  if isProd env then None else Some (env_check s ENV_PATH exists_).

(** An environment for the examples: the five plain keys set, one of them
    with spaces around its value. *)
Definition sample_env : environment := fun k =>
  if jsstring_eqb k (str "TENANT_ID") then Some (str "  tenant-1 ")
  else if jsstring_eqb k (str "CLIENT_ID") then Some (str "client-1")
  else if jsstring_eqb k (str "CLIENT_SECRET") then Some (str "secret")
  else if jsstring_eqb k (str "PROJECT_ENDPOINT") then Some (str "https://agent.example/p")
  else if jsstring_eqb k (str "ASSISTANT_ID") then Some (str "asst_1")
  else None.

(** [sample_env] with NODE_ENV set to production. *)
Definition production_env : environment := fun k =>
  if jsstring_eqb k (str "NODE_ENV") then Some (str "production")
  else sample_env k.

(** A key gives [readEnv] nothing: it is not set, or blank. *)
Definition unusable (env : environment) (k : string) : Prop :=
  match env (str k) with
  | Some raw => trim raw = []
  | None => True
  end.

(** A text [readEnv] can answer: trimmed and not empty. *)
Definition usable (v : option jsstring) : Prop :=
  exists t, v = Some t /\ t <> [] /\ trim t = t.

(** The names of the required settings with the keys each is read from. *)
Definition required : list (string * list string) :=
  [("TENANT_ID", ["AZURE_TENANT_ID"; "TENANT_ID"]);
   ("CLIENT_ID", ["AZURE_CLIENT_ID"; "CLIENT_ID"]);
   ("CLIENT_SECRET", ["AZURE_CLIENT_SECRET"; "CLIENT_SECRET"]);
   ("PROJECT_ENDPOINT", ["PROJECT_ENDPOINT"]);
   ("ASSISTANT_ID", ["ASSISTANT_ID"])]%string.


End Config.

(** ** server.js: the token cache

    The clock is read twice by a call that refreshes the token: when the call
    starts and when the new entry is built.  What is written to the console is
    not modelled. *)

Module TokenCache.

(** A number of this model: an integer, as in [value], or NaN. *)
Inductive number : Type :=
| Num (n : Z)
| NaN.

(** [Math.max] and [Math.min]: NaN as soon as an argument is NaN. *)
Definition Math_max (a b : number) : number :=
  match a, b with
  | Num x, Num y => Num (Z.max x y)
  | _, _ => NaN
  end.

Definition Math_min (a b : number) : number :=
  match a, b with
  | Num x, Num y => Num (Z.min x y)
  | _, _ => NaN
  end.

Definition plus (a b : number) : number :=
  match a, b with
  | Num x, Num y => Num (x + y)
  | _, _ => NaN
  end.

(** [a > b]: false as soon as an operand is NaN. *)
Definition greater (a b : number) : bool :=
  match a, b with
  | Num x, Num y => (y <? x)%Z
  | _, _ => false
  end.

(** The object kept in [cachedToken]. *)
Record entry : Type := {
  access_token : value;
  expiresAt : number
}.

(** What the server is configured with when it listens. *)
Record credentials : Type := {
  TENANT_ID : jsstring;
  CLIENT_ID : jsstring;
  CLIENT_SECRET : jsstring;
  AGENT_SCOPE : jsstring
}.

(** The POST to the token endpoint: its address and the fields of its form. *)
Record request : Type := {
  url : jsstring;
  form : list (string * jsstring)
}.

(** The reply of the token endpoint; reading its body may fail. *)
Record reply : Type := {
  status : Z;
  statusText : jsstring;
  text : result jsstring
}.

Definition ok (r : reply) : bool := (200 <=? status r)%Z && (status r <=? 299)%Z.

(** What a call leaves behind: its answer, the new [cachedToken] and the
    requests it made. *)
Record outcome : Type := {
  answer : result value;
  cache : option entry;
  requests : list request
}.

Section Builtins.

(** [JSON.parse], the conversion of a text to a number and
    [encodeURIComponent] are parameters. *)
Variable JSON_parse : jsstring -> result value.
Variable StringToNumber : jsstring -> number.
Variable encodeURIComponent : jsstring -> result jsstring.

(** [Number(v)]: an array or an object is converted through its text. *)
Definition Number (v : value) : result number :=
  match v with
  | VUndefined => Ok NaN
  | VNull => Ok (Num 0)
  | VBool b => Ok (Num (if b then 1 else 0))
  | VNumber n => Ok (Num n)
  | VString s => Ok (StringToNumber s)
  | VArray _ | VObject _ => rbind (to_string v) (fun s => Ok (StringToNumber s))
  end.

(** [cachedToken && cachedToken.expiresAt - 60 > now]. *)
Definition still_fresh (cachedToken : option entry) (now : Z) : bool :=
  match cachedToken with
  | Some e => greater (plus (expiresAt e) (Num (-60))) (Num now)
  | None => false
  end.

Definition token_request (c : credentials) (tenant : jsstring) : request :=
  {| url := str "https://login.microsoftonline.com/" ++ tenant ++ str "/oauth2/v2.0/token";
     form := [("grant_type", str "client_credentials");
              ("client_id", CLIENT_ID c);
              ("client_secret", CLIENT_SECRET c);
              ("scope", AGENT_SCOPE c)]%string |}.

(** What is done with the body of a reply that is ok, from [JSON.parse] on:
    the token and the entry to keep.  [later] is the clock, in seconds, when
    the entry is built. *)
Definition read_token (later : Z) (body : jsstring) : result entry :=
  rbind (JSON_parse body) (fun data =>
  rbind (get data "access_token") (fun token =>
  if negb (truthy token)
  then Throw (Exn (str "Token response missing access_token"))
  else
    rbind (Number (or_else (prop data "expires_in") (VNumber 3600))) (fun expiresIn =>
    Ok {| access_token := token;
          expiresAt := plus (Num later)
                         (Math_min (Math_max expiresIn (Num 60)) (Num 86400)) |}))).

(** The part of [getAccessToken] after the test of the cache: the request,
    the checks on the reply and the new entry.  A failure leaves through an
    exception before [cachedToken] is assigned. *)
Definition refresh (c : credentials) (cachedToken : option entry)
  (net : request -> result reply) (later : Z) : outcome :=
  match encodeURIComponent (TENANT_ID c) with
  | Throw x => {| answer := Throw x; cache := cachedToken; requests := [] |}
  | Ok tenant =>
      let rq := token_request c tenant in
      let failed x := {| answer := Throw x; cache := cachedToken; requests := [rq] |} in
      match net rq with
      | Throw x => failed x
      | Ok resp =>
          match text resp with
          | Throw x => failed x
          | Ok body =>
              if negb (ok resp)
              then failed (Exn (str "Token request failed: "
                                ++ number_to_string (status resp)
                                ++ str " " ++ statusText resp))
              else
                match read_token later body with
                | Throw x => failed x
                | Ok e => {| answer := Ok (access_token e); cache := Some e;
                             requests := [rq] |}
                end
          end
      end
  end.

(** [getAccessToken()].  [now] is the clock, in seconds, when the call
    starts, [cachedToken] the variable of that name, [net] what the token
    endpoint answers, [later] the clock when the new entry is built. *)
Definition getAccessToken (c : credentials) (now : Z) (cachedToken : option entry)
  (net : request -> result reply) (later : Z) : outcome :=
  match cachedToken with
  | Some e =>
      if still_fresh cachedToken now
      then {| answer := Ok (access_token e); cache := cachedToken; requests := [] |}
      else refresh c cachedToken net later
  | None => refresh c cachedToken net later
  end.

End Builtins.

End TokenCache.

(** Credentials, a token endpoint and builtins for the examples: the endpoint
    answers 200 with a token that lasts [expires_in] seconds. *)
Definition sample_credentials : TokenCache.credentials :=
  {| TokenCache.TENANT_ID := str "tenant-1";
     TokenCache.CLIENT_ID := str "client-1";
     TokenCache.CLIENT_SECRET := str "secret";
     TokenCache.AGENT_SCOPE := str "https://ai.azure.com/.default" |}.

Definition token_data (expires_in : Z) : value :=
  obj [("access_token", vstr "tok"); ("expires_in", VNumber expires_in)]%string.

Definition sample_parse (expires_in : Z) : jsstring -> result value :=
  fun _ => Ok (token_data expires_in).

Definition sample_token_endpoint : TokenCache.request -> result TokenCache.reply :=
  fun _ => Ok {| TokenCache.status := 200; TokenCache.statusText := str "OK";
                 TokenCache.text := Ok (str "{}") |}.

Definition no_number : jsstring -> TokenCache.number := fun _ => TokenCache.NaN.

Definition plain_encode : jsstring -> result jsstring := fun s => Ok s.

(** ** chat.js: the proxy wrappers *)

Module Net.

(** The constants at the top of chat.js. *)
Definition PROJECT_ENDPOINT : jsstring :=
  str "https://aiandautoaifoundry.services.ai.azure.com/api/projects/HalGenAI".
Definition ASSISTANT_ID : jsstring := str "asst_mTjocL4RbpsVMQ73zHHph9W3".

(** What [fetch] resolves to, as [fetchJSON] reads it; reading the body may
    fail. *)
Record reply : Type := {
  status : Z;
  statusText : jsstring;
  text : result jsstring
}.

Definition ok (r : reply) : bool := (200 <=? status r)%Z && (status r <=? 299)%Z.

Section Builtins.

Variable JSON_parse : jsstring -> result value.

(** [try { data = text ? JSON.parse(text) : {}; } catch { data = { raw: text }; }] *)
Definition parse_body (body : jsstring) : value :=
  match body with
  | [] => VObject []
  | _ =>
      match JSON_parse body with
      | Ok data => data
      | Throw _ => obj [("raw"%string, VString body)]
      end
  end.

(** [data?.error?.message || data?.message || res.statusText]. *)
Definition error_message (data : value) (res : reply) : value :=
  or_else (prop (prop data "error") "message")
    (or_else (prop data "message") (VString (statusText res))).

(** [fetchJSON(url, opts, tag)], given what [fetch] does for the request: it
    rejects, or resolves to a reply.  [new Error(msg)] converts its message to
    a string.  The lines written to the log are not modelled. *)
Definition fetchJSON (net : result reply) : result value :=
  rbind net (fun res =>
  rbind (text res) (fun body =>
  let data := parse_body body in
  if negb (ok res)
  then rbind (to_string (error_message data res)) (fun msg => Throw (Exn msg))
  else Ok data)).

End Builtins.

(** The bodies the wrappers post, as handed to [JSON.stringify].  The proxy
    parses the text it receives: its handler sees the same value. *)

(** [createThreadAndRun(firstText)]. *)
Definition createThreadAndRun (firstText : jsstring) : value :=
  obj [("projectEndpoint", VString PROJECT_ENDPOINT);
       ("payload",
        obj [("assistant_id", VString ASSISTANT_ID);
             ("thread",
              obj [("messages",
                    VArray [obj [("role", vstr "user");
                                 ("content", VString firstText)]])])])]%string.

(** [appendMessage(text)], [threadId] being the variable of that name. *)
Definition appendMessage (threadId : value) (text : jsstring) : value :=
  obj [("projectEndpoint", VString PROJECT_ENDPOINT);
       ("threadId", threadId);
       ("role", vstr "user");
       ("content", VString text)]%string.

(** [startRun()]. *)
Definition startRun (threadId : value) : value :=
  obj [("projectEndpoint", VString PROJECT_ENDPOINT);
       ("threadId", threadId);
       ("assistantId", VString ASSISTANT_ID)]%string.

End Net.

(** An upstream message with a citation in its text, in the array shape. *)
Definition message_with_text : value :=
  obj [("role", vstr "assistant");
       ("created_at", VNumber 2);
       ("content",
        VArray [obj [("type", vstr "text");
                     ("text",
                      obj [("value",
                            VString (str "Hello " ++ [LEFT_BRACKET]
                                     ++ str "4:0" ++ [RIGHT_BRACKET]
                                     ++ str " world")%list)])]])]%string.

(** The messages of the error bodies the proxy writes. *)
Definition proxy_messages : list string :=
  ["Missing text"; "Missing fields"; "Missing threadId"; "Missing ids";
   "Upstream error"; "Server error"]%string.

(** ** chat.js: escaping of HTML *)

Module Html.

Definition AMP : char := 38%N.
Definition LT : char := 60%N.
Definition GT : char := 62%N.
Definition QUOT : char := 34%N.
Definition APOS : char := 39%N.

(** The class of the expression: ampersand, less-than sign, greater-than
    sign, double quote and apostrophe. *)
Definition is_special (c : char) : bool :=
  char_eqb c AMP || char_eqb c LT || char_eqb c GT || char_eqb c QUOT || char_eqb c APOS.

(** The callback of the replacement: the entry of the table for a code unit
    of the class. *)
Definition entity (c : char) : jsstring :=
  if char_eqb c AMP then str "&amp;"
  else if char_eqb c LT then str "&lt;"
  else if char_eqb c GT then str "&gt;"
  else if char_eqb c QUOT then str "&quot;"
  else str "&#39;".

(** [s.replace(/[class]/g, f)] for a class of single code units [p]: each
    unit of the class gives way to what the callback makes of it. *)
Fixpoint replace_class (p : char -> bool) (f : char -> jsstring) (s : jsstring) : jsstring :=
  match s with
  | [] => []
  | c :: rest => (if p c then f c else [c]) ++ replace_class p f rest
  end.

Definition escape (s : jsstring) : jsstring := replace_class is_special entity s.

(** [escapeHtml(s)]: [String(s)], then the replacement. *)
Definition escapeHtml (s : value) : result jsstring :=
  rbind (to_string s) (fun t => Ok (escape t)).

(** The five entities. *)
Definition entities : list jsstring :=
  [str "&amp;"; str "&lt;"; str "&gt;"; str "&quot;"; str "&#39;"].

(** Every ampersand of [s] starts one of the five entities. *)
Fixpoint ampersands_escaped (s : jsstring) : Prop :=
  match s with
  | [] => True
  | c :: rest =>
      (c = AMP -> exists e, In e entities /\ starts_with e s = true)
      /\ ampersands_escaped rest
  end.

(** No code unit of [s] opens or closes a tag or an attribute value. *)
Definition markup_free (s : jsstring) : Prop :=
  Forall (fun c => c <> LT /\ c <> GT /\ c <> QUOT /\ c <> APOS) s.

End Html.

(** ** chat.js: the theme and the accessible mode

    The storage takes every item ([setItem] does not throw), and the document
    has each of the two toggle buttons from its load on, or never. *)

Module Prefs.

Definition THEME_KEY : jsstring := str "halfordsTheme".
Definition A11Y_KEY : jsstring := str "halfordsA11y".

(** [localStorage]: the items in the order of their first setting. *)
Definition storage : Type := list (jsstring * jsstring).

(** [localStorage.getItem(k)]: null ([None]) for a key that is not there. *)
Fixpoint getItem (k : jsstring) (l : storage) : option jsstring :=
  match l with
  | [] => None
  | (k', v) :: rest => if jsstring_eqb k k' then Some v else getItem k rest
  end.

(** [localStorage.setItem(k, v)]. *)
Fixpoint setItem (k v : jsstring) (l : storage) : storage :=
  match l with
  | [] => [(k, v)]
  | (k', v') :: rest =>
      if jsstring_eqb k k' then (k, v) :: rest else (k', v') :: setItem k v rest
  end.

(** What the functions write on a toggle button. *)
Record button : Type := {
  textContent : jsstring;
  title : jsstring;
  aria_pressed : jsstring
}.

(** The page as these functions see it: whether the root element carries the
    classes dark and a11y, the storage, the two toggle buttons when the
    document has them, and whether a listener for changes of the colour scheme
    of the system is registered. *)
Record page : Type := {
  dark : bool;
  a11y : bool;
  localStorage : storage;
  themeToggle : option button;
  a11yToggle : option button;
  os_listener : bool
}.

Definition SUN : jsstring := [0x2600; 0xFE0F]%N.
Definition MOON : jsstring := [0xD83C; 0xDF19]%N.
Definition CHECK : char := 0x2713%N.

Definition theme_button (isDark : bool) : button :=
  {| textContent := if isDark then SUN else MOON;
     title := if isDark then str "Switch to light mode" else str "Switch to dark mode";
     aria_pressed := if isDark then str "true" else str "false" |}.

(** [applyTheme(theme)]. *)
Definition applyTheme (theme : jsstring) (p : page) : page :=
  let isDark := jsstring_eqb theme (str "dark") in
  {| dark := isDark;
     a11y := a11y p;
     localStorage := setItem THEME_KEY theme (localStorage p);
     themeToggle := match themeToggle p with
                    | Some _ => Some (theme_button isDark)
                    | None => None
                    end;
     a11yToggle := a11yToggle p;
     os_listener := os_listener p |}.

Definition a11y_button (enabled : bool) : button :=
  {| textContent := if enabled then str "A11y" ++ [CHECK] else str "A11y";
     title := if enabled then str "Switch off accessible mode"
              else str "Switch on accessible mode";
     aria_pressed := if enabled then str "true" else str "false" |}.

(** [applyA11y(enabled)], for a boolean. *)
Definition applyA11y (enabled : bool) (p : page) : page :=
  {| dark := dark p;
     a11y := enabled;
     localStorage := setItem A11Y_KEY (if enabled then str "1" else str "0") (localStorage p);
     themeToggle := themeToggle p;
     a11yToggle := match a11yToggle p with
                   | Some _ => Some (a11y_button enabled)
                   | None => None
                   end;
     os_listener := os_listener p |}.

(** [s === lit] for what [getItem] answers. *)
Definition item_is (v : option jsstring) (lit : string) : bool :=
  match v with
  | Some s => jsstring_eqb s (str lit)
  | None => false
  end.

(** [initA11y()]. *)
Definition initA11y (p : page) : page :=
  applyA11y (item_is (getItem A11Y_KEY (localStorage p)) "1") p.

(** [initTheme()].  [matchMedia] is what the query
    (prefers-color-scheme: dark) tells, [None] where [window.matchMedia] is
    missing; [can_listen] tells whether the query list has [addEventListener].
    The second half registers the listener when no theme is stored; a call of
    [matchMedia] that is missing throws into the empty [catch]. *)
Definition initTheme (matchMedia : option bool) (can_listen : bool) (p : page) : page :=
  let saved := getItem THEME_KEY (localStorage p) in
  let p1 :=
    if item_is saved "light" || item_is saved "dark"
    then applyTheme (match saved with Some s => s | None => [] end) p
    else
      let prefersDark := match matchMedia with Some m => m | None => false end in
      applyTheme (if prefersDark then str "dark" else str "light") p in
  match getItem THEME_KEY (localStorage p1) with
  | Some (_ :: _) => p1
  | _ =>
      match matchMedia with
      | Some _ =>
          if can_listen
          then {| dark := dark p1; a11y := a11y p1; localStorage := localStorage p1;
                  themeToggle := themeToggle p1; a11yToggle := a11yToggle p1;
                  os_listener := true |}
          else p1
      | None => p1
      end
  end.

(** The two handlers of DOMContentLoaded, in the order they were added. *)
Definition load (matchMedia : option bool) (can_listen : bool) (p : page) : page :=
  initTheme matchMedia can_listen (initA11y p).

(** What happens on the page afterwards: a click on a toggle button that is
    there, or the system changing its colour scheme. *)
Inductive event : Type :=
| ClickTheme
| ClickA11y
| OsChange (matches : bool).

Definition step (ev : event) (p : page) : page :=
  match ev with
  | ClickTheme =>
      match themeToggle p with
      | Some _ => applyTheme (if dark p then str "light" else str "dark") p
      | None => p
      end
  | ClickA11y =>
      match a11yToggle p with
      | Some _ => applyA11y (negb (a11y p)) p
      | None => p
      end
  | OsChange matches =>
      if os_listener p
      then applyTheme (if matches then str "dark" else str "light") p
      else p
  end.

Definition run (evs : list event) (p : page) : page := fold_left (fun q ev => step ev q) evs p.

(** The storage, the classes and the buttons tell the same. *)
Definition consistent (p : page) : Prop :=
  getItem THEME_KEY (localStorage p) = Some (if dark p then str "dark" else str "light")
  /\ getItem A11Y_KEY (localStorage p) = Some (if a11y p then str "1" else str "0")
  /\ (forall b, themeToggle p = Some b -> b = theme_button (dark p))
  /\ (forall b, a11yToggle p = Some b -> b = a11y_button (a11y p)).

(** A page before its handlers ran, with what the storage holds. *)
Definition fresh_page (st : storage) (theme_btn a11y_btn : option button) : page :=
  {| dark := false; a11y := false; localStorage := st;
     themeToggle := theme_btn; a11yToggle := a11y_btn; os_listener := false |}.

Definition blank_button : button :=
  {| textContent := []; title := []; aria_pressed := [] |}.

End Prefs.

(** ** chat.js: the quick-action chips and the forms

    Of the submit handler of a form fragment, the texts it echoes and sends
    and the validation of the loyalty sign-up are modelled; the normalisers of
    the loyalty payload (upper-casing by the Unicode tables, the printing of a
    parsed number) are not, and the payload is any value.  The fields of the
    fragments are text fields: an entry of the form data is a string. *)

Module Forms.

(** A chip as the handlers read it: [dataset.action], [dataset.prompt] (each
    undefined when the attribute is missing) and [textContent]. *)
Record chip : Type := {
  action : option jsstring;
  prompt : option jsstring;
  textContent : jsstring
}.

(** What a handler of a chip ends with: a form fragment rendered, or a message
    sent. *)
Inductive effect : Type :=
| OpenForm (name : string)
| SendMessage (text : jsstring).

(** [chip.dataset.prompt || chip.textContent.trim()]. *)
Definition chip_prompt (c : chip) : jsstring :=
  match prompt c with
  | Some (x :: p) => x :: p
  | _ => trim (textContent c)
  end.

(** [action === lit]. *)
Definition action_is (c : chip) (lit : string) : bool :=
  match action c with
  | Some a => jsstring_eqb a (str lit)
  | None => false
  end.

(** The listener of click on the message pane; [target] is
    [e.target.closest(".chip")]. *)
Definition on_click (target : option chip) : option effect :=
  match target with
  | None => None
  | Some c =>
      Some (if action_is c "wimo" then OpenForm "track-order"
            else if action_is c "c2w" then OpenForm "c2w-status"
            else if action_is c "loyalty" then OpenForm "loyalty-signup"
            else SendMessage (chip_prompt c))
  end.

(** The listener of keydown on the message pane. *)
Definition on_keydown (key : jsstring) (target : option chip) : option effect :=
  match target with
  | None => None
  | Some c =>
      if jsstring_eqb key (str "Enter") || jsstring_eqb key (str " ")
      then Some (if action_is c "wimo" then OpenForm "track-order"
                 else if action_is c "c2w" then OpenForm "c2w-status"
                 else if action_is c "loyaltly" then OpenForm "loyalty-signup"
                 else SendMessage (chip_prompt c))
      else None
  end.

(** An entry of [SUGGESTIONS] and the chip the new-chat button writes for it:
    [data-action] when the entry has an action, [data-prompt] otherwise. *)
Record suggestion : Type := {
  label : string;
  s_prompt : string;
  s_action : option string
}.

Definition SUGGESTIONS : list suggestion :=
  [ {| label := "Track my order"; s_prompt := "Where is my order?";
       s_action := Some "wimo" |};
    {| label := "Find a store"; s_prompt := "Find my nearest Halfords store.";
       s_action := None |};
    {| label := "Help me choose"; s_prompt := "Help me choose a bike.";
       s_action := None |};
    {| label := "Cycle2Work status"; s_prompt := "Check my Cycle to Work status.";
       s_action := Some "c2w" |};
    {| label := "Book a bike service"; s_prompt := "I want to book a bike service.";
       s_action := None |};
    {| label := "What Motoring Club Benefits do I have left?";
       s_prompt := "What Motoring Club Benefits do I have left";
       s_action := None |};
    {| label := "Join the Motoring Club"; s_prompt := "Join loyalty";
       s_action := Some "loyalty" |} ]%string.

Definition chip_of (s : suggestion) : chip :=
  match s_action s with
  | Some a => {| action := Some (str a); prompt := None; textContent := str (label s) |}
  | None => {| action := None; prompt := Some (str (s_prompt s));
               textContent := str (label s) |}
  end.

(** The texts the submit handler of a form fragment echoes and sends, for the
    values of the fields it reads. *)
Definition track_order_echo (orderNumber Email : jsstring) : jsstring :=
  str "Where is my order?" ++ [LF; LF] ++ str "**orderNumber:** " ++ orderNumber
  ++ [LF] ++ str "**Email:** " ++ Email.

Definition track_order_message (orderNumber Email : jsstring) : jsstring :=
  str "Where is my order? orderNumber: " ++ orderNumber ++ str ", Email: " ++ Email.

Definition c2w_echo (AgreementNumber : jsstring) : jsstring :=
  str "Check my Cycle to Work status." ++ [LF; LF] ++ str "**AgreementNumber:** "
  ++ AgreementNumber.

Definition c2w_message (AgreementNumber : jsstring) : jsstring :=
  str "Check my Cycle to Work status. AgreementNumber: " ++ AgreementNumber.

(** [`LOYALTY_SIGNUP payload: ${JSON.stringify(payload)}`]. *)
Definition loyalty_message (payload : value) : jsstring :=
  str "LOYALTY_SIGNUP payload: "
  ++ match JSON_stringify payload with
     | Some s => s
     | None => str "undefined"
     end.

(** The submit of track-order and of c2w-status on the pane: the echo of the
    handler, then [sendMessage]. *)
Definition submit_track_order (orderNumber Email : jsstring) (c : client) : option client :=
  begin_turn (track_order_message orderNumber Email)
    (addMsg (UserBubble (track_order_echo orderNumber Email)) c).

Definition submit_c2w (AgreementNumber : jsstring) (c : client) : option client :=
  begin_turn (c2w_message AgreementNumber) (addMsg (UserBubble (c2w_echo AgreementNumber)) c).

(** The class [[^\s@]]. *)
Definition is_email_unit (c : char) : bool :=
  negb (is_white_space c) && negb (char_eqb c 64%N).

(** [[^\s@]+\.[^\s@]+$]: the first run takes a unit and goes on, or gives
    way to a dot that units of the class follow up to the end. *)
Fixpoint domain_ok (d : jsstring) : bool :=
  match d with
  | [] => false
  | c :: rest =>
      is_email_unit c
      && (match rest with
          | dot :: (x :: tld) => char_eqb dot 46%N && forallb is_email_unit (x :: tld)
          | _ => false
          end
          || domain_ok rest)
  end.

(** [/^[^\s@]+@[^\s@]+\.[^\s@]+$/.test(s)]: the first run is greedy, and a
    shorter one is never followed by the at sign. *)
Definition re_email_test (s : jsstring) : bool :=
  let n := run_length is_email_unit s in
  Nat.leb 1 n
  && match skipn n s with
     | at_sign :: d => char_eqb at_sign 64%N && domain_ok d
     | [] => false
     end.

(** The fields of a form as the handler reads them from [entries]: a text, or
    undefined for a field the form does not have. *)
Definition entries : Type := string -> option jsstring.

(** [(entries.k || "").trim()]. *)
Definition field (e : entries) (k : string) : jsstring :=
  trim (match e k with Some s => s | None => [] end).

(** The validation of loyalty-signup: the list [errors]. *)
Definition loyalty_errors (e : entries) : list string :=
  let firstName := field e "firstName" in
  let emailRaw := field e "emailAddress" in
  let emailOk := match emailRaw with [] => true | _ => re_email_test emailRaw end in
  (match firstName with [] => ["First name is required."%string] | _ => [] end)
  ++ (match emailRaw with
      | [] => ["Email is required."%string]
      | _ => if negb emailOk then ["Please enter a valid email address."%string] else []
      end).

(** The shape the expression of the e-mail address describes: a local part,
    an at sign, a domain, a dot and an ending, the three of them not empty and
    free of white space and of at signs. *)
Definition email_shape (s : jsstring) : Prop :=
  exists a b c,
    s = a ++ [64%N] ++ b ++ [46%N] ++ c
    /\ a <> [] /\ b <> [] /\ c <> []
    /\ forallb is_email_unit a = true /\ forallb is_email_unit b = true
    /\ forallb is_email_unit c = true.

Definition sample_entries : entries := fun k =>
  if String.eqb k "firstName" then Some (str " Ada ")
  else if String.eqb k "emailAddress" then Some (str "ada@example.org")
  else None.

End Forms.

(** ** The rating flag after a new chat *)

(** A rating is pending although no rating form stands in the pane. *)
Definition orphaned (c : client) : Prop :=
  pendingFeedback c = true /\ rating_forms c = [].

(** No turn in flight is awaited by the click handler of a star. *)
Definition ownerless (s : session) : Prop :=
  Forall (fun f => owner f = None) (flights s).

(** The events up to an open rating form. *)
Definition first_rating : list event :=
  [Send (str "hi"); Started answers_with_marker; Answered answers_with_marker].

(** ** A first message, for the examples *)

(** What upstream answers to the creation of a thread and a run. *)
Definition upstream_run : value :=
  obj [("id", vstr "run_1"); ("status", vstr "queued"); ("thread_id", vstr "thread_1")]%string.

Definition creating_world : world :=
  sample_world (Ok {| status := 200; json := Ok upstream_run |}).

Definition hi_body : value := obj [("text"%string, vstr "hi")].

(** The call of the proxy for that first message. *)
Definition hi_request : fetch_request :=
  {| url := PROJECT_ENDPOINT creating_world ++ str "/threads/runs?api-version=v1";
     method := str "POST";
     authorization := bearer (str "tok");
     body := Some (obj [("assistant_id", VString (ASSISTANT_ID creating_world));
                        ("thread",
                         obj [("messages",
                               VArray [obj [("role", vstr "user");
                                            ("content", vstr "hi")]])])]%string) |}.

(** The answers the client gets during the turn of that message. *)
Definition first_answers : answers :=
  {| created := Ok (payload (fst (serve ThreadsRuns hi_body creating_world)));
     appended := Throw (Exn (str "unused"));
     started := Throw (Exn (str "unused"));
     polled := [Ok (status_reply "completed")];
     listed := Ok reply_with_marker |}.

(** No turn in flight is about to assign [threadId]: each was started on a
    thread, or has its run started. *)
Definition keeps_thread (s : session) : Prop :=
  Forall (fun f => fresh_thread f = false \/ first_status f <> None) (flights s).

(** ** The typing indicator *)

(** No row of the pane is the typing indicator. *)
Definition no_typing (rows : list bubble) : Prop :=
  Forall (fun b => is_typing b = false) rows.
(* ===================================================================== *)
(** * Part II. Properties                                                 *)
(* ===================================================================== *)

(** ** Strings *)

Lemma char_eqb_eq (a b : char) : char_eqb a b = true <-> a = b.
Proof. apply N.eqb_eq. Qed.

Lemma char_eqb_refl (a : char) : char_eqb a a = true.
Proof. apply N.eqb_refl. Qed.

Lemma jsstring_eqb_eq (a b : jsstring) : jsstring_eqb a b = true <-> a = b.
Proof.
  revert b; induction a as [|x a IH]; intros [|y b]; simpl; split;
    try congruence; try reflexivity.
  - rewrite andb_true_iff, char_eqb_eq, IH. intros [-> ->]; reflexivity.
  - intros E; injection E as -> ->. rewrite char_eqb_refl. apply IH; reflexivity.
Qed.

(** *** Trimming *)

Lemma drop_while_split p s :
  exists t, s = t ++ drop_while p s /\ Forall (fun c => p c = true) t.
Proof.
  induction s as [|c s [t [E F]]]; simpl.
  - exists []; split; [reflexivity | constructor].
  - destruct (p c) eqn:Hc.
    + exists (c :: t); split; [simpl; congruence | constructor; assumption].
    + exists []; split; [reflexivity | constructor].
Qed.

Lemma drop_while_head p c s : p c = false -> drop_while p (c :: s) = c :: s.
Proof. intros H; simpl; rewrite H; reflexivity. Qed.

Lemma drop_while_idem p s : drop_while p (drop_while p s) = drop_while p s.
Proof.
  induction s as [|c s IH]; simpl; [reflexivity|].
  destruct (p c) eqn:Hc; [assumption | simpl; rewrite Hc; reflexivity].
Qed.

Lemma drop_while_app_keep p s c t :
  p c = false -> drop_while p (s ++ c :: t) = drop_while p s ++ c :: t
                 \/ exists u, drop_while p (s ++ c :: t) = c :: t /\ drop_while p s = [] /\ u = s.
Proof.
  intros Hc; induction s as [|d s IH]; simpl.
  - rewrite Hc. left; reflexivity.
  - destruct (p d); [|left; reflexivity].
    destruct IH as [IH | [u [E1 [E2 _]]]]; [left; assumption|].
    right; exists (d :: s); auto.
Qed.

Lemma trimStart_split s :
  exists t, s = t ++ trimStart s /\ Forall (fun c => is_white_space c = true) t.
Proof. apply drop_while_split. Qed.

Lemma trimEnd_split s :
  exists t, s = trimEnd s ++ t /\ Forall (fun c => is_white_space c = true) t.
Proof.
  unfold trimEnd. destruct (drop_while_split is_white_space (rev s)) as [t [E F]].
  exists (rev t); split.
  - rewrite <- rev_app_distr, <- E, rev_involutive; reflexivity.
  - apply Forall_rev; assumption.
Qed.

(** [trim] removes a prefix and a suffix made of white space only. *)
Lemma trim_split s :
  exists a b, s = a ++ trim s ++ b
              /\ Forall (fun c => is_white_space c = true) a
              /\ Forall (fun c => is_white_space c = true) b.
Proof.
  destruct (trimStart_split s) as [a [Ea Fa]].
  destruct (trimEnd_split (trimStart s)) as [b [Eb Fb]].
  exists a, b; repeat split; try assumption.
  unfold trim. rewrite <- Eb. assumption.
Qed.

Lemma trimEnd_idem s : trimEnd (trimEnd s) = trimEnd s.
Proof. unfold trimEnd. rewrite rev_involutive, drop_while_idem; reflexivity. Qed.

Lemma trimEnd_cons_keep c s :
  is_white_space c = false -> exists s', trimEnd (c :: s) = c :: s'.
Proof.
  intros Hc. unfold trimEnd. simpl rev.
  destruct (drop_while_app_keep is_white_space (rev s) c [] Hc) as [E | [u [E _]]];
    rewrite E.
  - rewrite rev_app_distr. simpl. eexists; reflexivity.
  - exists []; reflexivity.
Qed.

Lemma trimEnd_nil : trimEnd [] = [].
Proof. reflexivity. Qed.

Lemma trimStart_fixed s :
  match s with [] => True | c :: _ => is_white_space c = false end ->
  trimStart s = s.
Proof. destruct s as [|c s]; [reflexivity|]. intros H; apply drop_while_head; exact H. Qed.

Lemma trimStart_head s :
  match trimStart s with [] => True | c :: _ => is_white_space c = false end.
Proof.
  unfold trimStart; induction s as [|c s IH]; simpl; [exact I|].
  destruct (is_white_space c) eqn:Hc; [assumption | exact Hc].
Qed.

Lemma trim_head s :
  match trim s with [] => True | c :: _ => is_white_space c = false end.
Proof.
  unfold trim. pose proof (trimStart_head s) as H.
  destruct (trimStart s) as [|c t]; [exact I|].
  destruct (trimEnd_cons_keep c t H) as [s' ->]. exact H.
Qed.

Lemma trim_idem s : trim (trim s) = trim s.
Proof.
  unfold trim at 1. rewrite (trimStart_fixed (trim s) (trim_head s)).
  unfold trim. apply trimEnd_idem.
Qed.

(** A text with no white space at either end is left alone by [trim]. *)
Lemma trimEnd_fixed s :
  match rev s with [] => True | c :: _ => is_white_space c = false end ->
  trimEnd s = s.
Proof.
  intros H. unfold trimEnd. destruct (rev s) as [|c t] eqn:E.
  - simpl. apply (f_equal (@rev char)) in E. rewrite rev_involutive in E. simpl in E; congruence.
  - rewrite drop_while_head by exact H. rewrite <- E. apply rev_involutive.
Qed.

(** *** The scan of a global replacement *)

Lemma scan_quiet m rep s : forall prev,
  quiet m prev s -> scan m rep O prev s = (s, false).
Proof.
  induction s as [|c s IH]; intros prev H; [reflexivity|].
  destruct H as [H1 H2]. cbn [scan].
  destruct (m prev (c :: s)) as [[|k]|] eqn:E.
  - rewrite (IH _ H2); reflexivity.
  - exfalso; exact (H1 k eq_refl).
  - rewrite (IH _ H2); reflexivity.
Qed.

Lemma scan_found_quiet m rep s : forall prev,
  snd (scan m rep O prev s) = false -> quiet m prev s.
Proof.
  induction s as [|c s IH]; intros prev H; [exact I|].
  cbn [scan] in H. destruct (m prev (c :: s)) as [[|k]|] eqn:E; simpl in H.
  - split; [intros k; congruence | apply IH; exact H].
  - discriminate.
  - split; [intros k; congruence | apply IH; exact H].
Qed.

Lemma replace_all_quiet m rep s : quiet m None s -> replace_all m rep s = s.
Proof. intros H; unfold replace_all; rewrite scan_quiet by exact H; reflexivity. Qed.

Lemma matches_somewhere_false m s : matches_somewhere m s = false <-> quiet m None s.
Proof.
  unfold matches_somewhere; split.
  - apply scan_found_quiet.
  - intros H; rewrite scan_quiet by exact H; reflexivity.
Qed.

(** With an empty replacement the output only keeps code units of the input. *)
Lemma scan_erase_In m s : forall skip prev x,
  In x (fst (scan m [] skip prev s)) -> In x s.
Proof.
  induction s as [|c s IH]; intros skip prev x H; [exact H|].
  cbn [scan] in H. destruct skip as [|k].
  - destruct (m prev (c :: s)) as [[|k]|]; simpl in H.
    + destruct H as [H|H]; [left; exact H | right; eapply IH; exact H].
    + right; eapply IH; exact H.
    + destruct H as [H|H]; [left; exact H | right; eapply IH; exact H].
  - right; eapply IH; exact H.
Qed.

Lemma index_of_None p s : index_of p s = None <-> Forall (fun c => p c = false) s.
Proof.
  induction s as [|c s IH]; simpl.
  - split; [constructor | reflexivity].
  - destruct (p c) eqn:Hc.
    + split; [discriminate | intros H; inversion H; congruence].
    + destruct (index_of p s); simpl.
      * split; [discriminate|]. intros H; inversion H; subst.
        apply IH in H3; discriminate.
      * split; [|reflexivity]. intros _; constructor; [exact Hc | apply IH; reflexivity].
Qed.

(** *** Citations *)

Lemma cite_free_quiet s : forall prev, cite_free s -> quiet re_citation prev s.
Proof.
  induction s as [|c s IH]; intros prev H; [exact I|].
  destruct H as [H1 H2]; split; [|apply IH; exact H2].
  intros k. unfold re_citation. destruct (char_eqb c LEFT_BRACKET) eqn:E; [|discriminate].
  apply char_eqb_eq in E. rewrite (H1 E). discriminate.
Qed.

Lemma decite_cite_free s : forall skip prev,
  cite_free (fst (scan re_citation [] skip prev s)).
Proof.
  induction s as [|c s IH]; intros skip prev; [exact I|].
  cbn [scan]. destruct skip as [|k]; [|apply IH].
  destruct (re_citation prev (c :: s)) as [[|k]|] eqn:E; cbn [fst app].
  - unfold re_citation in E. destruct (char_eqb c LEFT_BRACKET); [|discriminate].
    destruct (index_of (char_eqb RIGHT_BRACKET) s); discriminate.
  - apply IH.
  - split; [|apply IH]. intros ->. unfold re_citation in E.
    rewrite char_eqb_refl in E.
    destruct (index_of (char_eqb RIGHT_BRACKET) s) eqn:Ei; [discriminate|].
    apply index_of_None. apply index_of_None in Ei.
    rewrite Forall_forall in *. intros x Hx. apply Ei.
    eapply scan_erase_In; exact Hx.
Qed.

Lemma index_of_brackets s :
  index_of (char_eqb RIGHT_BRACKET) (brackets s) = None
  <-> index_of (char_eqb RIGHT_BRACKET) s = None.
Proof.
  rewrite !index_of_None. unfold brackets. rewrite !Forall_forall. split; intros H x Hx.
  - destruct (char_eqb RIGHT_BRACKET x) eqn:E; [|reflexivity].
    rewrite <- E. apply H. apply filter_In; split; [exact Hx|].
    apply char_eqb_eq in E; subst x. reflexivity.
  - apply H. apply filter_In in Hx. tauto.
Qed.

(** Whether a text is free of citations depends on its brackets only. *)
Lemma cite_free_brackets s : cite_free (brackets s) <-> cite_free s.
Proof.
  induction s as [|c s IH]; [reflexivity|].
  unfold brackets in *. cbn [filter]. destruct (is_bracket c) eqn:Hb; cbn [cite_free].
  - fold (brackets s). rewrite index_of_brackets, IH. reflexivity.
  - rewrite IH. split; [|tauto]. intros H; split; [|exact H].
    intros ->. discriminate.
Qed.

Lemma brackets_app a b : brackets (a ++ b) = brackets a ++ brackets b.
Proof. apply filter_app. Qed.

Lemma brackets_white a :
  Forall (fun c => is_white_space c = true) a -> brackets a = [].
Proof.
  induction 1 as [|c a Hc _ IH]; [reflexivity|].
  unfold brackets in *; cbn [filter]. rewrite IH.
  destruct (is_bracket c) eqn:Hb; [|reflexivity].
  unfold is_bracket in Hb. apply orb_true_iff in Hb.
  destruct Hb as [E|E]; apply char_eqb_eq in E; subst c; discriminate.
Qed.

Lemma brackets_trim s : brackets (trim s) = brackets s.
Proof.
  destruct (trim_split s) as [a [b [E [Fa Fb]]]].
  rewrite E at 2. rewrite !brackets_app, (brackets_white a Fa), (brackets_white b Fb).
  rewrite app_nil_r; reflexivity.
Qed.

(** *** Runs of spaces and tabs *)

Lemma re_run_prev p n prev prev' s : re_run p n prev s = re_run p n prev' s.
Proof. reflexivity. Qed.

Lemma quiet_re_run_prev p n s : forall prev prev',
  quiet (re_run p n) prev s -> quiet (re_run p n) prev' s.
Proof.
  destruct s as [|c s]; intros prev prev' H; [exact I|].
  destruct H as [H1 H2]; split; assumption.
Qed.

Lemma re_blank_run_Some prev s k :
  re_blank_run prev s = Some k -> k = run_length is_blank s /\ 2 <= k.
Proof.
  unfold re_blank_run, re_run. destruct (Nat.leb 2 (run_length is_blank s)) eqn:E; [|discriminate].
  intros H; injection H as <-. apply Nat.leb_le in E. split; [reflexivity | exact E].
Qed.

Lemma re_blank_run_None prev s :
  (forall k, re_blank_run prev s <> Some (S k)) <-> run_length is_blank s < 2.
Proof.
  unfold re_blank_run, re_run. destruct (Nat.leb 2 (run_length is_blank s)) eqn:E.
  - apply Nat.leb_le in E. split; [|lia].
    intros H. destruct (run_length is_blank s) as [|k]; [lia|]. exfalso; exact (H k eq_refl).
  - apply Nat.leb_gt in E. split; [intros _; exact E | intros _ k; discriminate].
Qed.

Lemma collapse_quiet s : forall skip prev prev',
  quiet re_blank_run prev' (fst (scan re_blank_run [SPACE] skip prev s))
  /\ (skip = run_length is_blank s ->
      run_length is_blank (fst (scan re_blank_run [SPACE] skip prev s)) = 0).
Proof.
  induction s as [|c s IH]; intros skip prev prev'; [split; [exact I | reflexivity]|].
  cbn [scan]. destruct skip as [|k].
  - destruct (re_blank_run prev (c :: s)) as [[|k]|] eqn:E.
    + apply re_blank_run_Some in E; lia.
    + apply re_blank_run_Some in E. destruct E as [E1 E2].
      cbn [run_length] in E1. destruct (is_blank c) eqn:Hc; [|lia].
      injection E1 as E1. destruct (IH k (Some c) (Some SPACE)) as [Q R].
      cbn [fst app]. split.
      * split; [|exact Q]. apply re_blank_run_None. cbn [run_length].
        change (is_blank SPACE) with true. cbv iota. rewrite (R E1). lia.
      * cbn [run_length]. rewrite Hc. discriminate.
    + destruct (IH 0 (Some c) (Some c)) as [Q R]. cbn [fst].
      assert (L : run_length is_blank (c :: s) < 2).
      { apply (re_blank_run_None prev). intros k; congruence. }
      cbn [run_length] in L |- *. destruct (is_blank c) eqn:Hc.
      * assert (Z : 0 = run_length is_blank s) by lia. split.
        { split; [|exact Q]. apply re_blank_run_None. cbn [run_length]. rewrite Hc, (R Z). lia. }
        { discriminate. }
      * split; [|reflexivity]. split; [|exact Q].
        apply re_blank_run_None. cbn [run_length]. rewrite Hc. lia.
  - destruct (IH k (Some c) prev') as [Q R]. split; [exact Q|].
    cbn [run_length]. destruct (is_blank c); [|discriminate].
    intros E; injection E as E. exact (R E).
Qed.

Lemma is_blank_not_bracket c : is_blank c = true -> is_bracket c = false.
Proof.
  unfold is_blank. rewrite orb_true_iff. intros [E|E]; apply char_eqb_eq in E; subst c; reflexivity.
Qed.

Lemma collapse_brackets s : forall skip prev,
  skip <= run_length is_blank s ->
  brackets (fst (scan re_blank_run [SPACE] skip prev s)) = brackets s.
Proof.
  induction s as [|c s IH]; intros skip prev L; [reflexivity|].
  cbn [scan]. destruct skip as [|k].
  - destruct (re_blank_run prev (c :: s)) as [[|k]|] eqn:E.
    + apply re_blank_run_Some in E; lia.
    + apply re_blank_run_Some in E. destruct E as [E1 E2].
      cbn [run_length] in E1. destruct (is_blank c) eqn:Hc; [|lia].
      injection E1 as E1. cbn [fst app]. unfold brackets in *. cbn [filter].
      change (is_bracket SPACE) with false. cbv iota.
      rewrite (is_blank_not_bracket c Hc). apply IH. lia.
    + cbn [fst]. unfold brackets in *. cbn [filter]. rewrite (IH 0 (Some c)) by lia. reflexivity.
  - cbn [run_length] in L. destruct (is_blank c) eqn:Hc; [|lia].
    unfold brackets in *. cbn [filter]. rewrite (is_blank_not_bracket c Hc). apply IH. lia.
Qed.

Lemma run_length_app_le p a b : run_length p a <= run_length p (a ++ b).
Proof.
  induction a as [|c a IH]; simpl; [lia|]. destruct (p c); lia.
Qed.

Lemma quiet_blank_run_suffix a b : forall prev prev',
  quiet re_blank_run prev (a ++ b) -> quiet re_blank_run prev' b.
Proof.
  induction a as [|c a IH]; intros prev prev' H.
  - eapply quiet_re_run_prev; exact H.
  - destruct H as [_ H]. eapply IH; exact H.
Qed.

Lemma quiet_blank_run_prefix a b : forall prev,
  quiet re_blank_run prev (a ++ b) -> quiet re_blank_run prev a.
Proof.
  induction a as [|c a IH]; intros prev H; [exact I|].
  destruct H as [H1 H2]. split; [|apply IH; exact H2].
  apply re_blank_run_None. apply re_blank_run_None in H1.
  pose proof (run_length_app_le is_blank (c :: a) b). simpl app in *. lia.
Qed.

Lemma quiet_blank_run_trim s prev :
  quiet re_blank_run prev s -> quiet re_blank_run prev (trim s).
Proof.
  intros H. destruct (trim_split s) as [a [b [E _]]]. rewrite E in H.
  apply (quiet_blank_run_suffix a _ prev prev) in H.
  eapply quiet_blank_run_prefix; exact H.
Qed.

(** *** stripAgentCitations *)

(** The result of [stripAgentCitations] holds no citation, no run of two
    blanks and no white space at either end. *)
Lemma stripAgentCitations_normal x :
  cite_free (stripAgentCitations x)
  /\ quiet re_blank_run None (stripAgentCitations x)
  /\ trim (stripAgentCitations x) = stripAgentCitations x.
Proof.
  unfold stripAgentCitations, replace_all. repeat split.
  - apply cite_free_brackets. rewrite brackets_trim, collapse_brackets by lia.
    apply cite_free_brackets. apply decite_cite_free.
  - apply quiet_blank_run_trim. apply collapse_quiet.
  - apply trim_idem.
Qed.

Lemma stripAgentCitations_fixed z :
  cite_free z -> quiet re_blank_run None z -> trim z = z ->
  stripAgentCitations z = z.
Proof.
  intros C Q T. unfold stripAgentCitations.
  rewrite (replace_all_quiet re_citation [] z (cite_free_quiet z None C)).
  rewrite (replace_all_quiet re_blank_run [SPACE] z Q). exact T.
Qed.

(** C6. Citation stripping is idempotent, and on a text that holds neither
    U+3010 nor U+3011 it is the collapse of the runs of two or more spaces
    and tabs into one space followed by the trim of both ends. *)
Theorem stripAgentCitations_idempotent (x : jsstring) :
  stripAgentCitations (stripAgentCitations x) = stripAgentCitations x
  /\ (~ In LEFT_BRACKET x -> ~ In RIGHT_BRACKET x ->
      stripAgentCitations x = trim (replace_all re_blank_run [SPACE] x)).
Proof.
  split.
  - destruct (stripAgentCitations_normal x) as [C [Q T]].
    apply stripAgentCitations_fixed; assumption.
  - intros HL _. unfold stripAgentCitations.
    rewrite (replace_all_quiet re_citation [] x); [reflexivity|].
    apply cite_free_quiet. clear - HL. induction x as [|c x IH]; [exact I|].
    split; [|apply IH; intros H; apply HL; right; exact H].
    intros ->. exfalso; apply HL; left; reflexivity.
Qed.

Lemma stripAgentCitations_idempotent_witness :
  let x := str "see  this " ++ [LEFT_BRACKET; 52%N; RIGHT_BRACKET] in
  let y := str " plain   text" in
  stripAgentCitations x = str "see this"
  /\ stripAgentCitations (stripAgentCitations x) = stripAgentCitations x
  /\ stripAgentCitations y = trim (replace_all re_blank_run [SPACE] y)
  /\ stripAgentCitations y = str "plain text".
Proof.
  cbv zeta. split; [reflexivity|]. split.
  - apply (stripAgentCitations_idempotent _).
  - split; [|reflexivity].
    apply (proj2 (stripAgentCitations_idempotent (str " plain   text")));
      vm_compute; intros H; repeat (destruct H as [H|H]; [discriminate|]); exact H.
Defined.

(** ** Outbound text extraction *)

Lemma nonblank_trimmed v t : nonblank v = Some t -> trim t = t /\ t <> [].
Proof.
  destruct v; try discriminate. unfold nonblank. destruct (trim s) as [|c r] eqn:E; [discriminate|].
  intros H; injection H as <-. split; [|discriminate]. rewrite <- E. apply trim_idem.
Qed.

Lemma first_nonblank_trimmed l : trim (first_nonblank l) = first_nonblank l.
Proof.
  induction l as [|v l IH]; [reflexivity|]. simpl.
  destruct (nonblank v) as [t|] eqn:E; [|exact IH].
  apply (nonblank_trimmed v t E).
Qed.

(** The sequence of tests of [extractUserText] is a search through the list
    of candidates. *)
Lemma extractUserText_candidates (body : value) :
  body <> VNull ->
  extractUserText body = Ok (first_nonblank (candidates body)).
Proof.
  intros Hnn.
  assert (E : forall b, b <> VNull ->
            (forall k, prop (match b with VUndefined => VObject [] | _ => b end) k = prop b k)
            /\ (forall k, get (match b with VUndefined => VObject [] | _ => b end) k = Ok (prop b k))).
  { intros b Hb; destruct b; try congruence; split; intros k; reflexivity. }
  destruct (E body Hnn) as [Ep Eg].
  unfold extractUserText, candidates, legacy_text_part, first_message.
  cbv zeta. rewrite Eg. cbn [rbind first_nonblank]. rewrite !Ep.
  destruct (nonblank (prop body "text")); [reflexivity|].
  destruct (nonblank (prop body "message")); [reflexivity|].
  destruct (nonblank (prop body "input")); [reflexivity|].
  destruct (prop (prop (prop body "payload") "thread") "messages") as [| | | | |[|m0 ms]|];
    try reflexivity.
  destruct (nonblank (prop m0 "content")); [reflexivity|].
  destruct (nonblank (prop (prop m0 "content") "text")); [reflexivity|].
  destruct (prop m0 "content"); try reflexivity.
  match goal with |- context [nonblank ?v] => destruct (nonblank v) end; reflexivity.
Qed.

(** C2, as the code has it.  On every body but null, [extractUserText]
    returns the trimmed text of the first candidate that is a string with
    something left after trimming, in the order [text], [message], [input],
    the legacy content as a string, its [text], and then one candidate for
    array content, the first truthy value among [text.value], [text] and
    [value] of the first part typed text; with no such candidate it returns
    the empty string.  What it returns is trimmed. *)
Theorem extractUserText_priority (body : value) :
  body <> VNull ->
  extractUserText body = Ok (first_nonblank (candidates body))
  /\ trim (first_nonblank (candidates body)) = first_nonblank (candidates body)
  /\ (Forall (fun v => nonblank v = None) (candidates body) ->
      extractUserText body = Ok []).
Proof.
  intros Hnn. split; [apply extractUserText_candidates; exact Hnn|].
  split; [apply first_nonblank_trimmed|].
  intros F. rewrite extractUserText_candidates by exact Hnn. f_equal.
  induction F as [|v l Hv _ IH]; [reflexivity|]. cbn [first_nonblank]. rewrite Hv. exact IH.
Qed.

Lemma extractUserText_priority_witness :
  extractUserText (obj [("text"%string, vstr "   "); ("input"%string, vstr " Where is my order? ")])
  = Ok (str "Where is my order?").
Proof.
  rewrite (proj1 (extractUserText_priority
                    (obj [("text"%string, vstr "   ");
                          ("input"%string, vstr " Where is my order? ")])
                    ltac:(discriminate))).
  reflexivity.
Defined.

(** The order as the specification words it is not the order of the code: a
    typed part whose [text] is an object without [value] hides the string
    under [value]. *)
Lemma extractUserText_claimed_fails :
  extractUserText body_shadowed_value = Ok []
  /\ extractUserText_claimed body_shadowed_value = str "hi"
  /\ extractUserText body_shadowed_value <> Ok (extractUserText_claimed body_shadowed_value).
Proof. split; [reflexivity|]. split; [reflexivity | discriminate]. Qed.


(** Whatever [extractUserText] returns is trimmed. *)
Lemma extractUserText_trimmed body t : extractUserText body = Ok t -> trim t = t.
Proof.
  assert (G : body <> VNull -> extractUserText body = Ok t -> trim t = t).
  { intros Hn H. rewrite extractUserText_candidates in H by exact Hn.
    assert (E : first_nonblank (candidates body) = t) by congruence.
    rewrite <- E. apply first_nonblank_trimmed. }
  destruct body; try (apply G; discriminate).
  intros H; cbv in H; discriminate.
Qed.

(** ** The proxy endpoints *)

Lemma FetchCall_inj a b : FetchCall a = FetchCall b -> a = b.
Proof. intros H; injection H; auto. Qed.

(** C3, as the code has it.  For every endpoint, request and world: when
    upstream was called and its reply, once its body is read as JSON, is not
    2xx, the proxy answers the upstream status with the fixed body of an
    upstream error; when the body of the reply cannot be read as JSON
    (whatever its status), when [fetch] fails, when the token cannot be had,
    and on any other exception, it answers 500 with the fixed body of a
    server error. *)
Theorem proxy_error_mapping (e : endpoint) (req : value) (w : world) :
  let resp := fst (serve e req w) in
  let log := snd (serve e req w) in
  (forall rq up j, In (FetchCall rq) log -> upstream w rq = Ok up ->
     json up = Ok j -> ok up = false -> resp = upstream_error (status up))
  /\ (forall rq up x, In (FetchCall rq) log -> upstream w rq = Ok up ->
        json up = Throw x -> resp = server_error)
  /\ (forall rq x, In (FetchCall rq) log -> upstream w rq = Throw x ->
        resp = server_error)
  /\ (forall x, In TokenCall log -> access_token w = Throw x -> resp = server_error)
  /\ (forall x, fst (handler e req w []) = Throw x -> resp = server_error).
Proof.
  cbv zeta. destruct e; run_endpoint.
  - destruct (extractUserText req) as [[|c t]|] eqn:Et; cbn [fst snd].
    + repeat split; intros; same_fetch FetchCall_inj; discriminate.
    + split_world w.
      all: repeat split; intros; same_fetch FetchCall_inj; unfold upstream_error, server_error;
        try congruence.
    + repeat split; intros; same_fetch FetchCall_inj; reflexivity.
  - split_world w.
    all: repeat split; intros; same_fetch FetchCall_inj; unfold upstream_error, server_error;
      try congruence.
  - split_world w.
    all: repeat split; intros; same_fetch FetchCall_inj; unfold upstream_error, server_error;
      try congruence.
  - split_world w.
    all: repeat split; intros; same_fetch FetchCall_inj; unfold upstream_error, server_error;
      try congruence.
  - split_world w.
    all: repeat split; intros; same_fetch FetchCall_inj; unfold upstream_error, server_error;
      try congruence.
Qed.

Lemma proxy_error_mapping_witness :
  let w := sample_world (Ok {| status := 404; json := Ok (obj []) |}) in
  let req := obj [("threadId"%string, vstr "thread_1")] in
  fst (serve Messages req w) = upstream_error 404.
Proof.
  cbv zeta.
  refine (proj1 (proxy_error_mapping Messages
                   (obj [("threadId"%string, vstr "thread_1")])
                   (sample_world (Ok {| status := 404; json := Ok (obj []) |})))
            {| url := str "https://agent.example/api/projects/p/threads/thread_1/messages?api-version=v1";
               method := str "GET";
               authorization := str "Bearer tok";
               body := None |}
            {| status := 404; json := Ok (obj []) |} (obj []) _ _ _ _).
  - vm_compute. right; left; reflexivity.
  - reflexivity.
  - reflexivity.
  - reflexivity.
Defined.

(** A reply that is not 2xx and whose body is not JSON (an HTML error page of
    a gateway, an empty body) is answered with 500, not with its status: the
    body is read before the status is looked at. *)
Lemma upstream_status_not_always_forwarded :
  let reply := {| status := 502; json := Throw SyntaxError |} in
  let w := sample_world (Ok reply) in
  let req := obj [("threadId"%string, vstr "thread_1")] in
  ok reply = false
  /\ (exists rq, In (FetchCall rq) (snd (serve Messages req w)) /\ upstream w rq = Ok reply)
  /\ fst (serve Messages req w) = server_error
  /\ fst (serve Messages req w) <> upstream_error (status reply).
Proof.
  cbv zeta. split; [reflexivity|]. split.
  - eexists. split; [vm_compute; right; left; reflexivity | reflexivity].
  - split; [reflexivity | discriminate].
Qed.

(** C9, as the code has it.  An endpoint whose required identifier is falsy
    or whose required text is blank answers 400 and calls neither the
    credential provider nor upstream. *)
Theorem missing_field_refused (e : endpoint) (req : value) (w : world) :
  rejected e req -> serve e req w = (refusal e, []).
Proof.
  destruct e; unfold rejected, refusal; cbv zeta; run_endpoint.
  - intros ->. reflexivity.
  - intros [H | [s [H1 H2]]].
    + rewrite H. reflexivity.
    + rewrite H1. destruct (truthy (prop (or_else req (VObject [])) "threadId"));
        cbn [negb orb]; [rewrite H2|]; reflexivity.
  - intros ->. reflexivity.
  - intros [H | H]; rewrite H; [|rewrite orb_true_r]; reflexivity.
  - intros ->. reflexivity.
Qed.

Lemma missing_field_refused_witness :
  serve AppendMessage
    (obj [("threadId"%string, vstr "thread_1"); ("content"%string, vstr "  ")])
    (sample_world (Throw TypeError))
  = (refusal AppendMessage, []).
Proof.
  apply (missing_field_refused AppendMessage).
  right. exists (str "  "). split; reflexivity.
Defined.

(** An identifier made of spaces is blank and still passes the check: the
    token is asked for and upstream is called. *)
Lemma blank_identifier_not_refused :
  let req := obj [("threadId"%string, vstr "   ")] in
  let w := sample_world (Ok {| status := 200; json := Ok (obj []) |}) in
  absent_or_blank (prop req "threadId")
  /\ code (fst (serve StartRun req w)) = 200%Z
  /\ In TokenCall (snd (serve StartRun req w))
  /\ (exists rq, In (FetchCall rq) (snd (serve StartRun req w))).
Proof.
  cbv zeta. split.
  - right; right. exists (str "   "). split; reflexivity.
  - split; [reflexivity|]. split.
    + vm_compute. left; reflexivity.
    + eexists. vm_compute. right; left; reflexivity.
Qed.

(** ** Inbound messages on the proxy *)

Lemma find_text_part_typed parts :
  find_text_part parts = VUndefined
  \/ (In (find_text_part parts) parts
      /\ is_literal (prop (find_text_part parts) "type") "text" = true).
Proof.
  unfold find_text_part. induction parts as [|c parts IH]; [left; reflexivity|].
  cbn [find_value]. destruct (is_literal (prop c "type") "text") eqn:E.
  - right; split; [left; reflexivity | exact E].
  - destruct IH as [IH | [IH1 IH2]]; [left; exact IH | right; split; [right; exact IH1 | exact IH2]].
Qed.

Lemma call_stripAgentCitations_Ok v t :
  call_stripAgentCitations v = Ok t ->
  (v = VUndefined /\ t = stripAgentCitations [])
  \/ exists s, v = VString s /\ t = stripAgentCitations s.
Proof.
  destruct v; cbn; try discriminate; intros H; injection H as <-.
  - left; split; reflexivity.
  - right; eexists; split; reflexivity.
Qed.

(** A content of no recognised shape makes [projectMsgList] pick the empty
    string, unless it picks something that is no string at all. *)
Lemma picked_text_unrecognised content s :
  recognised content = false -> picked_text content = VString s -> s = [].
Proof.
  unfold recognised, picked_text.
  destruct content as [| | | | |parts|fields];
    try (cbn [prop truthy is_string]; intros _ H; injection H as <-; reflexivity).
  - intros Hr. unfold or_else.
    destruct (truthy (prop (prop (find_text_part parts) "text") "value")) eqn:Et.
    + intros E. exfalso. destruct (find_text_part_typed parts) as [F | [F1 F2]].
      * rewrite F in E. discriminate.
      * assert (X : existsb (fun c => is_literal (prop c "type") "text"
                                   && is_string (prop (prop c "text") "value")) parts = true).
        { apply existsb_exists. eexists; split; [exact F1|]. rewrite F2, E. reflexivity. }
        congruence.
    + intros H; injection H as <-; reflexivity.
  - intros Hr. apply orb_false_iff in Hr. destruct Hr as [H1 H2].
    destruct (truthy (prop (prop (VObject fields) "text") "value")).
    + intros E. rewrite E in H1. discriminate.
    + rewrite H2. intros H; injection H as <-; reflexivity.
Qed.

Lemma picked_text_not_undefined content : picked_text content <> VUndefined.
Proof.
  unfold picked_text, or_else. destruct content;
    repeat match goal with
           | |- context [if ?b then _ else _] => destruct b eqn:?
           end; try discriminate; intros E; rewrite E in *; discriminate.
Qed.

Lemma projectMsg_projected m o : projectMsg m = Ok o -> projected m o.
Proof.
  unfold projectMsg. destruct (get m "content") as [content|] eqn:Eg; [|discriminate].
  assert (Ec : content = prop m "content").
  { unfold get in Eg. destruct m; try discriminate Eg; injection Eg as <-; reflexivity. }
  subst content. cbn [rbind].
  destruct (call_stripAgentCitations (picked_text (prop m "content"))) as [t|] eqn:Es;
    [|discriminate].
  cbn [rbind]. intros H; injection H as <-.
  apply call_stripAgentCitations_Ok in Es.
  destruct Es as [[Es _] | [s [Es ->]]]; [exfalso; exact (picked_text_not_undefined _ Es)|].
  exists s. split; [exact Es|]. split; [reflexivity|].
  intros Hr. rewrite (picked_text_unrecognised _ s Hr Es). split; reflexivity.
Qed.

Lemma map_result_Forall2 {A B} (f : A -> result B) l : forall out,
  map_result f l = Ok out -> Forall2 (fun x y => f x = Ok y) l out.
Proof.
  induction l as [|x l IH]; intros out; cbn [map_result].
  - intros H; injection H as <-. constructor.
  - destruct (f x) as [y|] eqn:E; [|discriminate]. cbn [rbind].
    destruct (map_result f l) as [ys|]; [|discriminate]. cbn [rbind].
    intros H; injection H as <-. constructor; [exact E | apply IH; reflexivity].
Qed.

Lemma projectMsgList_projected j out :
  projectMsgList j = Ok out ->
  exists items msgs,
    or_else (prop j "data") (VArray []) = VArray items
    /\ out = obj [("data"%string, VArray msgs)]
    /\ Forall2 projected items msgs.
Proof.
  unfold projectMsgList. cbv zeta.
  assert (E : forall k, get (match j with VUndefined => VObject [] | _ => j end) k
                        = match j with VNull => Throw TypeError | _ => Ok (prop j k) end).
  { intros k. destruct j; reflexivity. }
  rewrite E. destruct j as [| | | | |jitems|jfields]; try discriminate; cbn [rbind];
    match goal with
    | |- context [or_else ?d ?e] => destruct (or_else d e) as [| | | | |items|] eqn:D
    end; try discriminate;
    (destruct (map_result projectMsg items) as [msgs|] eqn:Em; [|discriminate]);
    cbn [rbind]; intros H; injection H as <-;
    exists items, msgs; (split; [reflexivity|]); (split; [reflexivity|]);
    apply map_result_Forall2 in Em;
    (eapply Forall2_impl; [|exact Em]); intros ? ?; apply projectMsg_projected.
Qed.

(** *** The text of a message, place by place *)

Lemma find_text_part_find parts :
  find_text_part parts
  = match List.find typed_text parts with Some part => part | None => VUndefined end.
Proof.
  unfold find_text_part. induction parts as [|c parts IH]; [reflexivity|].
  cbn [find_value List.find]. unfold typed_text at 1.
  destruct (is_literal (prop c "type") "text"); [reflexivity | exact IH].
Qed.

Lemma picked_text_place content :
  picked_text content
  = if truthy (text_place content) then text_place content
    else VString (extracted_text content).
Proof.
  unfold picked_text, text_place, extracted_text, or_else.
  destruct content as [| | | | |parts|fields]; try reflexivity.
  - rewrite find_text_part_find. unfold text_place.
    destruct (List.find typed_text parts) as [part|]; [|reflexivity].
    destruct (prop (prop part "text") "value") as [| |[]|n|[|x t]| |]; reflexivity.
  - unfold text_place.
    destruct (prop (prop (VObject fields) "text") "value") as [| |[]|n|[|x t]| |];
      cbn [truthy]; try reflexivity;
      try (destruct (prop (VObject fields) "value"); reflexivity);
      destruct (negb (Z.eqb n 0)); try reflexivity;
      destruct (prop (VObject fields) "value"); reflexivity.
Qed.

Lemma picked_text_readable content :
  (negb (truthy (text_place content)) || is_string (text_place content)) = true ->
  picked_text content = VString (extracted_text content).
Proof.
  intros H. rewrite picked_text_place.
  destruct (truthy (text_place content)) eqn:T; [|reflexivity].
  cbn [negb orb] in H. unfold extracted_text.
  destruct (text_place content) as [| | | |[|x t]| |]; try discriminate; reflexivity.
Qed.

Lemma picked_text_unreadable content :
  (negb (truthy (text_place content)) || is_string (text_place content)) = false ->
  call_stripAgentCitations (picked_text content) = Throw TypeError.
Proof.
  intros H. rewrite picked_text_place. apply orb_false_iff in H. destruct H as [T S].
  apply negb_false_iff in T. rewrite T.
  destruct (text_place content); try discriminate; reflexivity.
Qed.

(** What the callback of [map] answers for a message. *)
Lemma projectMsg_readable m :
  projectMsg m
  = if readable m
    then Ok (VObject
               [(str "role", prop m "role");
                (str "created_at", prop m "created_at");
                (str "content",
                 VArray [VObject [(str "type", VString (str "text"));
                                  (str "text",
                                   VObject [(str "value",
                                             VString (stripAgentCitations
                                                        (extracted_text (prop m "content"))))])]])])
    else Throw TypeError.
Proof.
  unfold projectMsg, readable.
  destruct m as [| |b|n|t|items|fields]; try reflexivity;
    cbn [get rbind];
    match goal with
    | |- context [picked_text ?c] =>
        destruct (negb (truthy (text_place c)) || is_string (text_place c)) eqn:R;
        [rewrite (picked_text_readable c R) | rewrite (picked_text_unreadable c R)]
    end; reflexivity.
Qed.

Lemma map_result_projectMsg items :
  (forallb readable items = true ->
   exists msgs,
     map_result projectMsg items = Ok msgs
     /\ Forall2 (fun m o => projectMsg m = Ok o) items msgs)
  /\ (forallb readable items = false -> map_result projectMsg items = Throw TypeError).
Proof.
  induction items as [|m items [IH1 IH2]]; cbn [forallb map_result].
  - split; [|discriminate]. intros _. exists []. split; [reflexivity | constructor].
  - rewrite (projectMsg_readable m). destruct (readable m) eqn:R; cbn [andb rbind].
    + split.
      * intros H. destruct (IH1 H) as (msgs & E & F). rewrite E. cbn [rbind].
        eexists. split; [reflexivity|]. constructor; [|exact F].
        rewrite (projectMsg_readable m), R. reflexivity.
      * intros H. rewrite (IH2 H). reflexivity.
    + split; [discriminate | reflexivity].
Qed.

(** The projection of a reply whose [data], once defaulted, is the array
    [items]. *)
Lemma projectMsgList_readable j items :
  j <> VNull ->
  or_else (prop j "data") (VArray []) = VArray items ->
  (forallb readable items = true -> exists out, projectMsgList j = Ok out)
  /\ (forallb readable items = false -> projectMsgList j = Throw TypeError).
Proof.
  intros N D. unfold projectMsgList. cbv zeta.
  assert (E : get (match j with VUndefined => VObject [] | _ => j end) "data"
              = Ok (prop j "data")) by (destruct j; try reflexivity; contradiction).
  rewrite E. cbn [rbind]. rewrite D.
  destruct (map_result_projectMsg items) as [M1 M2]. split; intros H.
  - destruct (M1 H) as (msgs & Em & _). rewrite Em. cbn [rbind]. eexists; reflexivity.
  - rewrite (M2 H). reflexivity.
Qed.

(** The message with a number for a text is one the projection cannot read:
    the answer to the whole thread is 500, and none of its messages is handed
    on, with or without a text. *)
Lemma unreadable_message_fails_the_thread :
  let w := sample_world
             (Ok {| status := 200;
                    json := Ok (obj [("data"%string,
                                      VArray [message_with_number;
                                              obj [("role", vstr "user");
                                                   ("content", vstr "raw text")]%string])]) |}) in
  let r := fst (serve Messages (obj [("threadId"%string, vstr "thread_1")]) w) in
  recognised (prop message_with_number "content") = false
  /\ readable message_with_number = false
  /\ code r = 500%Z
  /\ payload r = VObject [(str "error", VObject [(str "message", VString (str "Server error"))])]
  /\ prop (payload r) "data" = VUndefined.
Proof. repeat split; reflexivity. Qed.

(** What GET /api/messages answers once it has called upstream. *)
Lemma messages_after_call req w rq :
  In (FetchCall rq) (snd (serve Messages req w)) ->
  fst (serve Messages req w)
  = match upstream w rq with
    | Ok up =>
        match json up with
        | Ok j =>
            if ok up
            then match projectMsgList j with
                 | Ok list => {| code := 200; payload := list |}
                 | Throw _ => server_error
                 end
            else upstream_error (status up)
        | Throw _ => server_error
        end
    | Throw _ => server_error
    end.
Proof.
  run_endpoint. split_world w; cbn [fst snd app]; intros Hin;
    same_fetch FetchCall_inj; try reflexivity;
    unfold server_error, upstream_error; congruence.
Qed.

Lemma messages_after_fetch req w rq up j :
  In (FetchCall rq) (snd (serve Messages req w)) ->
  upstream w rq = Ok up -> json up = Ok j -> ok up = true ->
  fst (serve Messages req w)
  = match projectMsgList j with
    | Ok list => {| code := 200; payload := list |}
    | Throw _ => server_error
    end.
Proof.
  intros Hin Hu Hj Ho. rewrite (messages_after_call req w rq Hin), Hu, Hj, Ho. reflexivity.
Qed.

(** C10, as the code has it.  A response of GET /api/messages that carries
    messages has code 200, and its payload is the [data] array of upstream
    taken message by message: each message keeps its role and its stamp, and
    its content is exactly the array of the one part of type text whose
    [text.value] is the string [t], the extracted text of the upstream content
    with its citations stripped; [t] is empty when that content has none of the
    recognised shapes.  Upstream having answered well, the response is such a
    one exactly when every message of the array can be read: it is neither
    null nor undefined, and where its text is looked for stands a string or
    something falsy.  One message that cannot be read, a truthy number or
    object there, and the whole response is 500 with Server error: no message
    is dropped silently then, none is handed on. *)
Theorem messages_response_content (req : value) (w : world) :
  let r := fst (serve Messages req w) in
  (code r = 200%Z ->
   exists rq up j items msgs,
     In (FetchCall rq) (snd (serve Messages req w))
     /\ upstream w rq = Ok up /\ json up = Ok j
     /\ or_else (prop j "data") (VArray []) = VArray items
     /\ payload r = VObject [(str "data", VArray msgs)]
     /\ Forall2
          (fun m o =>
             exists t,
               o = VObject
                     [(str "role", prop m "role");
                      (str "created_at", prop m "created_at");
                      (str "content",
                       VArray [VObject [(str "type", VString (str "text"));
                                        (str "text", VObject [(str "value", VString t)])]])]
               /\ t = stripAgentCitations (extracted_text (prop m "content"))
               /\ (recognised (prop m "content") = false -> t = []))
          items msgs)
  /\ (forall rq up j items,
        In (FetchCall rq) (snd (serve Messages req w)) ->
        upstream w rq = Ok up -> json up = Ok j -> ok up = true ->
        j <> VNull -> or_else (prop j "data") (VArray []) = VArray items ->
        (forallb readable items = true -> code r = 200%Z)
        /\ (forallb readable items = false ->
            code r = 500%Z
            /\ payload r
               = VObject [(str "error",
                           VObject [(str "message", VString (str "Server error"))])])).
Proof.
  cbv zeta. split.
  - intros C.
    assert (X : exists rq up j out,
              In (FetchCall rq) (snd (serve Messages req w))
              /\ upstream w rq = Ok up /\ json up = Ok j
              /\ projectMsgList j = Ok out
              /\ payload (fst (serve Messages req w)) = out).
    { revert C. run_endpoint. split_world w; try discriminate.
      - intros _. eexists _, _, _, _.
        split; [apply in_or_app; right; left; reflexivity|].
        repeat split; try eassumption; reflexivity.
      - unfold ok in *. intros C. cbn [code] in C. rewrite C in *. discriminate. }
    destruct X as (rq & up & j & out & Hin & Hu & Hj & Hp & Hpay).
    destruct (projectMsgList_projected _ _ Hp) as (items & msgs0 & D & -> & _).
    assert (Nj : j <> VNull) by (intros ->; discriminate Hp).
    pose proof (projectMsgList_readable j items Nj D) as [R1 R2].
    destruct (forallb readable items) eqn:R; [|rewrite (R2 eq_refl) in Hp; discriminate Hp].
    destruct (map_result_projectMsg items) as [M1 _].
    destruct (M1 R) as (msgs & Em & F2).
    assert (Eo : msgs0 = msgs).
    { revert Hp. unfold projectMsgList. cbv zeta.
      replace (get (match j with VUndefined => VObject [] | _ => j end) "data")
        with (Ok (A:=value) (prop j "data"))
        by (destruct j; try reflexivity; contradiction).
      cbn [rbind]. rewrite D, Em. cbn [rbind]. intros H. injection H as H.
      symmetry. exact H. }
    subst msgs0.
    exists rq, up, j, items, msgs. repeat split; try assumption.
    clear - F2. induction F2 as [|m o items msgs H _ IH]; constructor; [|exact IH].
    rewrite projectMsg_readable in H. destruct (readable m) eqn:Rm; [|discriminate H].
    injection H as <-. eexists. split; [reflexivity|]. split; [reflexivity|].
    intros Hr.
    assert (Hm : projectMsg m = Ok (VObject
               [(str "role", prop m "role");
                (str "created_at", prop m "created_at");
                (str "content",
                 VArray [VObject [(str "type", VString (str "text"));
                                  (str "text",
                                   VObject [(str "value",
                                             VString (stripAgentCitations
                                                        (extracted_text (prop m "content"))))])]])]))
      by (rewrite projectMsg_readable, Rm; reflexivity).
    destruct (projectMsg_projected _ _ Hm) as (s0 & _ & Eo & Es).
    destruct (Es Hr) as [_ Z]. unfold obj, text_content in Eo. cbn [map fst snd] in Eo.
    injection Eo as Eo. rewrite Eo. exact Z.
  - intros rq up j items Hin Hu Hj Ho Nj D.
    rewrite (messages_after_fetch req w rq up j Hin Hu Hj Ho).
    destruct (projectMsgList_readable j items Nj D) as [R1 R2]. split; intros H.
    + destruct (R1 H) as [out ->]. reflexivity.
    + rewrite (R2 H). split; reflexivity.
Qed.

Lemma messages_response_content_witness :
  let w := sample_world (Ok {| status := 200; json := Ok sample_thread |}) in
  let req := obj [("threadId"%string, vstr "thread_1")] in
  payload (fst (serve Messages req w))
  = VObject
      [(str "data",
        VArray
          [VObject [(str "role", VString (str "assistant"));
                    (str "created_at", VNumber 2);
                    (str "content",
                     VArray [VObject [(str "type", VString (str "text"));
                                      (str "text",
                                       VObject [(str "value",
                                                 VString (str "Hello world"))])]])];
           VObject [(str "role", VString (str "user"));
                    (str "created_at", VNumber 1);
                    (str "content",
                     VArray [VObject [(str "type", VString (str "text"));
                                      (str "text",
                                       VObject [(str "value", VString [])])]])]])]
  /\ code (fst (serve Messages req w)) = 200%Z
  /\ exists items msgs,
       prop sample_thread "data" = VArray items
       /\ payload (fst (serve Messages req w)) = VObject [(str "data", VArray msgs)]
       /\ Forall2
            (fun m o =>
               exists t,
                 o = VObject
                       [(str "role", prop m "role");
                        (str "created_at", prop m "created_at");
                        (str "content",
                         VArray [VObject [(str "type", VString (str "text"));
                                          (str "text",
                                           VObject [(str "value", VString t)])]])]
                 /\ t = stripAgentCitations (extracted_text (prop m "content"))
                 /\ (recognised (prop m "content") = false -> t = []))
            items msgs.
Proof.
  cbv zeta. split; [reflexivity|].
  pose proof (messages_response_content
                (obj [("threadId"%string, vstr "thread_1")])
                (sample_world (Ok {| status := 200; json := Ok sample_thread |}))) as [T1 T2].
  cbv zeta in T1, T2.
  assert (C : code (fst (serve Messages (obj [("threadId"%string, vstr "thread_1")])
                           (sample_world (Ok {| status := 200; json := Ok sample_thread |}))))
              = 200%Z).
  { refine (proj1 (T2 {| url := str "https://agent.example/api/projects/p/threads/thread_1/messages?api-version=v1";
                         method := str "GET";
                         authorization := str "Bearer tok";
                         body := None |}
                      {| status := 200; json := Ok sample_thread |}
                      sample_thread _ _ eq_refl eq_refl eq_refl _ eq_refl) eq_refl).
    - right. left. reflexivity.
    - discriminate. }
  split; [exact C|].
  destruct (T1 C) as (rq & up & j & items & msgs & _ & Hu & Hj & D & P & F).
  cbn [sample_world upstream] in Hu. injection Hu as <-. cbn [json] in Hj. injection Hj as <-.
  exists items, msgs. split; [exact D|]. split; [exact P | exact F].
Defined.

(** ** The polling loop *)

Lemma is_literal_eq v lit : is_literal v lit = true <-> v = vstr lit.
Proof.
  unfold is_literal, vstr. destruct v; try (split; [discriminate | discriminate]).
  rewrite jsstring_eqb_eq. split; [intros ->; reflexivity | intros H; injection H; auto].
Qed.

Lemma terminal_has_iff status :
  terminal_has status = true
  <-> status = vstr "completed" \/ status = vstr "failed"
      \/ status = vstr "cancelled" \/ status = vstr "expired".
Proof.
  unfold terminal_has. rewrite !orb_true_iff, !is_literal_eq. tauto.
Qed.

Lemma poll_terminal status script n :
  terminal_has status = true -> poll status script n = Polled status n.
Proof. intros H. destruct script as [|[r|e] rest]; cbn [poll]; rewrite H; reflexivity. Qed.

Lemma poll_step status v rest n :
  terminal_has status = false ->
  poll status (Ok v :: rest) n
  = if is_literal (prop v "status") "requires_action"
    then Polled (prop v "status") (S n)
    else poll (prop v "status") rest (S n).
Proof. intros H. cbn [poll]. rewrite H. reflexivity. Qed.

(** The loop stops only on a terminal status or on requires_action. *)
Lemma poll_stops_on script : forall status n st k,
  poll status script n = Polled st k ->
  terminal_has st = true \/ st = vstr "requires_action".
Proof.
  induction script as [|[v|e] rest IH]; intros status n st k; cbn [poll];
    destruct (terminal_has status) eqn:T; try discriminate;
    try (intros H; injection H as <- <-; left; exact T).
  destruct (is_literal (prop v "status") "requires_action") eqn:A.
  - intros H; injection H as <- <-. right. apply is_literal_eq. exact A.
  - apply IH.
Qed.

Lemma poll_through pre : forall status n tail,
  terminal_has status = false ->
  Forall keeps_polling pre ->
  exists status',
    terminal_has status' = false
    /\ poll status (pre ++ tail) n = poll status' tail (List.length pre + n).
Proof.
  induction pre as [|r pre IH]; intros status n tail T F.
  - exists status. split; [exact T | reflexivity].
  - inversion F as [|r' pre' [v [-> [Tv Av]]] F']; subst.
    cbn [List.app]. rewrite poll_step by exact T. rewrite Av.
    destruct (IH (prop v "status") (S n) tail Tv F') as [status' [T' E]].
    exists status'. split; [exact T'|]. rewrite E. f_equal. cbn [List.length]. lia.
Qed.

(** C1, as the code has it.  The loop is left at once exactly on the four
    terminal statuses; with queued returned by the creation of the run and
    in_progress, completed by the status fetches, it makes two status calls and
    stops at completed (three when all three statuses come from status
    fetches); and whenever a status fetch answers requires_action after
    answers that kept the loop going, the loop is left right there, without an
    exception. *)
Theorem poll_terminal_and_action :
  (forall status,
     terminal_has status = true
     <-> status = vstr "completed" \/ status = vstr "failed"
         \/ status = vstr "cancelled" \/ status = vstr "expired")
  /\ (forall status script,
        terminal_has status = true -> poll status script 0 = Polled status 0)
  /\ (forall status script st k,
        poll status script 0 = Polled st k ->
        terminal_has st = true \/ st = vstr "requires_action")
  /\ poll (vstr "queued") [Ok (status_reply "in_progress"); Ok (status_reply "completed")] 0
     = Polled (vstr "completed") 2
  /\ (forall created,
        terminal_has created = false ->
        poll created [Ok (status_reply "queued"); Ok (status_reply "in_progress");
                      Ok (status_reply "completed")] 0
        = Polled (vstr "completed") 3)
  /\ (forall created pre rest,
        terminal_has created = false ->
        Forall keeps_polling pre ->
        poll created (pre ++ Ok (status_reply "requires_action") :: rest) 0
        = Polled (vstr "requires_action") (List.length pre + 1)).
Proof.
  split; [exact terminal_has_iff|].
  split; [intros status script H; apply poll_terminal; exact H|].
  split; [intros status script st k; apply poll_stops_on|].
  split; [reflexivity|].
  split.
  - intros created T. rewrite poll_step by exact T. reflexivity.
  - intros created pre rest T F.
    destruct (poll_through pre created 0 (Ok (status_reply "requires_action") :: rest) T F)
      as [status' [T' E]].
    rewrite E, poll_step by exact T'. cbn. f_equal. lia.
Qed.

Lemma poll_terminal_and_action_witness :
  poll (vstr "queued")
    ([Ok (status_reply "in_progress"); Ok (status_reply "queued")]
     ++ Ok (status_reply "requires_action") :: [Ok (status_reply "completed")]) 0
  = Polled (vstr "requires_action") 3.
Proof.
  apply (proj2 (proj2 (proj2 (proj2 (proj2 poll_terminal_and_action))))
           (vstr "queued") [Ok (status_reply "in_progress"); Ok (status_reply "queued")]
           [Ok (status_reply "completed")]).
  - reflexivity.
  - repeat constructor; eexists; (split; [reflexivity | split; reflexivity]).
Defined.

(** With the first status given by the creation of the run, the scripted run
    takes two status calls, not three. *)
Lemma poll_scripted_two_calls :
  exists calls,
    poll (vstr "queued") [Ok (status_reply "in_progress"); Ok (status_reply "completed")] 0
    = Polled (vstr "completed") calls
    /\ calls <> 3.
Proof. exists 2. split; [reflexivity | discriminate]. Qed.

(** ** Choosing the assistant message *)

Lemma insert_desc_perm x l : Permutation (insert_desc x l) (x :: l).
Proof.
  induction l as [|y l IH]; cbn [insert_desc]; [reflexivity|].
  destruct (stamp y <=? stamp x)%Z; [reflexivity|].
  rewrite IH. apply perm_swap.
Qed.

Lemma sort_desc_perm l : Permutation (sort_desc l) l.
Proof.
  induction l as [|x l IH]; cbn [sort_desc]; [reflexivity|].
  rewrite insert_desc_perm. apply perm_skip. exact IH.
Qed.

Lemma insert_desc_sorted x l :
  StronglySorted later_first l -> StronglySorted later_first (insert_desc x l).
Proof.
  induction 1 as [|y l S IH F]; cbn [insert_desc].
  - repeat constructor.
  - destruct (stamp y <=? stamp x)%Z eqn:E.
    + apply Z.leb_le in E. constructor; [constructor; assumption|].
      constructor; [exact E|]. rewrite Forall_forall in *. intros z Hz.
      unfold later_first in *. specialize (F z Hz). lia.
    + apply Z.leb_gt in E. constructor; [exact IH|].
      rewrite Forall_forall in *. intros z Hz.
      apply (Permutation_in _ (insert_desc_perm x l)) in Hz. destruct Hz as [<-|Hz].
      * unfold later_first. lia.
      * apply F. exact Hz.
Qed.

Lemma sort_desc_sorted l : StronglySorted later_first (sort_desc l).
Proof.
  induction l as [|x l IH]; cbn [sort_desc]; [constructor|].
  apply insert_desc_sorted. exact IH.
Qed.

(** The sort is stable: messages with the same stamp keep their order. *)
Lemma insert_desc_stable k x l :
  filter (fun m => Z.eqb (stamp m) k) (insert_desc x l)
  = filter (fun m => Z.eqb (stamp m) k) (x :: l).
Proof.
  induction l as [|y l IH]; cbn [insert_desc]; [reflexivity|].
  destruct (stamp y <=? stamp x)%Z eqn:E; [reflexivity|].
  apply Z.leb_gt in E. cbn [filter] in *. rewrite IH.
  destruct (Z.eqb (stamp x) k) eqn:Ex; [|reflexivity].
  apply Z.eqb_eq in Ex. destruct (Z.eqb (stamp y) k) eqn:Ey; [|reflexivity].
  apply Z.eqb_eq in Ey. lia.
Qed.

Lemma sort_desc_stable k l :
  filter (fun m => Z.eqb (stamp m) k) (sort_desc l)
  = filter (fun m => Z.eqb (stamp m) k) l.
Proof.
  induction l as [|x l IH]; cbn [sort_desc]; [reflexivity|].
  rewrite insert_desc_stable. cbn [filter]. rewrite IH. reflexivity.
Qed.

Lemma find_assistant_first l : forall m,
  find_assistant l = Ok (Some m) ->
  exists pre post,
    l = pre ++ m :: post
    /\ is_assistant m = Ok true
    /\ Forall (fun x => is_assistant x = Ok false) pre.
Proof.
  induction l as [|x l IH]; intros m; cbn [find_assistant]; [discriminate|].
  destruct (is_assistant x) as [[|]|] eqn:E; cbn [rbind]; try discriminate.
  - intros H; injection H as <-. exists [], l. repeat split; [exact E | constructor].
  - intros H. destruct (IH m H) as [pre [post [-> [A F]]]].
    exists (x :: pre), post. repeat split; [exact A | constructor; assumption].
Qed.

Lemma find_assistant_none l :
  find_assistant l = Ok None -> Forall (fun x => is_assistant x = Ok false) l.
Proof.
  induction l as [|x l IH]; cbn [find_assistant]; [constructor|].
  destruct (is_assistant x) as [[|]|] eqn:E; cbn [rbind]; try discriminate.
  intros H. constructor; [exact E | apply IH; exact H].
Qed.

Lemma find_assistant_total l :
  Forall (fun m => exists b, is_assistant m = Ok b) l ->
  exists r, find_assistant l = Ok r.
Proof.
  induction 1 as [|x l [b E] _ [r IH]]; cbn [find_assistant]; [eexists; reflexivity|].
  rewrite E. cbn [rbind]. destruct b; eexists; [reflexivity | exact IH].
Qed.

Lemma sorted_perm items : Permutation (sorted items) items.
Proof.
  unfold sorted. destruct (first_is_stamped items); [apply sort_desc_perm | reflexivity].
Qed.

(** C4, as the code has it.  With a truthy stamp on the first item the list
    is sorted by decreasing stamp (a stable sort) and otherwise taken as it
    comes; in both cases the FIRST message of that list whose role is
    assistant, whatever the case of its letters, is chosen.  After the sort
    that message carries the greatest stamp among the assistant messages. *)
Theorem latestAssistant_choice (items : list message) :
  (first_is_stamped items = true ->
     Permutation (sorted items) items
     /\ StronglySorted later_first (sorted items)
     /\ (forall k, filter (fun m => Z.eqb (stamp m) k) (sorted items)
                   = filter (fun m => Z.eqb (stamp m) k) items))
  /\ (first_is_stamped items = false -> sorted items = items)
  /\ (forall m, latestAssistant items = Ok (Some m) ->
        exists pre post,
          sorted items = pre ++ m :: post
          /\ is_assistant m = Ok true
          /\ Forall (fun x => is_assistant x = Ok false) pre)
  /\ (forall m, first_is_stamped items = true ->
        latestAssistant items = Ok (Some m) ->
        forall m', In m' items -> is_assistant m' = Ok true -> later_first m m')
  /\ (latestAssistant items = Ok None ->
        Forall (fun x => is_assistant x = Ok false) items)
  /\ (Forall (fun m => exists b, is_assistant m = Ok b) items ->
        exists r, latestAssistant items = Ok r).
Proof.
  split; [|split; [|split; [|split; [|split]]]].
  - intros H. unfold sorted. rewrite H.
    split; [apply sort_desc_perm|]. split; [apply sort_desc_sorted|].
    intros k. apply sort_desc_stable.
  - intros H. unfold sorted. rewrite H. reflexivity.
  - intros m H. apply find_assistant_first. exact H.
  - intros m Hs H m' Hin Ha.
    destruct (find_assistant_first _ _ H) as [pre [post [E [A F]]]].
    assert (S : StronglySorted later_first (sorted items)).
    { unfold sorted. rewrite Hs. apply sort_desc_sorted. }
    apply (Permutation_in _ (Permutation_sym (sorted_perm items))) in Hin.
    rewrite E in Hin, S. apply in_app_or in Hin. destruct Hin as [Hin | [<- | Hin]].
    + rewrite Forall_forall in F. rewrite (F m' Hin) in Ha. discriminate.
    + unfold later_first. lia.
    + clear - S Hin. induction pre as [|p pre IH]; cbn [List.app] in S.
      * inversion S as [|? ? _ F]; subst. rewrite Forall_forall in F. apply F. exact Hin.
      * inversion S; subst. apply IH. assumption.
  - intros H. apply find_assistant_none in H.
    rewrite Forall_forall in *. intros x Hx. apply H.
    apply (Permutation_in _ (Permutation_sym (sorted_perm items))). exact Hx.
  - intros H. apply find_assistant_total.
    rewrite Forall_forall in *. intros x Hx. apply H.
    apply (Permutation_in _ (sorted_perm items)). exact Hx.
Qed.

Lemma latestAssistant_choice_witness :
  latestAssistant stamped_thread = Ok (Some (stamped "Assistant" "newest answer" 40))
  /\ later_first (stamped "Assistant" "newest answer" 40) (stamped "assistant" "older answer" 10).
Proof.
  split; [reflexivity|].
  apply (proj1 (proj2 (proj2 (proj2 (latestAssistant_choice stamped_thread))))
           (stamped "Assistant" "newest answer" 40)).
  - reflexivity.
  - reflexivity.
  - simpl. right; left; reflexivity.
  - reflexivity.
Defined.

(** Without a stamp on the first item the first assistant message of the
    list is chosen, not the last. *)
Lemma latestAssistant_takes_first_unstamped :
  first_is_stamped unstamped_thread = false
  /\ latestAssistant unstamped_thread = Ok (Some (said "assistant" "first answer"))
  /\ latest_claimed unstamped_thread = Ok (Some (said "assistant" "second answer"))
  /\ latestAssistant unstamped_thread <> latest_claimed unstamped_thread.
Proof. repeat split; try reflexivity. discriminate. Qed.

(** ** The turn lock *)

Lemma begin_turn_None text c :
  begin_turn text c = None <-> trim text = [] \/ sending c = true.
Proof.
  unfold begin_turn. destruct (trim text) as [|x t]; [tauto|].
  destruct (sending c); split; try tauto; try discriminate.
  intros [H|H]; discriminate.
Qed.

Lemma begin_turn_Some text c c' :
  begin_turn text c = Some c' ->
  sending c = false /\ sending c' = true
  /\ pendingFeedback c' = pendingFeedback c /\ threadId c' = threadId c
  /\ forms_rendered c' = forms_rendered c
  /\ filter is_rating_form (transcript c') = filter is_rating_form (transcript c).
Proof.
  unfold begin_turn. destruct (trim text) as [|x t]; [discriminate|].
  destruct (sending c) eqn:S; [discriminate|].
  intros H; injection H as <-.
  destruct (shouldSkipUserBubble text); cbn; repeat split;
    rewrite ?filter_app; cbn; rewrite ?app_nil_r; reflexivity.
Qed.

Lemma conclude_unlocks b c' : conclude b = Ended c' -> sending c' = false.
Proof.
  destruct b; cbn [conclude]; try discriminate; intros H; injection H as <-; reflexivity.
Qed.

Lemma end_turn_unlocks fresh a c c' : end_turn fresh a c = Ended c' -> sending c' = false.
Proof. unfold end_turn. apply conclude_unlocks. Qed.

Lemma end_turn_failure fresh a c e c1 :
  turn_body fresh a c = Failed e c1 ->
  end_turn fresh a c = Ended (finally (catch_error e c1))
  /\ transcript (finally (catch_error e c1)) = settled (transcript c1) ++ [error_row e]
  /\ sending (finally (catch_error e c1)) = false.
Proof. intros H. unfold end_turn. rewrite H. repeat split. Qed.

(** The start of the run leaves the rows of the pane alone. *)
Lemma open_run_rows fresh a c c1 status :
  open_run fresh a c = Ok (c1, status) ->
  transcript c1 = transcript c /\ sending c1 = sending c
  /\ pendingFeedback c1 = pendingFeedback c /\ forms_rendered c1 = forms_rendered c.
Proof.
  unfold open_run. destruct fresh.
  - destruct (created a) as [r|]; [|discriminate]. cbn [rbind].
    destruct r; try discriminate; intros H; injection H as <- _; repeat split.
  - destruct (appended a); [|discriminate]. destruct (started a); [|discriminate].
    cbn [rbind]. intros H; injection H as <- _; repeat split.
Qed.

Lemma settled_hideTyping c : settled (transcript (hideTyping c)) = settled (transcript c).
Proof.
  unfold settled, hideTyping. cbn [transcript set_transcript].
  induction (transcript c) as [|b l IH]; [reflexivity|].
  cbn [filter]. destruct (negb (is_typing b)) eqn:E; cbn [filter]; rewrite ?E, IH; reflexivity.
Qed.

(** A failure of the rest of the body leaves the rows of the pane as they
    were, the typing indicator apart. *)
Lemma follow_run_failure_rows status a c e c1 :
  follow_run status a c = Failed e c1 -> settled (transcript c1) = settled (transcript c).
Proof.
  unfold follow_run. destruct (poll status (polled a) 0); try discriminate.
  - destruct (listed a) as [list|].
    + destruct (renderLatestAssistant list (hideTyping c)); [discriminate|].
      intros H; injection H as _ <-. apply settled_hideTyping.
    + intros H; injection H as _ <-. reflexivity.
  - intros H; injection H as _ <-. reflexivity.
Qed.

(** A failure of the body leaves the rows of the pane as they were when the
    turn began, the typing indicator apart. *)
Lemma turn_body_failure_rows fresh a c e c1 :
  turn_body fresh a c = Failed e c1 -> settled (transcript c1) = settled (transcript c).
Proof.
  unfold turn_body. destruct (open_run fresh a c) as [[c0 status]|e0] eqn:R.
  - destruct (open_run_rows _ _ _ _ _ R) as [T _]. intros H.
    rewrite (follow_run_failure_rows _ _ _ _ _ H), T. reflexivity.
  - intros H; injection H as _ <-. reflexivity.
Qed.

(** The body is left waiting only by a polling loop whose answers ran out. *)
Lemma follow_run_waiting status a c n c1 :
  follow_run status a c = Waiting n c1 ->
  exists st, poll status (polled a) 0 = PollPending st n.
Proof.
  unfold follow_run. destruct (poll status (polled a) 0) as [st k|e k|st k] eqn:P.
  - destruct (listed a) as [list|]; [|discriminate].
    destruct (renderLatestAssistant list (hideTyping c)); discriminate.
  - discriminate.
  - intros H; injection H as <- _. exists st. reflexivity.
Qed.

Lemma turn_body_waiting fresh a c n c1 :
  turn_body fresh a c = Waiting n c1 ->
  exists c0 status st,
    open_run fresh a c = Ok (c0, status)
    /\ poll status (polled a) 0 = PollPending st n.
Proof.
  unfold turn_body. destruct (open_run fresh a c) as [[c0 status]|e0]; [|discriminate].
  intros H. destruct (follow_run_waiting _ _ _ _ _ H) as [st P].
  exists c0, status, st. split; [reflexivity | exact P].
Qed.

(** A loop left pending stands at a status that is not terminal. *)
Lemma poll_pending_status script : forall status k st n,
  poll status script k = PollPending st n -> terminal_has st = false.
Proof.
  induction script as [|r script IH]; intros status k st n; cbn [poll].
  - destruct (terminal_has status) eqn:T; [discriminate|].
    intros H; injection H as <- _. exact T.
  - destruct (terminal_has status); [discriminate|].
    destruct r as [v|]; [|discriminate].
    destruct (is_literal (prop v "status") "requires_action"); [discriminate|].
    apply IH.
Qed.

Lemma after_rating_sending id c : sending (after_rating id c) = sending c.
Proof. reflexivity. Qed.

Lemma land_lock f c : sending c = false -> lock_agrees (land f [] c).
Proof. intros S. left. cbn. split; [reflexivity|]. destruct (owner f); exact S. Qed.

Lemma step_lock ev s s' : lock_agrees s -> step ev s = Some s' -> lock_agrees s'.
Proof.
  intros I. destruct ev as [text | id n | a | a |]; cbn [step].
  - destruct (begin_turn text (ui s)) as [c|] eqn:B.
    + intros H; injection H as <-. apply begin_turn_Some in B. destruct B as [S0 [S1 _]].
      destruct I as [[F _] | [f [_ S]]]; [|congruence].
      right. eexists. unfold start_flight; cbn. rewrite F. split; [reflexivity | exact S1].
    + intros H; injection H as <-. exact I.
  - destruct (existsb (is_form id) (transcript (ui s)) && Nat.leb 1 n && Nat.leb n 5);
      [|discriminate].
    destruct (begin_turn (rating_text n) (addMsg (rating_bubble n) (ui s))) as [c|] eqn:B.
    + intros H; injection H as <-. apply begin_turn_Some in B. destruct B as [S0 [S1 _]].
      cbn in S0. destruct I as [[F _] | [f [_ S]]]; [|congruence].
      right. eexists. unfold start_flight; cbn. rewrite F. split; [reflexivity | exact S1].
    + intros H; injection H as <-. exact I.
  - destruct (flights s) as [|f rest] eqn:F; [discriminate|].
    destruct I as [[F' _] | [f' [F' S]]]; [congruence|].
    assert (rest = []) by congruence. subst rest.
    destruct (first_status f); [discriminate|].
    destruct (open_run (fresh_thread f) a (ui s)) as [[c status]|e] eqn:R.
    + intros H; injection H as <-. right. eexists. cbn. split; [reflexivity|].
      destruct (open_run_rows _ _ _ _ _ R) as (_ & S1 & _). rewrite S1. exact S.
    + intros H; injection H as <-. apply land_lock. reflexivity.
  - destruct (flights s) as [|f rest] eqn:F; [discriminate|].
    destruct I as [[F' _] | [f' [F' _]]]; [congruence|].
    assert (rest = []) by congruence. subst rest.
    destruct (first_status f) as [status|]; [|discriminate].
    destruct (conclude (follow_run status a (ui s))) as [c|] eqn:E; [|discriminate].
    intros H; injection H as <-. apply land_lock. exact (conclude_unlocks _ _ E).
  - intros H; injection H as <-. exact I.
Qed.

Lemma run_lock evs : forall s s', lock_agrees s -> run evs s = Some s' -> lock_agrees s'.
Proof.
  induction evs as [|ev evs IH]; intros s s' I; cbn [run].
  - intros H; injection H as <-. exact I.
  - destruct (step ev s) as [s1|] eqn:E; [|discriminate].
    apply IH. eapply step_lock; eassumption.
Qed.

Lemma reachable_lock s : reachable s -> lock_agrees s.
Proof.
  intros [evs R]. apply (run_lock evs boot s); [left; split; reflexivity | exact R].
Qed.

(** C8.  A call of [sendMessage] starts a turn unless the text is blank or
    the lock is held, and a turn it starts holds the lock.  In every state the
    client can reach, whatever the order of the sends, the clicks, the presses
    of the new-chat button and the answers of the proxy, at most one turn is in
    flight, and the lock is held exactly while one is.  Every turn that ends
    ends with the lock free.  A turn whose body throws ends, with the rows it
    found, the typing indicator gone, followed by one bubble for the error,
    which says Sorry, I hit an error and, for an error made with a message,
    that message.  A turn whose body runs to its end without an exception ends
    too, with the page the body left and the lock free.  The one way for a
    turn not to have ended is that its run is still being polled: the answers
    of [getRun] so far leave the status short of the terminal ones.  And the
    answer that ends a turn in flight leaves no turn in flight and the lock
    free: the turn in flight on a page the client can reach either ends so,
    at the start of its run by an exception or at its end, or goes on with the
    lock held. *)
Theorem turn_lock :
  (forall text c, begin_turn text c = None <-> trim text = [] \/ sending c = true)
  /\ (forall text c c', begin_turn text c = Some c' -> sending c' = true)
  /\ (forall s, reachable s ->
        List.length (flights s) <= 1
        /\ (sending (ui s) = true <-> flights s <> []))
  /\ (forall fresh a c c', end_turn fresh a c = Ended c' -> sending c' = false)
  /\ (forall text a c c', sendMessage text a c = Some (Ended c') -> sending c' = false)
  /\ (forall fresh a c e c1,
        turn_body fresh a c = Failed e c1 ->
        exists c' b,
          end_turn fresh a c = Ended c'
          /\ sending c' = false
          /\ transcript c' = settled (transcript c) ++ [b]
          /\ (forall x msg, e = Exn (x :: msg) ->
                b = AssistantBubble (error_heading ++ x :: msg))
          /\ (e = Exn [] -> b = AssistantBubble (error_heading ++ str "Error")))
  /\ (forall fresh a c c2,
        turn_body fresh a c = Done c2 ->
        exists c',
          end_turn fresh a c = Ended c'
          /\ sending c' = false
          /\ transcript c' = transcript c2
          /\ threadId c' = threadId c2
          /\ pendingFeedback c' = pendingFeedback c2)
  /\ (forall fresh a c,
        (exists c', end_turn fresh a c = Ended c' /\ sending c' = false)
        \/ (exists c1 status st n,
              open_run fresh a c = Ok (c1, status)
              /\ poll status (polled a) 0 = PollPending st n
              /\ terminal_has st = false
              /\ end_turn fresh a c = StillPolling n))
  /\ (forall s a s',
        reachable s -> step (Answered a) s = Some s' ->
        flights s' = [] /\ sending (ui s') = false)
  /\ (forall s a f,
        reachable s -> flights s = [f] -> first_status f = None ->
        exists s',
          step (Started a) s = Some s'
          /\ ((flights s' = [] /\ sending (ui s') = false)
              \/ (exists st,
                    flights s' = [{| fresh_thread := fresh_thread f; owner := owner f;
                                     first_status := Some st |}]
                    /\ sending (ui s') = true)))
  /\ (forall s a f status,
        reachable s -> flights s = [f] -> first_status f = Some status ->
        (exists s',
           step (Answered a) s = Some s' /\ flights s' = [] /\ sending (ui s') = false)
        \/ (exists st n,
              poll status (polled a) 0 = PollPending st n
              /\ terminal_has st = false
              /\ step (Answered a) s = None)).
Proof.
  split; [exact begin_turn_None|].
  split; [intros text c c' H; apply (begin_turn_Some _ _ _ H)|].
  split; [|split; [exact end_turn_unlocks|split; [|split; [|split; [|split; [|split; [|split]]]]]]].
  - intros s R. pose proof (reachable_lock s R) as I.
    destruct I as [[F S] | [f [F S]]]; rewrite F, S; cbn; split; try lia.
    + split; [discriminate | congruence].
    + split; [discriminate | reflexivity].
  - intros text a c c'. unfold sendMessage. destruct (begin_turn text c); [|discriminate].
    intros H; injection H as H. eapply end_turn_unlocks; exact H.
  - intros fresh a c e c1 H. destruct (end_turn_failure _ _ _ _ _ H) as [E [T S]].
    eexists _, (error_row e). split; [exact E|]. split; [exact S|]. split.
    + rewrite T, (turn_body_failure_rows _ _ _ _ _ H). reflexivity.
    + split; intros; subst e; reflexivity.
  - intros fresh a c c2 H. exists (finally c2). unfold end_turn. rewrite H.
    repeat split.
  - intros fresh a c. destruct (end_turn fresh a c) as [c'|n] eqn:E.
    + left. exists c'. split; [reflexivity | exact (end_turn_unlocks _ _ _ _ E)].
    + right. unfold end_turn in E.
      destruct (turn_body fresh a c) as [c2|e c2|k c2] eqn:B; try discriminate E.
      cbn [conclude] in E. injection E as ->.
      destruct (turn_body_waiting _ _ _ _ _ B) as (c0 & status & st & R & P).
      exists c0, status, st, n. repeat split; try assumption.
      exact (poll_pending_status _ _ _ _ _ P).
  - intros s a s' R. pose proof (reachable_lock s R) as I. cbn [step].
    destruct (flights s) as [|f rest] eqn:F; [discriminate|].
    destruct I as [[F' _] | [f' [F' _]]]; [congruence|].
    assert (rest = []) by congruence. subst rest.
    destruct (first_status f) as [status|]; [|discriminate].
    destruct (conclude (follow_run status a (ui s))) as [c|] eqn:E; [|discriminate].
    intros H; injection H as <-. cbn [land flights ui]. split; [reflexivity|].
    pose proof (conclude_unlocks _ _ E) as S.
    destruct (owner f); exact S.
  - intros s a f R F N. pose proof (reachable_lock s R) as I.
    destruct I as [[F' _] | [f' [F' S]]]; [congruence|].
    cbn [step]. rewrite F, N.
    destruct (open_run (fresh_thread f) a (ui s)) as [[c status]|e] eqn:O.
    + eexists. split; [reflexivity|]. right. exists status. cbn [flights ui].
      split; [reflexivity|]. destruct (open_run_rows _ _ _ _ _ O) as (_ & S1 & _).
      rewrite S1. exact S.
    + eexists. split; [reflexivity|]. left. cbn [land flights ui].
      split; [reflexivity|]. destruct (owner f); reflexivity.
  - intros s a f status R F N. cbn [step]. rewrite F, N.
    destruct (follow_run status a (ui s)) as [c2|e c2|n c2] eqn:B; cbn [conclude].
    + left. eexists. split; [reflexivity|]. cbn [land flights ui].
      split; [reflexivity|]. destruct (owner f); reflexivity.
    + left. eexists. split; [reflexivity|]. cbn [land flights ui].
      split; [reflexivity|]. destruct (owner f); reflexivity.
    + right. destruct (follow_run_waiting _ _ _ _ _ B) as [st P].
      exists st, n. split; [exact P|]. split; [|reflexivity].
      exact (poll_pending_status _ _ _ _ _ P).
Qed.

Lemma turn_lock_witness :
  let c := {| threadId := VNull; sending := true; pendingFeedback := false;
              transcript := [UserBubble (str "hi"); TypingBubble]; forms_rendered := 0 |} in
  (exists c',
     end_turn true answers_failing c = Ended c'
     /\ sending c' = false
     /\ transcript c'
        = [UserBubble (str "hi");
           AssistantBubble (str "**Sorry " ++ [0x2014%N] ++ str " I hit an error:**"
                            ++ [LF; LF] ++ str "Upstream error")])
  /\ (exists c',
        end_turn true answers_with_marker c = Ended c'
        /\ sending c' = false
        /\ transcript c' = [UserBubble (str "hi"); AssistantBubble (str "Great, thanks!");
                            RatingForm 0]
        /\ threadId c' = vstr "thread_1").
Proof.
  cbv zeta. split.
  - destruct (proj1 (proj2 (proj2 (proj2 (proj2 (proj2 turn_lock))))) true answers_failing
                {| threadId := VNull; sending := true; pendingFeedback := false;
                   transcript := [UserBubble (str "hi"); TypingBubble]; forms_rendered := 0 |}
                (Exn (str "Upstream error"))
                {| threadId := VNull; sending := true; pendingFeedback := false;
                   transcript := [UserBubble (str "hi"); TypingBubble]; forms_rendered := 0 |}
                eq_refl) as (c' & b & E & S & T & M & _).
    exists c'. split; [exact E|]. split; [exact S|].
    rewrite T, (M _ _ eq_refl). reflexivity.
  - destruct (turn_body true answers_with_marker
                {| threadId := VNull; sending := true; pendingFeedback := false;
                   transcript := [UserBubble (str "hi"); TypingBubble]; forms_rendered := 0 |})
      as [c2|e c2|n c2] eqn:B; try (vm_compute in B; discriminate B).
    destruct (proj1 (proj2 (proj2 (proj2 (proj2 (proj2 (proj2 turn_lock)))))) true
                answers_with_marker _ c2 B) as (c' & E & S & T & I & _).
    exists c'. split; [exact E|]. split; [exact S|].
    assert (B' := B). vm_compute in B'. injection B' as <-.
    split; [exact T | exact I].
Defined.

(** ** The rating forms *)

Lemma rating_forms_app_form c id :
  filter is_rating_form (transcript c ++ [RatingForm id])
  = rating_forms c ++ [RatingForm id].
Proof. unfold rating_forms. rewrite filter_app. reflexivity. Qed.

(** What a rendering adds to the pane: the cleaned text of the chosen message
    when it is not empty, and a rating form when the marker was found and no
    rating is pending.  The text shown does not depend on the flag. *)
Lemma renderLatestAssistant_rows items c c' m :
  latestAssistant items = Ok (Some m) ->
  renderLatestAssistant items c = Ok c' ->
  let r := stripFeedbackPrompt (extractAssistantText (content m)) in
  transcript c' = transcript c ++ shown (fst r)
                  ++ (if snd r && negb (pendingFeedback c)
                      then [RatingForm (forms_rendered c)] else [])
  /\ pendingFeedback c' = pendingFeedback c || snd r.
Proof.
  intros L. unfold renderLatestAssistant. destruct items as [|i items]; [discriminate L|].
  rewrite L. cbn [rbind]. cbv zeta.
  destruct (stripFeedbackPrompt (extractAssistantText (content m))) as [cleaned found].
  cbn [fst snd]. intros H; injection H as <-.
  destruct cleaned as [|x t]; destruct found; destruct (pendingFeedback c) eqn:P;
    cbn; rewrite ?P; cbn; rewrite ?P, ?app_nil_r, <- ?app_assoc; split; reflexivity.
Qed.

(** While a rating is pending a rendering opens no form, and any rendering
    opens one form at most. *)
Lemma renderLatestAssistant_forms items c c' :
  renderLatestAssistant items c = Ok c' ->
  (pendingFeedback c = true -> rating_forms c' = rating_forms c /\ pendingFeedback c' = true)
  /\ List.length (rating_forms c') <= S (List.length (rating_forms c)).
Proof.
  unfold renderLatestAssistant. destruct items as [|i items].
  - intros H; injection H as <-. unfold rating_forms. cbn. rewrite filter_app. cbn.
    rewrite app_nil_r. split; [intros ->; split; reflexivity | lia].
  - destruct (latestAssistant (i :: items)) as [[m|]|]; cbn [rbind]; [| |discriminate].
    + cbv zeta.
      destruct (stripFeedbackPrompt (extractAssistantText (content m))) as [cleaned found].
      cbn [fst snd]. intros H; injection H as <-. unfold rating_forms.
      destruct cleaned as [|x t]; destruct found; destruct (pendingFeedback c) eqn:P;
        cbn; rewrite ?P; cbn; rewrite ?P, ?filter_app; cbn; rewrite ?app_nil_r, ?length_app; cbn;
        (split; [intros; try discriminate; split; reflexivity | lia]).
    + intros H; injection H as <-. unfold rating_forms. cbn. rewrite filter_app. cbn.
      rewrite app_nil_r. split; [intros ->; split; reflexivity | lia].
Qed.

(** C7 at the input where the code leaves it.  After the events of
    [double_click] two rating forms stand in the pane together. *)
Theorem two_rating_forms_reachable :
  exists s,
    run double_click boot = Some s
    /\ reachable s
    /\ rating_forms (ui s) = [RatingForm 1; RatingForm 2]
    /\ flights s = [].
Proof.
  eexists. split; [vm_compute; reflexivity|].
  split; [exists double_click; vm_compute; reflexivity|].
  split; reflexivity.
Qed.

(** ** The feedback marker *)





Lemma skip_spaces_digit c rest : is_white_space c = false -> skip_spaces (c :: rest) = c :: rest.
Proof. intros H. unfold skip_spaces. cbn. rewrite H. reflexivity. Qed.















Lemma unit_before_cons prev c pre :
  unit_before prev (c :: pre) = unit_before (Some c) pre.
Proof. reflexivity. Qed.



Lemma quiet_app m pre : forall prev s,
  quiet m prev (pre ++ s) -> quiet m (unit_before prev pre) s.
Proof.
  induction pre as [|c pre IH]; intros prev s Q; [exact Q|].
  rewrite unit_before_cons. apply IH. apply Q.
Qed.



Lemma normalise_normal text : normal text -> normalise text = text.
Proof.
  intros [Q1 [Q2 T]]. unfold normalise.
  rewrite (replace_all_quiet _ _ _ Q1), (replace_all_quiet _ _ _ Q2). exact T.
Qed.

(** *** Texts of several lines *)
































(** The scenario of the specification: the line of the marker goes, the rest
    stays. *)
Example stripFeedbackPrompt_scenario :
  stripFeedbackPrompt (str "Great, thanks!" ++ [LF; LF] ++ str "feedback 1 to 5 please")
  = (str "Great, thanks!", true).
Proof. reflexivity. Qed.

(** Where a phrase runs over a line feed, the cuts of the first pass may
    bring one together, which the second pass takes; what the cuts of the
    second pass bring together stays in the text. *)
Example stripFeedbackPrompt_across_lines :
  stripFeedbackPrompt (str "feedback" ++ [LF] ++ str "X feedback 1 to 5" ++ [LF] ++ str "1 to 5")
  = ([], true)
  /\ stripFeedbackPrompt (str "feedback 1 feedback" ++ [LF] ++ str "Z feedback 1-5" ++ [LF]
                          ++ str "1 to 5 to 5")
     = (str "feedback 1 to 5", true).
Proof. split; reflexivity. Qed.

(* ===================================================================== *)
(** * Part II, continued. Properties of the rest of the program           *)
(* ===================================================================== *)

(** ** Configuration and start-up *)

Lemma trim_cons_trimmed c t s : trim s = c :: t -> trim (c :: t) = c :: t.
Proof. intros H. rewrite <- H. apply trim_idem. Qed.

Lemma readEnv_None env keys :
  Config.readEnv env keys = None <-> Forall (Config.unusable env) keys.
Proof.
  induction keys as [|k rest IH]; cbn [Config.readEnv].
  - split; [constructor | reflexivity].
  - unfold Config.unusable at 1.
    destruct (env (str k)) as [raw|] eqn:E.
    + destruct (trim raw) as [|c t] eqn:T.
      * rewrite IH. split.
        -- intros H. constructor; [unfold Config.unusable; rewrite E; exact T | exact H].
        -- intros H. inversion H; assumption.
      * split; [discriminate|].
        intros H. inversion H as [|? ? Hk _]. unfold Config.unusable in Hk.
        rewrite E, T in Hk. discriminate.
    + rewrite IH. split.
      * intros H. constructor; [unfold Config.unusable; rewrite E; exact I | exact H].
      * intros H. inversion H; assumption.
Qed.

Lemma readEnv_Some env keys v :
  Config.readEnv env keys = Some v ->
  exists pre k post raw,
    keys = pre ++ k :: post /\ Forall (Config.unusable env) pre
    /\ env (str k) = Some raw /\ trim raw = v /\ v <> [].
Proof.
  induction keys as [|k rest IH]; cbn [Config.readEnv]; [discriminate|].
  destruct (env (str k)) as [raw|] eqn:E.
  - destruct (trim raw) as [|c t] eqn:T.
    + intros H. destruct (IH H) as (pre & k' & post & raw' & -> & Hpre & Hk & Hv & Hne).
      exists (k :: pre), k', post, raw'. repeat split; try assumption.
      constructor; [unfold Config.unusable; rewrite E; exact T | exact Hpre].
    + intros H. injection H as <-.
      exists [], k, rest, raw. repeat split; try assumption; [constructor | discriminate].
  - intros H. destruct (IH H) as (pre & k' & post & raw' & -> & Hpre & Hk & Hv & Hne).
    exists (k :: pre), k', post, raw'. repeat split; try assumption.
    constructor; [unfold Config.unusable; rewrite E; exact I | exact Hpre].
Qed.

(** X1. [readEnv] answers the trimmed value of the first of its keys that is
    set to something other than white space, and that answer is never empty;
    it answers undefined exactly when every key is unset or blank. *)
Theorem readEnv_first_usable (env : Config.environment) (keys : list string) :
  match Config.readEnv env keys with
  | Some v =>
      v <> [] /\ trim v = v
      /\ exists pre k post raw,
           keys = pre ++ k :: post /\ Forall (Config.unusable env) pre
           /\ env (str k) = Some raw /\ trim raw = v
  | None => Forall (Config.unusable env) keys
  end.
Proof.
  destruct (Config.readEnv env keys) as [v|] eqn:E.
  - destruct (readEnv_Some env keys v E) as (pre & k & post & raw & Hk & Hpre & Hr & Ht & Hne).
    split; [exact Hne|]. split.
    + rewrite <- Ht. apply trim_idem.
    + exists pre, k, post, raw. repeat split; assumption.
  - apply readEnv_None. exact E.
Qed.

Lemma readEnv_unset env keys :
  Config.unset (Config.readEnv env keys) = true <-> Config.readEnv env keys = None.
Proof.
  destruct (Config.readEnv env keys) as [[|c t]|] eqn:E; cbn.
  - apply readEnv_Some in E. destruct E as (? & ? & ? & ? & _ & _ & _ & _ & Hne).
    now destruct Hne.
  - split; discriminate.
  - split; reflexivity.
Qed.

Lemma readEnv_usable env keys :
  Config.unset (Config.readEnv env keys) = false -> Config.usable (Config.readEnv env keys).
Proof.
  destruct (Config.readEnv env keys) as [v|] eqn:E; [|discriminate].
  intros _. apply readEnv_Some in E.
  destruct E as (? & ? & ? & raw & _ & _ & _ & Ht & Hne).
  exists v. repeat split; [exact Hne|]. rewrite <- Ht. apply trim_idem.
Qed.

(** X2. The server listens only when each of the five required settings is
    given by one of its keys as a text that is not blank, and then holds them
    trimmed; otherwise the process exits with code 1 and prints exactly the
    names of the settings none of whose keys is usable.  The scope is never
    empty. *)
Theorem startup_needs_every_setting (env : Config.environment) :
  match Config.startup env with
  | Config.Listening s =>
      s = Config.read_settings env
      /\ Config.usable (Config.TENANT_ID s)
      /\ Config.usable (Config.CLIENT_ID s)
      /\ Config.usable (Config.CLIENT_SECRET s)
      /\ Config.usable (Config.PROJECT_ENDPOINT s)
      /\ Config.usable (Config.ASSISTANT_ID s)
      /\ Config.AGENT_SCOPE s <> []
  | Config.Exit code names =>
      code = 1%Z /\ names <> []
      /\ forall n, In n names <->
                   exists keys, In (n, keys) Config.required
                                /\ Config.readEnv env keys = None
  end.
Proof.
  assert (Scope : Config.AGENT_SCOPE (Config.read_settings env) <> []).
  { cbn [Config.read_settings Config.AGENT_SCOPE].
    destruct (Config.readEnv env ["AGENT_SCOPE"; "AZURE_AGENT_SCOPE"]%string) as [[|c t]|];
      discriminate. }
  unfold Config.startup, Config.missing; cbv zeta.
  cbn [Config.read_settings Config.TENANT_ID Config.CLIENT_ID Config.CLIENT_SECRET
       Config.PROJECT_ENDPOINT Config.ASSISTANT_ID].
  pose proof (readEnv_unset env ["AZURE_TENANT_ID"; "TENANT_ID"]%string) as U1.
  pose proof (readEnv_unset env ["AZURE_CLIENT_ID"; "CLIENT_ID"]%string) as U2.
  pose proof (readEnv_unset env ["AZURE_CLIENT_SECRET"; "CLIENT_SECRET"]%string) as U3.
  pose proof (readEnv_unset env ["PROJECT_ENDPOINT"]%string) as U4.
  pose proof (readEnv_unset env ["ASSISTANT_ID"]%string) as U5.
  pose proof (readEnv_usable env ["AZURE_TENANT_ID"; "TENANT_ID"]%string) as V1.
  pose proof (readEnv_usable env ["AZURE_CLIENT_ID"; "CLIENT_ID"]%string) as V2.
  pose proof (readEnv_usable env ["AZURE_CLIENT_SECRET"; "CLIENT_SECRET"]%string) as V3.
  pose proof (readEnv_usable env ["PROJECT_ENDPOINT"]%string) as V4.
  pose proof (readEnv_usable env ["ASSISTANT_ID"]%string) as V5.
  destruct (Config.unset (Config.readEnv env ["AZURE_TENANT_ID"; "TENANT_ID"]%string));
  destruct (Config.unset (Config.readEnv env ["AZURE_CLIENT_ID"; "CLIENT_ID"]%string));
  destruct (Config.unset (Config.readEnv env ["AZURE_CLIENT_SECRET"; "CLIENT_SECRET"]%string));
  destruct (Config.unset (Config.readEnv env ["PROJECT_ENDPOINT"]%string));
  destruct (Config.unset (Config.readEnv env ["ASSISTANT_ID"]%string));
  cbn [app].
  32: { repeat split; auto. }
  all: split; [reflexivity|]; split; [discriminate|]; intros n; split;
    [ intros Hin; cbn [In] in Hin;
      repeat (destruct Hin as [<- | Hin];
              [eexists; split;
               [cbn; eauto 6
               | first [apply U1 | apply U2 | apply U3 | apply U4 | apply U5]; reflexivity]|]);
      destruct Hin
    | intros (keys & Hin & Hnone); cbn [In Config.required] in Hin;
      repeat (destruct Hin as [Hin | Hin];
              [injection Hin as <- <-; cbn [In]; auto 6;
               first [apply U1 in Hnone | apply U2 in Hnone | apply U3 in Hnone
                     | apply U4 in Hnone | apply U5 in Hnone]; discriminate Hnone|]);
      destruct Hin ].
Qed.

Lemma startup_listening env s :
  Config.startup env = Config.Listening s ->
  s = Config.read_settings env
  /\ Config.unset (Config.TENANT_ID s) = false
  /\ Config.unset (Config.CLIENT_ID s) = false
  /\ Config.unset (Config.CLIENT_SECRET s) = false
  /\ Config.unset (Config.PROJECT_ENDPOINT s) = false
  /\ Config.unset (Config.ASSISTANT_ID s) = false
  /\ Config.nonempty (Config.AGENT_SCOPE s) = true.
Proof.
  unfold Config.startup, Config.missing. cbv zeta.
  destruct (Config.unset (Config.TENANT_ID (Config.read_settings env))) eqn:U1;
  destruct (Config.unset (Config.CLIENT_ID (Config.read_settings env))) eqn:U2;
  destruct (Config.unset (Config.CLIENT_SECRET (Config.read_settings env))) eqn:U3;
  destruct (Config.unset (Config.PROJECT_ENDPOINT (Config.read_settings env))) eqn:U4;
  destruct (Config.unset (Config.ASSISTANT_ID (Config.read_settings env))) eqn:U5;
  cbn [app]; try discriminate.
  intros H. injection H as <-. repeat split; try assumption.
  cbn [Config.read_settings Config.AGENT_SCOPE].
  destruct (Config.readEnv env ["AGENT_SCOPE"; "AZURE_AGENT_SCOPE"]%string) as [[|c t]|];
    reflexivity.
Qed.

(** ** The allowed origins *)

Lemma split_nonempty sep s : Config.split sep s <> [].
Proof.
  destruct s as [|c s]; cbn; [discriminate|].
  destruct (char_eqb c sep); [discriminate|].
  destruct (Config.split sep s); discriminate.
Qed.

(** The pieces joined by the separator give the text back. *)
Lemma split_join sep s : join [sep] (Config.split sep s) = s.
Proof.
  induction s as [|c s IH]; [reflexivity|].
  cbn [Config.split]. destruct (char_eqb c sep) eqn:Ec.
  - apply char_eqb_eq in Ec. subst c.
    pose proof (split_nonempty sep s) as Hne.
    destruct (Config.split sep s) as [|p ps] eqn:Es; [contradiction|].
    change (join [sep] ([] :: p :: ps)) with ([] ++ [sep] ++ join [sep] (p :: ps)).
    rewrite IH. reflexivity.
  - pose proof (split_nonempty sep s) as Hne.
    destruct (Config.split sep s) as [|p ps] eqn:Es; [contradiction|].
    destruct ps as [|q qs].
    + cbn in IH |- *. rewrite IH. reflexivity.
    + change (join [sep] ((c :: p) :: q :: qs)) with (c :: (p ++ [sep] ++ join [sep] (q :: qs))).
      change (join [sep] (p :: q :: qs)) with (p ++ [sep] ++ join [sep] (q :: qs)) in IH.
      rewrite IH. reflexivity.
Qed.

Lemma split_no_sep sep s : Forall (fun p => ~ In sep p) (Config.split sep s).
Proof.
  induction s as [|c s IH]; cbn [Config.split].
  - constructor; [intros [] | constructor].
  - destruct (char_eqb c sep) eqn:Ec.
    + constructor; [intros [] | exact IH].
    + destruct (Config.split sep s) as [|p ps]; [constructor; [|constructor]|].
      * intros [<- | []]. rewrite char_eqb_refl in Ec. discriminate.
      * inversion IH as [|? ? Hp Hps]. constructor; [|exact Hps].
        intros [<- | Hin]; [rewrite char_eqb_refl in Ec; discriminate | exact (Hp Hin)].
Qed.

Lemma trim_In c s : In c (trim s) -> In c s.
Proof.
  intros H. destruct (trim_split s) as (a & b & E & _ & _).
  rewrite E. apply in_or_app. right. apply in_or_app. left. exact H.
Qed.

(** X3. When ALLOW_ORIGIN is set, the origins handed to the CORS filter are
    the pieces of its value between commas, trimmed, the blank pieces left
    out: each is a non-empty trimmed text with no comma in it (the pieces
    joined by commas are the value itself).  When it is not set, the only
    rule is the one for localhost with a port. *)
Theorem cors_origin_clean (s : Config.settings) :
  match Config.ALLOW_ORIGIN s with
  | Some (c :: a) =>
      (forall r, In r (Config.cors_origin s) ->
         exists o, r = Config.Origin o /\ o <> [] /\ trim o = o /\ ~ In Config.COMMA o)
      /\ (forall o, In (Config.Origin o) (Config.cors_origin s) <->
            o <> [] /\ exists piece, In piece (Config.split Config.COMMA (c :: a))
                                     /\ trim piece = o)
      /\ join [Config.COMMA] (Config.split Config.COMMA (c :: a)) = c :: a
  | _ => Config.cors_origin s = [Config.LocalhostAnyPort]
  end.
Proof.
  unfold Config.cors_origin.
  destruct (Config.ALLOW_ORIGIN s) as [[|c a]|]; try reflexivity.
  assert (Mem : forall o,
    In (Config.Origin o)
       (map Config.Origin
          (filter Config.nonempty (map trim (Config.split Config.COMMA (c :: a)))))
    <-> o <> [] /\ exists piece, In piece (Config.split Config.COMMA (c :: a))
                                 /\ trim piece = o).
  { intros o. rewrite in_map_iff. split.
    - intros (o' & E & Hin). injection E as ->.
      apply filter_In in Hin. destruct Hin as [Hin Hne].
      apply in_map_iff in Hin. destruct Hin as (piece & Ht & Hp).
      split; [destruct o; [discriminate Hne | discriminate]|].
      exists piece. split; assumption.
    - intros (Hne & piece & Hp & Ht).
      exists o. split; [reflexivity|]. apply filter_In. split.
      + apply in_map_iff. exists piece. split; assumption.
      + destruct o; [contradiction | reflexivity]. }
  split; [|split; [exact Mem | apply split_join]].
  intros r Hr. apply in_map_iff in Hr. destruct Hr as (o & <- & Hin).
  assert (Ho : In (Config.Origin o)
                 (map Config.Origin
                    (filter Config.nonempty
                       (map trim (Config.split Config.COMMA (c :: a))))))
    by (apply in_map; exact Hin).
  apply Mem in Ho. destruct Ho as (Hne & piece & Hp & Ht).
  exists o. repeat split; [exact Hne | rewrite <- Ht; apply trim_idem |].
  intros Hc. rewrite <- Ht in Hc. apply trim_In in Hc.
  pose proof (split_no_sep Config.COMMA (c :: a)) as F.
  rewrite Forall_forall in F. exact (F piece Hp Hc).
Qed.

(** ** The environment probe *)

(** X4. Outside production, the probe GET /api/env-check of a server that is
    listening answers true for each of its six flags: a server that lacks one
    of the five required settings has exited before, and the scope has a
    default.  In production, where NODE_ENV is the word production, the server
    has no such route. *)
Theorem env_check_all_true (env : Config.environment) (s : Config.settings)
  (ENV_PATH : jsstring) (exists_ : bool) :
  Config.startup env = Config.Listening s ->
  (env (str "NODE_ENV") = Some (str "production") ->
   Config.get_env_check env s ENV_PATH exists_ = None)
  /\ (env (str "NODE_ENV") <> Some (str "production") ->
      Config.get_env_check env s ENV_PATH exists_
      = Some (VObject
                [(str "envPath", VString ENV_PATH);
                 (str "exists", VBool exists_);
                 (str "has",
                  VObject [(str "TENANT_ID", VBool true);
                           (str "CLIENT_ID", VBool true);
                           (str "CLIENT_SECRET", VBool true);
                           (str "PROJECT_ENDPOINT", VBool true);
                           (str "ASSISTANT_ID", VBool true);
                           (str "AGENT_SCOPE", VBool true)])])).
Proof.
  intros H. unfold Config.get_env_check, Config.isProd. split.
  - intros ->. reflexivity.
  - intros N.
    assert (P : match env (str "NODE_ENV") with
                | Some v => jsstring_eqb v (str "production")
                | None => false
                end = false).
    { destruct (env (str "NODE_ENV")) as [v|]; [|reflexivity].
      destruct (jsstring_eqb v (str "production")) eqn:E; [|reflexivity].
      apply jsstring_eqb_eq in E. subst v. contradiction. }
    rewrite P.
    destruct (startup_listening env s H) as (_ & U1 & U2 & U3 & U4 & U5 & Sc).
    unfold Config.env_check. rewrite U1, U2, U3, U4, U5, Sc. reflexivity.
Qed.

Lemma env_check_all_true_witness :
  Config.startup Config.sample_env = Config.Listening (Config.read_settings Config.sample_env)
  /\ Config.get_env_check Config.sample_env (Config.read_settings Config.sample_env)
       (str "/srv/.env") false
     = Some (VObject
               [(str "envPath", VString (str "/srv/.env"));
                (str "exists", VBool false);
                (str "has",
                 VObject [(str "TENANT_ID", VBool true);
                          (str "CLIENT_ID", VBool true);
                          (str "CLIENT_SECRET", VBool true);
                          (str "PROJECT_ENDPOINT", VBool true);
                          (str "ASSISTANT_ID", VBool true);
                          (str "AGENT_SCOPE", VBool true)])])
  /\ Config.startup Config.production_env
     = Config.Listening (Config.read_settings Config.production_env)
  /\ Config.get_env_check Config.production_env (Config.read_settings Config.production_env)
       (str "/srv/.env") false
     = None.
Proof.
  split; [reflexivity|]. split.
  - apply (proj2 (env_check_all_true Config.sample_env _ (str "/srv/.env") false eq_refl)).
    discriminate.
  - split; [reflexivity|].
    apply (proj1 (env_check_all_true Config.production_env _ (str "/srv/.env") false eq_refl)).
    reflexivity.
Defined.

(** ** The token cache *)

Section TokenCacheFacts.

Import TokenCache.

Variable JSON_parse : jsstring -> result value.
Variable StringToNumber : jsstring -> number.
Variable encodeURIComponent : jsstring -> result jsstring.

Local Abbreviation Number := (TokenCache.Number StringToNumber).
Local Abbreviation refresh := (TokenCache.refresh JSON_parse StringToNumber encodeURIComponent).
Local Abbreviation getAccessToken :=
  (TokenCache.getAccessToken JSON_parse StringToNumber encodeURIComponent).

(** What a refresh that answers has done. *)
Lemma refresh_Ok c cached net later tok :
  answer (refresh c cached net later) = Ok tok ->
  exists rq resp body data expiresIn,
    requests (refresh c cached net later) = [rq]
    /\ net rq = Ok resp /\ ok resp = true /\ text resp = Ok body
    /\ JSON_parse body = Ok data
    /\ prop data "access_token" = tok /\ truthy tok = true
    /\ Number (or_else (prop data "expires_in") (VNumber 3600)) = Ok expiresIn
    /\ cache (refresh c cached net later)
       = Some {| access_token := tok;
                 expiresAt := plus (Num later)
                                (Math_min (Math_max expiresIn (Num 60)) (Num 86400)) |}.
Proof.
  unfold TokenCache.refresh.
  destruct (encodeURIComponent (TENANT_ID c)) as [tenant|x]; cbn [answer]; [|discriminate].
  cbv zeta.
  destruct (net (token_request c tenant)) as [resp|x] eqn:En; cbn [answer]; [|discriminate].
  destruct (text resp) as [body|x] eqn:Et; cbn [answer]; [|discriminate].
  destruct (ok resp) eqn:Eo; cbn [negb answer]; [|discriminate].
  destruct (TokenCache.read_token JSON_parse StringToNumber later body) as [e|x] eqn:Er;
    cbn [answer cache requests]; [|discriminate].
  intros H. injection H as H.
  unfold TokenCache.read_token in Er.
  destruct (JSON_parse body) as [data|x] eqn:Ep; cbn [rbind] in Er; [|discriminate].
  destruct data; cbn [get rbind] in Er; try discriminate.
  all: match type of Er with
       | context [truthy ?v] => destruct (truthy v) eqn:Tv; cbn [negb] in Er; [|discriminate]
       end.
  all: match type of Er with
       | context [TokenCache.Number ?f ?v] =>
           destruct (TokenCache.Number f v) as [expiresIn|x] eqn:Nv;
             cbn [rbind] in Er; [|discriminate]
       end.
  all: injection Er as <-; cbn [access_token] in H; subst tok.
  all: eexists _, resp, body, _, expiresIn; repeat split;
    try eassumption; try reflexivity.
Qed.

(** What the clamp makes of a lifetime. *)
Lemma clamp_bounds later expiresIn :
  match plus (Num later) (Math_min (Math_max expiresIn (Num 60)) (Num 86400)) with
  | Num x => (later + 60 <= x <= later + 86400)%Z
             /\ exists n, expiresIn = Num n /\ x = (later + Z.min (Z.max n 60) 86400)%Z
  | NaN => expiresIn = NaN
  end.
Proof.
  destruct expiresIn as [n|]; cbn; [|reflexivity].
  split; [lia|]. exists n. split; reflexivity.
Qed.

Lemma refresh_Throw c cached net later x :
  answer (refresh c cached net later) = Throw x ->
  cache (refresh c cached net later) = cached.
Proof.
  unfold TokenCache.refresh.
  destruct (encodeURIComponent (TENANT_ID c)) as [tenant|y]; cbn [answer cache];
    [|reflexivity].
  cbv zeta.
  destruct (net (token_request c tenant)) as [resp|y]; cbn [answer cache]; [|reflexivity].
  destruct (text resp) as [body|y]; cbn [answer cache]; [|reflexivity].
  destruct (ok resp); cbn [negb answer cache]; [|reflexivity].
  destruct (TokenCache.read_token JSON_parse StringToNumber later body) as [e|y];
    cbn [answer cache]; [discriminate | reflexivity].
Qed.

Lemma getAccessToken_stale c now cached net later :
  still_fresh cached now = false ->
  getAccessToken c now cached net later = refresh c cached net later.
Proof.
  unfold TokenCache.getAccessToken. intros H.
  destruct cached as [e|]; [rewrite H|]; reflexivity.
Qed.

Lemma getAccessToken_fresh c now cached net later :
  still_fresh cached now = true ->
  exists e, cached = Some e
            /\ getAccessToken c now cached net later
               = {| answer := Ok (access_token e); cache := cached; requests := [] |}.
Proof.
  unfold TokenCache.getAccessToken. intros H.
  destruct cached as [e|]; [|discriminate].
  exists e. rewrite H. split; reflexivity.
Qed.

(** X5. A refresh that answers keeps the token with an expiry between 60 and
    86400 seconds after the moment the entry is built: the lifetime the
    endpoint states, clamped to that range; 3600 seconds when it states none
    or states zero.  When the stated lifetime is no number the expiry is NaN. *)
Theorem token_refresh_expiry (c : credentials) (now : Z) (cached : option entry)
  (net : request -> result reply) (later : Z) (tok : value) :
  let o := getAccessToken c now cached net later in
  still_fresh cached now = false ->
  answer o = Ok tok ->
  exists e rq resp body data,
    cache o = Some e /\ access_token e = tok /\ truthy tok = true
    /\ requests o = [rq] /\ net rq = Ok resp /\ text resp = Ok body
    /\ JSON_parse body = Ok data
    /\ match expiresAt e with
       | Num x => (later + 60 <= x <= later + 86400)%Z
       | NaN => Number (or_else (prop data "expires_in") (VNumber 3600)) = Ok NaN
       end
    /\ (forall n, prop data "expires_in" = VNumber n ->
          expiresAt e
          = Num (later + (if (n =? 0)%Z then 3600 else Z.min (Z.max n 60) 86400)))
    /\ (prop data "expires_in" = VUndefined -> expiresAt e = Num (later + 3600)).
Proof.
  cbv zeta. intros Hs Ha. rewrite (getAccessToken_stale _ _ _ _ _ Hs) in *.
  destruct (refresh_Ok _ _ _ _ _ Ha)
    as (rq & resp & body & data & expiresIn & Hr & Hn & Ho & Ht & Hp & Hk & Htr & Hnum & Hc).
  eexists _, rq, resp, body, data. rewrite Hc, Hr. cbn [access_token expiresAt].
  repeat split; try assumption.
  - pose proof (clamp_bounds later expiresIn) as B.
    destruct (plus (Num later) (Math_min (Math_max expiresIn (Num 60)) (Num 86400))).
    + apply B.
    + rewrite Hnum, B. reflexivity.
  - intros n En. rewrite En in Hnum. unfold or_else in Hnum. cbn [truthy] in Hnum.
    destruct (n =? 0)%Z; cbn [negb TokenCache.Number] in Hnum; injection Hnum as <-;
      cbn; f_equal; lia.
  - intros En. rewrite En in Hnum. cbn in Hnum. injection Hnum as <-. reflexivity.
Qed.

(** X6. A token obtained by a refresh is served again from the cache only
    less than 86340 seconds after the entry was built, and then it is that
    very token, with no request made and the entry left as it is; a token
    whose stated lifetime is a number of at most 60 seconds (zero apart) is
    never served from the cache. *)
Theorem token_reuse_window (c : credentials) (now : Z) (cached : option entry)
  (net : request -> result reply) (later : Z) (tok : value)
  (t : Z) (net' : request -> result reply) (later' : Z) :
  let o := getAccessToken c now cached net later in
  let o' := getAccessToken c t (cache o) net' later' in
  still_fresh cached now = false ->
  answer o = Ok tok ->
  (later <= t)%Z ->
  (forall tok', answer o' = Ok tok' -> requests o' = [] ->
     tok' = tok /\ cache o' = cache o /\ (t - later < 86340)%Z)
  /\ (forall rq resp body data n,
        In rq (requests o) -> net rq = Ok resp -> text resp = Ok body ->
        JSON_parse body = Ok data -> prop data "expires_in" = VNumber n ->
        n <> 0%Z -> (n <= 60)%Z ->
        requests o' = [] -> exists x, answer o' = Throw x).
Proof.
  cbv zeta. intros Hs Ha Hle. rewrite (getAccessToken_stale _ _ _ _ _ Hs) in *.
  destruct (refresh_Ok _ _ _ _ _ Ha)
    as (rq & resp & body & data & expiresIn & Hr & Hn & Ho & Ht & Hp & Hk & Htr & Hnum & Hc).
  rewrite Hc, Hr.
  set (e := {| access_token := tok;
               expiresAt := plus (Num later)
                              (Math_min (Math_max expiresIn (Num 60)) (Num 86400)) |}).
  destruct (still_fresh (Some e) t) eqn:F.
  - destruct (getAccessToken_fresh c t (Some e) net' later' F) as (e' & Ee & ->).
    injection Ee as <-. cbn [answer cache requests]. split.
    + intros tok' Et _. injection Et as <-. repeat split.
      unfold still_fresh, e in F. cbn [expiresAt] in F.
      destruct expiresIn as [n|]; cbn in F; [lia | discriminate].
    + intros rq0 resp0 body0 data0 n [<- | []] Hn0 Ht0 Hp0 Hd Hz Hsmall _.
      rewrite Hn in Hn0. injection Hn0 as <-. rewrite Ht in Ht0. injection Ht0 as <-.
      rewrite Hp in Hp0. injection Hp0 as <-.
      rewrite Hd in Hnum. unfold or_else in Hnum. cbn [truthy] in Hnum.
      apply Z.eqb_neq in Hz. rewrite Hz in Hnum. cbn [negb TokenCache.Number] in Hnum.
      injection Hnum as <-.
      unfold still_fresh, e in F. cbn in F. lia.
  - rewrite (getAccessToken_stale _ _ _ _ _ F). split.
    + intros tok' Et Hq.
      destruct (refresh_Ok _ _ _ _ _ Et) as (rq' & _ & _ & _ & _ & Hr' & _).
      rewrite Hq in Hr'. discriminate.
    + intros rq0 resp0 body0 data0 n _ _ _ _ _ _ _ Hq.
      destruct (answer (refresh c (Some e) net' later')) as [tok'|x] eqn:Et;
        [|exists x; reflexivity].
      destruct (refresh_Ok _ _ _ _ _ Et) as (rq' & _ & _ & _ & _ & Hr' & _).
      rewrite Hq in Hr'. discriminate.
Qed.

(** X7. A call of [getAccessToken] that throws (the tenant cannot be encoded,
    the request fails, the reply is not ok, its body is no JSON or holds no
    token) leaves the cached entry exactly as it was. *)
Theorem token_failure_keeps_cache (c : credentials) (now : Z) (cached : option entry)
  (net : request -> result reply) (later : Z) (x : exn) :
  answer (getAccessToken c now cached net later) = Throw x ->
  cache (getAccessToken c now cached net later) = cached.
Proof.
  destruct (still_fresh cached now) eqn:F.
  - destruct (getAccessToken_fresh c now cached net later F) as (e & _ & ->).
    discriminate.
  - rewrite (getAccessToken_stale _ _ _ _ _ F). apply refresh_Throw.
Qed.

End TokenCacheFacts.

Lemma token_refresh_expiry_witness :
  let o := TokenCache.getAccessToken (sample_parse 30) no_number plain_encode
             sample_credentials 1000 None sample_token_endpoint 1001 in
  TokenCache.still_fresh None 1000 = false
  /\ TokenCache.answer o = Ok (vstr "tok")
  /\ exists e, TokenCache.cache o = Some e
               /\ TokenCache.expiresAt e = TokenCache.Num 1061.
Proof.
  cbv zeta. split; [reflexivity|]. split; [reflexivity|].
  destruct (token_refresh_expiry (sample_parse 30) no_number plain_encode
              sample_credentials 1000 None sample_token_endpoint 1001 (vstr "tok")
              eq_refl eq_refl)
    as (e & rq & resp & body & data & Hc & _ & _ & _ & _ & _ & Hp & _ & Hn & _).
  exists e. split; [exact Hc|].
  unfold sample_parse in Hp. injection Hp as <-.
  exact (Hn 30%Z eq_refl).
Defined.

Lemma token_reuse_window_witness :
  let o := TokenCache.getAccessToken (sample_parse 3600) no_number plain_encode
             sample_credentials 1000 None sample_token_endpoint 1001 in
  let o' := TokenCache.getAccessToken (sample_parse 3600) no_number plain_encode
              sample_credentials 2000 (TokenCache.cache o) sample_token_endpoint 2001 in
  TokenCache.still_fresh None 1000 = false
  /\ TokenCache.answer o = Ok (vstr "tok")
  /\ (1001 <= 2000)%Z
  /\ TokenCache.answer o' = Ok (vstr "tok")
  /\ TokenCache.requests o' = []
  /\ TokenCache.cache o' = TokenCache.cache o.
Proof.
  cbv zeta. split; [reflexivity|]. split; [reflexivity|]. split; [lia|].
  split; [reflexivity|]. split; [reflexivity|].
  apply (proj1 (token_reuse_window (sample_parse 3600) no_number plain_encode
                  sample_credentials 1000 None sample_token_endpoint 1001 (vstr "tok")
                  2000 sample_token_endpoint 2001 eq_refl eq_refl ltac:(lia))
           (vstr "tok") eq_refl eq_refl).
Defined.

Lemma token_failure_keeps_cache_witness :
  let kept := Some {| TokenCache.access_token := vstr "old";
                      TokenCache.expiresAt := TokenCache.Num 1030 |} in
  let down := fun _ : TokenCache.request => Throw (Exn (str "fetch failed")) in
  TokenCache.answer (TokenCache.getAccessToken (sample_parse 3600) no_number plain_encode
                       sample_credentials 1000 kept down 1001)
  = Throw (Exn (str "fetch failed"))
  /\ TokenCache.cache (TokenCache.getAccessToken (sample_parse 3600) no_number plain_encode
                         sample_credentials 1000 kept down 1001)
     = kept.
Proof.
  cbv zeta. split; [reflexivity|].
  apply (token_failure_keeps_cache (sample_parse 3600) no_number plain_encode
           sample_credentials 1000 _ _ 1001 (Exn (str "fetch failed"))).
  reflexivity.
Defined.

(** ** The proxy endpoints: their calls *)

Lemma starts_with_app a b : starts_with a (a ++ b) = true.
Proof.
  induction a as [|c a IH]; [destruct b; reflexivity|].
  cbn. rewrite char_eqb_refl. exact IH.
Qed.

(** X8. Whatever the request, an endpoint asks for a token at most once and
    calls upstream at most once, and only after the token was obtained; the
    call goes to an address under PROJECT_ENDPOINT with that token as bearer,
    and an assistant id in its body is the one the server is configured with,
    never one the client sent. *)
Theorem proxy_call_discipline (e : endpoint) (req : value) (w : world) :
  let log := snd (serve e req w) in
  (log = [] \/ log = [TokenCall] \/ exists rq, log = [TokenCall; FetchCall rq])
  /\ forall rq, In (FetchCall rq) log ->
       (exists token, access_token w = Ok token /\ authorization rq = bearer token)
       /\ starts_with (PROJECT_ENDPOINT w) (url rq) = true
       /\ forall b, body rq = Some b ->
            prop b "assistant_id" = VUndefined
            \/ prop b "assistant_id" = VString (ASSISTANT_ID w).
Proof.
  cbv zeta. destruct e; run_endpoint.
  - destruct (extractUserText req) as [[|c t]|] eqn:Et; cbn [fst snd].
    + split; [auto|]. intros rq [].
    + split_world w; cbn [fst snd app].
      all: split; [eauto|]; intros rq Hin; same_fetch FetchCall_inj; cbn [authorization url body].
      all: split; [eauto|]; split; [apply starts_with_app|].
      all: intros b Hb; injection Hb as <-; right; reflexivity.
    + split; [auto|]. intros rq [].
  - split_world w; cbn [fst snd app].
    all: split; [eauto|]; intros rq Hin; same_fetch FetchCall_inj; cbn [authorization url body].
    all: split; [eauto|]; split; [apply starts_with_app|].
    all: intros b Hb; injection Hb as <-; left; reflexivity.
  - split_world w; cbn [fst snd app].
    all: split; [eauto|]; intros rq Hin; same_fetch FetchCall_inj; cbn [authorization url body].
    all: split; [eauto|]; split; [apply starts_with_app|].
    all: intros b Hb; injection Hb as <-; right; reflexivity.
  - split_world w; cbn [fst snd app].
    all: split; [eauto|]; intros rq Hin; same_fetch FetchCall_inj; cbn [authorization url body].
    all: split; [eauto|]; split; [apply starts_with_app|].
    all: intros b Hb; discriminate Hb.
  - split_world w; cbn [fst snd app].
    all: split; [eauto|]; intros rq Hin; same_fetch FetchCall_inj; cbn [authorization url body].
    all: split; [eauto|]; split; [apply starts_with_app|].
    all: intros b Hb; discriminate Hb.
Qed.

Lemma not_ok_not_200 up : ok up = false -> status up <> 200%Z.
Proof. unfold ok. intros H E. rewrite E in H. discriminate. Qed.

(** X9. An endpoint answers 200 only when upstream was called, answered with
    a status from 200 to 299 and gave a body that reads as JSON; every other
    answer is a 400, a 500, or the status of an upstream reply that was not
    ok. *)
Theorem proxy_success_needs_upstream (e : endpoint) (req : value) (w : world) :
  let resp := fst (serve e req w) in
  let log := snd (serve e req w) in
  (code resp = 200%Z ->
     exists rq up j, log = [TokenCall; FetchCall rq] /\ upstream w rq = Ok up
                     /\ ok up = true /\ json up = Ok j)
  /\ (code resp = 200%Z \/ code resp = 400%Z \/ code resp = 500%Z
      \/ exists rq up, In (FetchCall rq) log /\ upstream w rq = Ok up
                       /\ ok up = false /\ code resp = status up).
Proof.
  cbv zeta. destruct e; run_endpoint.
  - destruct (extractUserText req) as [[|c t]|] eqn:Et; cbn [fst snd].
    + split; [discriminate | auto].
    + split_world w; cbn [fst snd app code].
      all: split;
        [ intros H; try discriminate H;
          try (exfalso; eapply not_ok_not_200; eassumption); eauto 8
        | try (right; right; right; eexists _, _; repeat split;
               [right; left; reflexivity | eassumption | assumption]); auto ].
    + split; [discriminate | auto].
  - split_world w; cbn [fst snd app code].
    all: split;
      [ intros H; try discriminate H;
        try (exfalso; eapply not_ok_not_200; eassumption); eauto 8
      | try (right; right; right; eexists _, _; repeat split;
             [right; left; reflexivity | eassumption | assumption]); auto ].
  - split_world w; cbn [fst snd app code].
    all: split;
      [ intros H; try discriminate H;
        try (exfalso; eapply not_ok_not_200; eassumption); eauto 8
      | try (right; right; right; eexists _, _; repeat split;
             [right; left; reflexivity | eassumption | assumption]); auto ].
  - split_world w; cbn [fst snd app code].
    all: split;
      [ intros H; try discriminate H;
        try (exfalso; eapply not_ok_not_200; eassumption); eauto 8
      | try (right; right; right; eexists _, _; repeat split;
             [right; left; reflexivity | eassumption | assumption]); auto ].
  - split_world w; cbn [fst snd app code].
    all: split;
      [ intros H; try discriminate H;
        try (exfalso; eapply not_ok_not_200; eassumption); eauto 8
      | try (right; right; right; eexists _, _; repeat split;
             [right; left; reflexivity | eassumption | assumption]); auto ].
Qed.

(** ** The client and the proxy together *)

Lemma nonblank_string s : trim s <> [] -> nonblank (VString s) = Some (trim s).
Proof. cbn. destruct (trim s); [contradiction | reflexivity]. Qed.

Lemma extractUserText_createThreadAndRun text :
  trim text <> [] -> extractUserText (Net.createThreadAndRun text) = Ok (trim text).
Proof.
  intros H. unfold extractUserText, Net.createThreadAndRun.
  cbn -[nonblank trim]. rewrite (nonblank_string text H). reflexivity.
Qed.

(** X10. A message that passes the guard of [sendMessage] (something is left
    of it after trimming) is never refused by the proxy as it comes from the
    wrappers: the body of [createThreadAndRun] passes the guard of
    /api/threads-runs, and with a thread id that is truthy the bodies of
    [appendMessage] and [startRun] pass the guards of /api/append-message and
    /api/start-run.  Upstream receives the first message of a thread trimmed,
    a later message as typed, and in both cases the assistant id of the
    server. *)
Theorem client_posts_accepted (w : world) (text : jsstring) (threadId : value) :
  trim text <> [] ->
  let first := serve ThreadsRuns (Net.createThreadAndRun text) w in
  let next := serve AppendMessage (Net.appendMessage threadId text) w in
  let run := serve StartRun (Net.startRun threadId) w in
  (exists calls, snd first = TokenCall :: calls)
  /\ (forall rq, In (FetchCall rq) (snd first) ->
        body rq = Some (obj [("assistant_id", VString (ASSISTANT_ID w));
                             ("thread",
                              obj [("messages",
                                    VArray [obj [("role", vstr "user");
                                                 ("content", VString (trim text))]])])]%string))
  /\ (truthy threadId = true ->
        (exists calls, snd next = TokenCall :: calls)
        /\ (forall rq, In (FetchCall rq) (snd next) ->
              body rq = Some (obj [("role", vstr "user"); ("content", VString text)]%string))
        /\ (exists calls, snd run = TokenCall :: calls)
        /\ (forall rq, In (FetchCall rq) (snd run) ->
              body rq = Some (obj [("assistant_id"%string, VString (ASSISTANT_ID w))]))).
Proof.
  intros Ht. cbv zeta. split; [|split].
  - run_endpoint. rewrite (extractUserText_createThreadAndRun text Ht).
    destruct (trim text) as [|c t] eqn:E; [contradiction|].
    split_world w; cbn [fst snd app]; eauto.
  - run_endpoint. rewrite (extractUserText_createThreadAndRun text Ht).
    destruct (trim text) as [|c t] eqn:E; [contradiction|].
    split_world w; cbn [fst snd app]; intros rq Hin; same_fetch FetchCall_inj; reflexivity.
  - intros Hid.
    assert (Tid : truthy (prop (or_else (Net.appendMessage threadId text) (VObject []))
                            "threadId") = true) by exact Hid.
    assert (Sid : truthy (prop (or_else (Net.startRun threadId) (VObject [])) "threadId")
                  = true) by exact Hid.
    assert (Cont : prop (or_else (Net.appendMessage threadId text) (VObject [])) "content"
                   = VString text) by reflexivity.
    split; [|split; [|split]]; run_endpoint.
    + rewrite Tid, Cont.
      assert (S : to_string (or_else (VString text) (VString [])) = Ok text).
      { unfold or_else. destruct text; reflexivity. }
      rewrite S. cbn [lift negb orb].
      destruct (trim text) as [|c t] eqn:E; [contradiction|].
      split_world w; cbn [fst snd app]; eauto.
    + rewrite Tid, Cont.
      assert (S : to_string (or_else (VString text) (VString [])) = Ok text).
      { unfold or_else. destruct text; reflexivity. }
      rewrite S. cbn [lift negb orb].
      destruct (trim text) as [|c t] eqn:E; [contradiction|].
      split_world w; cbn [fst snd app]; intros rq Hin; same_fetch FetchCall_inj; reflexivity.
    + rewrite Sid. cbn [negb].
      split_world w; cbn [fst snd app]; eauto.
    + rewrite Sid. cbn [negb].
      split_world w; cbn [fst snd app]; intros rq Hin; same_fetch FetchCall_inj; reflexivity.
Qed.

Lemma client_posts_accepted_witness :
  let w := sample_world (Throw TypeError) in
  trim (str " hi ") <> []
  /\ (exists calls,
        snd (serve ThreadsRuns (Net.createThreadAndRun (str " hi ")) w) = TokenCall :: calls)
  /\ truthy (vstr "thread_1") = true
  /\ (exists calls,
        snd (serve AppendMessage (Net.appendMessage (vstr "thread_1") (str " hi ")) w)
        = TokenCall :: calls)
  /\ (exists calls,
        snd (serve StartRun (Net.startRun (vstr "thread_1")) w) = TokenCall :: calls).
Proof.
  cbv zeta.
  assert (H : trim (str " hi ") <> []) by (vm_compute; discriminate).
  destruct (client_posts_accepted (sample_world (Throw TypeError)) (str " hi ")
              (vstr "thread_1") H) as (First & _ & Next).
  destruct (Next eq_refl) as (A & _ & R & _).
  split; [exact H|]. split; [exact First|]. split; [reflexivity|].
  split; [exact A | exact R].
Defined.

(** ** What the client reads in a message of the proxy *)

Lemma extractAssistantText_text_content t :
  extractAssistantText (text_content t) = trim t.
Proof.
  reflexivity.
Qed.

(** X11. The text the client extracts from a message as the proxy projects
    it is the text the proxy picked from the upstream message with its
    citations stripped: nothing is lost or added between [projectMsgList] and
    [extractAssistantText]. *)
Theorem client_reads_projected_text (m o : value) :
  projectMsg m = Ok o ->
  exists s, picked_text (prop m "content") = VString s
            /\ extractAssistantText (prop o "content") = stripAgentCitations s.
Proof.
  intros H. apply projectMsg_projected in H. destruct H as (s & Hp & -> & _).
  exists s. split; [exact Hp|].
  change (prop _ "content") with (text_content (stripAgentCitations s)).
  rewrite extractAssistantText_text_content.
  apply (stripAgentCitations_normal s).
Qed.

Lemma client_reads_projected_text_witness :
  projectMsg message_with_text
  = Ok (obj [("role", vstr "assistant");
             ("created_at", VNumber 2);
             ("content", text_content (str "Hello world"))]%string)
  /\ exists s, picked_text (prop message_with_text "content") = VString s
               /\ extractAssistantText
                    (prop (obj [("role", vstr "assistant");
                                ("created_at", VNumber 2);
                                ("content", text_content (str "Hello world"))]%string)
                       "content")
                  = stripAgentCitations s.
Proof.
  assert (H : projectMsg message_with_text
              = Ok (obj [("role", vstr "assistant");
                         ("created_at", VNumber 2);
                         ("content", text_content (str "Hello world"))]%string))
    by reflexivity.
  split; [exact H|]. exact (client_reads_projected_text _ _ H).
Defined.

(** ** The text shown for a reply *)

Lemma re_run_Some p n prev s k :
  re_run p n prev s = Some k -> k = run_length p s /\ n <= k.
Proof.
  unfold re_run. destruct (Nat.leb n (run_length p s)) eqn:E; [|discriminate].
  intros H; injection H as <-. apply Nat.leb_le in E. split; [reflexivity | exact E].
Qed.

Lemma re_run_None p n prev s :
  0 < n -> (forall k, re_run p n prev s <> Some (S k)) <-> run_length p s < n.
Proof.
  intros Hn. unfold re_run. destruct (Nat.leb n (run_length p s)) eqn:E.
  - apply Nat.leb_le in E. split; [|lia].
    intros H. destruct (run_length p s) as [|k]; [lia|]. exfalso; exact (H k eq_refl).
  - apply Nat.leb_gt in E. split; [intros _; exact E | intros _ k; discriminate].
Qed.

(** No run of [n] units of the class [p] anywhere in [s]. *)
Lemma quiet_re_run_suffix p n a b : forall prev prev',
  quiet (re_run p n) prev (a ++ b) -> quiet (re_run p n) prev' b.
Proof.
  induction a as [|c a IH]; intros prev prev' H.
  - eapply quiet_re_run_prev; exact H.
  - destruct H as [_ H]. eapply IH; exact H.
Qed.

Lemma quiet_re_run_prefix p n a b : 0 < n -> forall prev,
  quiet (re_run p n) prev (a ++ b) -> quiet (re_run p n) prev a.
Proof.
  intros Hn. induction a as [|c a IH]; intros prev H; [exact I|].
  destruct H as [H1 H2]. split; [|apply IH; exact H2].
  apply (re_run_None p n prev _ Hn). apply (re_run_None p n prev _ Hn) in H1.
  pose proof (run_length_app_le p (c :: a) b). simpl app in *. lia.
Qed.

Lemma quiet_re_run_trim p n s prev :
  0 < n -> quiet (re_run p n) prev s -> quiet (re_run p n) prev (trim s).
Proof.
  intros Hn H. destruct (trim_split s) as [a [b [E _]]]. rewrite E in H.
  apply (quiet_re_run_suffix p n a _ prev prev) in H.
  eapply quiet_re_run_prefix; [exact Hn | exact H].
Qed.

Lemma blank_lines_None prev t :
  (forall k, re_blank_lines prev t <> Some (S k)) <-> run_length is_lf t < 3.
Proof. apply re_run_None. lia. Qed.

(** After a run of line feeds was replaced, what follows starts with none. *)
Lemma collapse_lines_after s : forall skip prev,
  skip = run_length is_lf s ->
  run_length is_lf (fst (scan re_blank_lines [LF; LF] skip prev s)) = 0.
Proof.
  induction s as [|c s IH]; intros skip prev E; [reflexivity|].
  cbn [scan]. cbn [run_length] in E. destruct skip as [|k].
  - destruct (is_lf c) eqn:Hc; [discriminate|].
    unfold re_blank_lines, re_run. cbn [run_length]. rewrite Hc. cbn [Nat.leb fst run_length].
    rewrite Hc. reflexivity.
  - destruct (is_lf c); [|discriminate]. injection E as E. apply IH. exact E.
Qed.

(** The collapse never lengthens the run of line feeds a text starts with. *)
Lemma collapse_lines_head s : forall prev,
  run_length is_lf (fst (scan re_blank_lines [LF; LF] 0 prev s)) <= run_length is_lf s.
Proof.
  induction s as [|c s IH]; intros prev; [cbn; lia|].
  cbn [scan]. destruct (re_blank_lines prev (c :: s)) as [[|k]|] eqn:E; cbn [fst].
  - apply re_run_Some in E; lia.
  - apply re_run_Some in E. destruct E as [E1 E2].
    cbn [run_length] in E1 |- *. destruct (is_lf c) eqn:Hc; [|lia].
    injection E1 as E1. cbn [app run_length]. change (is_lf LF) with true. cbv iota.
    rewrite (collapse_lines_after s k (Some c) E1). lia.
  - cbn [run_length]. destruct (is_lf c); [|lia]. specialize (IH (Some c)). lia.
Qed.

(** Runs of three line feeds or more made two: no such run is left. *)
Lemma collapse_lines_quiet s : forall skip prev prev',
  quiet re_blank_lines prev' (fst (scan re_blank_lines [LF; LF] skip prev s)).
Proof.
  induction s as [|c s IH]; intros skip prev prev'; [exact I|].
  cbn [scan]. destruct skip as [|k]; [|apply IH].
  destruct (re_blank_lines prev (c :: s)) as [[|k]|] eqn:E; cbn [fst].
  - apply re_run_Some in E; lia.
  - apply re_run_Some in E. destruct E as [E1 E2].
    cbn [run_length] in E1. destruct (is_lf c) eqn:Hc; [|lia].
    injection E1 as E1. cbn [app].
    pose proof (collapse_lines_after s k (Some c) E1) as R.
    split; [|split; [|apply IH]]; apply blank_lines_None; cbn [run_length];
      change (is_lf LF) with true; cbv iota; rewrite R; lia.
  - split; [|apply IH]. apply blank_lines_None.
    assert (L : run_length is_lf (c :: s) < 3).
    { apply (blank_lines_None prev). intros k; congruence. }
    pose proof (collapse_lines_head s (Some c)) as A.
    cbn [run_length] in L |- *. destruct (is_lf c); lia.
Qed.

(** Making one space of a run of blanks joins no two runs of line feeds. *)
Lemma collapse_blank_keeps_lines s : forall skip prev prev',
  skip <= run_length is_blank s ->
  quiet re_blank_lines prev' s ->
  quiet re_blank_lines prev' (fst (scan re_blank_run [SPACE] skip prev s))
  /\ (skip = 0 ->
      run_length is_lf (fst (scan re_blank_run [SPACE] skip prev s)) <= run_length is_lf s).
Proof.
  induction s as [|c s IH]; intros skip prev prev' L Q; [split; [exact I | cbn; lia]|].
  destruct Q as [Q1 Q2]. apply blank_lines_None in Q1.
  cbn [scan]. destruct skip as [|k].
  - destruct (re_blank_run prev (c :: s)) as [[|k]|] eqn:E; cbn [fst].
    + apply re_blank_run_Some in E; lia.
    + apply re_blank_run_Some in E. destruct E as [E1 E2].
      cbn [run_length] in E1. destruct (is_blank c) eqn:Hc; [|lia].
      injection E1 as E1. cbn [app].
      destruct (IH k (Some c) (Some SPACE) ltac:(lia)
                  (quiet_re_run_prev is_lf 3 s (Some c) (Some SPACE) Q2)) as [Q _].
      split; [|intros _; cbn; lia].
      split; [|exact Q]. apply blank_lines_None. cbn. lia.
    + destruct (IH 0 (Some c) (Some c) ltac:(lia) Q2) as [Q A]. specialize (A eq_refl).
      assert (H : run_length is_lf (c :: fst (scan re_blank_run [SPACE] 0 (Some c) s))
                  <= run_length is_lf (c :: s)).
      { cbn [run_length]. destruct (is_lf c); lia. }
      split; [|intros _; exact H].
      split; [|exact Q]. apply blank_lines_None. lia.
  - cbn [run_length] in L. destruct (is_blank c) eqn:Hc; [|lia].
    destruct (IH k (Some c) prev' ltac:(lia)
                (quiet_re_run_prev is_lf 3 s (Some c) prev' Q2)) as [Q _].
    split; [exact Q | discriminate].
Qed.

Lemma normalise_is_normal text : normal (normalise text).
Proof.
  unfold normal, normalise, replace_all. repeat split.
  - apply (quiet_re_run_trim is_lf 3); [lia|].
    apply collapse_blank_keeps_lines; [lia|]. apply collapse_lines_quiet.
  - apply quiet_blank_run_trim. apply collapse_quiet.
  - apply trim_idem.
Qed.

(** X12. The text [stripFeedbackPrompt] hands back is in normal form, marker
    or not: it has no white space at either end, no run of three line feeds
    and no run of two spaces or tabs, so the three last steps of the function
    would leave it as it is. *)
Theorem cleaned_text_normal (text : jsstring) :
  let cleaned := fst (stripFeedbackPrompt text) in
  trim cleaned = cleaned
  /\ quiet re_blank_lines None cleaned
  /\ quiet re_blank_run None cleaned
  /\ normalise cleaned = cleaned.
Proof.
  cbv zeta. unfold stripFeedbackPrompt. cbv zeta. cbn [fst].
  match goal with
  | |- context [trim (replace_all re_blank_run [SPACE] (replace_all re_blank_lines [LF; LF] ?t))] =>
      change (trim (replace_all re_blank_run [SPACE] (replace_all re_blank_lines [LF; LF] t)))
        with (normalise t);
      destruct (normalise_is_normal t) as (Q1 & Q2 & T)
  end.
  repeat split; try assumption.
  apply normalise_normal. repeat split; assumption.
Qed.

(** Erasing matches brings no citation into a text that has none. *)
Lemma scan_erase_cite_free m s : forall skip prev,
  cite_free s -> cite_free (fst (scan m [] skip prev s)).
Proof.
  induction s as [|c s IH]; intros skip prev C; [exact I|].
  destruct C as [C1 C2]. cbn [scan]. destruct skip as [|k]; [|apply IH; exact C2].
  assert (Keep : cite_free (c :: fst (scan m [] 0 (Some c) s))).
  { split; [|apply IH; exact C2]. intros E. specialize (C1 E).
    apply index_of_None. apply index_of_None in C1.
    rewrite Forall_forall in *. intros x Hx. apply C1.
    eapply scan_erase_In; exact Hx. }
  destruct (m prev (c :: s)) as [[|k]|]; cbn [fst app];
    [exact Keep | apply IH; exact C2 | exact Keep].
Qed.

Lemma is_lf_not_bracket c : is_lf c = true -> is_bracket c = false.
Proof. unfold is_lf. intros E. apply char_eqb_eq in E. subst c. reflexivity. Qed.

Lemma collapse_lines_brackets s : forall skip prev,
  skip <= run_length is_lf s ->
  brackets (fst (scan re_blank_lines [LF; LF] skip prev s)) = brackets s.
Proof.
  induction s as [|c s IH]; intros skip prev L; [reflexivity|].
  cbn [scan]. destruct skip as [|k].
  - destruct (re_blank_lines prev (c :: s)) as [[|k]|] eqn:E.
    + apply re_run_Some in E; lia.
    + apply re_run_Some in E. destruct E as [E1 E2].
      cbn [run_length] in E1. destruct (is_lf c) eqn:Hc; [|lia].
      injection E1 as E1. cbn [fst app]. unfold brackets in *. cbn [filter].
      change (is_bracket LF) with false. cbv iota.
      rewrite (is_lf_not_bracket c Hc). apply IH. lia.
    + cbn [fst]. unfold brackets in *. cbn [filter]. rewrite (IH 0 (Some c)) by lia. reflexivity.
  - cbn [run_length] in L. destruct (is_lf c) eqn:Hc; [|lia].
    unfold brackets in *. cbn [filter]. rewrite (is_lf_not_bracket c Hc). apply IH. lia.
Qed.

Lemma stripFeedbackPrompt_cite_free raw :
  cite_free raw -> cite_free (fst (stripFeedbackPrompt raw)).
Proof.
  intros C. unfold stripFeedbackPrompt, replace_all. cbv zeta. cbn [fst].
  apply cite_free_brackets.
  rewrite brackets_trim, collapse_brackets, collapse_lines_brackets by lia.
  apply cite_free_brackets.
  apply scan_erase_cite_free. apply scan_erase_cite_free. exact C.
Qed.

(** X13. No citation of the upstream agent reaches the pane: when the chosen
    message is one the proxy projected, every assistant bubble a rendering
    adds holds a text with no left bracket U+3010 followed, anywhere later, by
    a right bracket U+3011. *)
Theorem no_citation_reaches_the_pane (up o : value) (m : message)
  (items : list message) (c c' : client) :
  projectMsg up = Ok o ->
  content m = prop o "content" ->
  latestAssistant items = Ok (Some m) ->
  renderLatestAssistant items c = Ok c' ->
  forall md, In (AssistantBubble md) (transcript c') ->
             In (AssistantBubble md) (transcript c) \/ cite_free md.
Proof.
  intros Hp Hc Hl Hr md Hin.
  apply projectMsg_projected in Hp. destruct Hp as (s & _ & -> & _).
  change (prop _ "content") with (text_content (stripAgentCitations s)) in Hc.
  destruct (renderLatestAssistant_rows items c c' m Hl Hr) as [Ht _].
  rewrite Ht in Hin. rewrite Hc, extractAssistantText_text_content in Hin.
  assert (T : trim (stripAgentCitations s) = stripAgentCitations s)
    by apply (stripAgentCitations_normal s).
  rewrite T in Hin.
  apply in_app_or in Hin. destruct Hin as [Hin | Hin]; [left; exact Hin|].
  apply in_app_or in Hin. destruct Hin as [Hin | Hin].
  - right. unfold shown in Hin.
    destruct (fst (stripFeedbackPrompt (stripAgentCitations s))) as [|x t] eqn:E;
      [destruct Hin|].
    destruct Hin as [Hin | []]. injection Hin as <-. rewrite <- E.
    apply stripFeedbackPrompt_cite_free. apply (stripAgentCitations_normal s).
  - destruct (snd _ && negb _); [destruct Hin as [Hin | []]; discriminate Hin | destruct Hin].
Qed.

Lemma no_citation_reaches_the_pane_witness :
  let o := obj [("role", vstr "assistant");
                ("created_at", VNumber 2);
                ("content", text_content (str "Hello world"))]%string in
  let m := {| role := vstr "assistant"; created_at := Some 2%Z;
              content := text_content (str "Hello world") |} in
  projectMsg message_with_text = Ok o
  /\ content m = prop o "content"
  /\ latestAssistant [m] = Ok (Some m)
  /\ renderLatestAssistant [m] (ui boot)
     = Ok (addMsg (AssistantBubble (str "Hello world")) (ui boot))
  /\ cite_free (str "Hello world").
Proof.
  cbv zeta.
  assert (H1 : projectMsg message_with_text
               = Ok (obj [("role", vstr "assistant");
                          ("created_at", VNumber 2);
                          ("content", text_content (str "Hello world"))]%string))
    by reflexivity.
  assert (H4 : renderLatestAssistant
                 [{| role := vstr "assistant"; created_at := Some 2%Z;
                     content := text_content (str "Hello world") |}] (ui boot)
               = Ok (addMsg (AssistantBubble (str "Hello world")) (ui boot)))
    by reflexivity.
  split; [exact H1|]. split; [reflexivity|]. split; [reflexivity|]. split; [exact H4|].
  destruct (no_citation_reaches_the_pane message_with_text _
              {| role := vstr "assistant"; created_at := Some 2%Z;
                 content := text_content (str "Hello world") |}
              [{| role := vstr "assistant"; created_at := Some 2%Z;
                  content := text_content (str "Hello world") |}]
              (ui boot) _ H1 eq_refl eq_refl H4
              (str "Hello world") (or_introl eq_refl)) as [[] | C].
  exact C.
Defined.

(** ** Errors of the proxy as the chat shows them *)

Lemma serve_error_payload e req w :
  code (fst (serve e req w)) <> 200%Z ->
  exists msg, In msg proxy_messages /\ payload (fst (serve e req w)) = error_body msg.
Proof.
  destruct e; run_endpoint.
  - destruct (extractUserText req) as [[|c t]|] eqn:Et; cbn [fst snd].
    + intros _. eexists; split; [|reflexivity]. cbn; auto.
    + split_world w; cbn [fst snd code payload]; intros H; try (exfalso; apply H; reflexivity).
      all: eexists; split; [|reflexivity]; cbn; auto 8.
    + intros _. eexists; split; [|reflexivity]. cbn; auto 8.
  - split_world w; cbn [fst snd code payload]; intros H; try (exfalso; apply H; reflexivity).
    all: eexists; split; [|reflexivity]; cbn; auto 8.
  - split_world w; cbn [fst snd code payload]; intros H; try (exfalso; apply H; reflexivity).
    all: eexists; split; [|reflexivity]; cbn; auto 8.
  - split_world w; cbn [fst snd code payload]; intros H; try (exfalso; apply H; reflexivity).
    all: eexists; split; [|reflexivity]; cbn; auto 8.
  - split_world w; cbn [fst snd code payload]; intros H; try (exfalso; apply H; reflexivity).
    all: eexists; split; [|reflexivity]; cbn; auto 8.
Qed.

Section FetchFacts.

Variable JSON_parse : jsstring -> result value.

Local Abbreviation fetchJSON := (Net.fetchJSON JSON_parse).

(** X14. Whatever goes wrong on the proxy, the chat tells it with one of the
    six fixed messages of the proxy and nothing of upstream: when an answer of
    an endpoint whose status is not from 200 to 299 reaches [fetchJSON] as the
    JSON text of its body, [fetchJSON] throws an error with the message of
    that body, and the [catch] of [sendMessage] shows it after the words
    Sorry, I hit an error. *)
Theorem proxy_error_shown (e : endpoint) (req : value) (w : world)
  (reason body : jsstring) :
  let r := fst (serve e req w) in
  let res := {| Net.status := code r; Net.statusText := reason; Net.text := Ok body |} in
  Net.ok res = false ->
  JSON_stringify (payload r) = Some body ->
  JSON_parse body = Ok (payload r) ->
  exists msg,
    In msg proxy_messages
    /\ fetchJSON (Ok res) = Throw (Exn (str msg))
    /\ forall c, transcript (catch_error (Exn (str msg)) c)
                 = settled (transcript c)
                   ++ [AssistantBubble (str "**Sorry " ++ [0x2014%N]
                                        ++ str " I hit an error:**" ++ [LF; LF] ++ str msg)].
Proof.
  cbv zeta. intros Hok Hs Hp.
  assert (Hc : code (fst (serve e req w)) <> 200%Z).
  { intros E. unfold Net.ok in Hok. cbn [Net.status] in Hok. rewrite E in Hok. discriminate. }
  destruct (serve_error_payload e req w Hc) as (msg & Hin & Hpay).
  exists msg. split; [exact Hin|].
  rewrite Hpay in Hs, Hp.
  assert (Hb : body <> []).
  { intros ->. cbn in Hs. discriminate. }
  split.
  - unfold Net.fetchJSON. cbn [rbind Net.text]. rewrite Hok. cbn [negb].
    unfold Net.parse_body. destruct body as [|b0 body']; [contradiction|].
    rewrite Hp. clear - Hin.
    cbn in Hin.
    repeat (destruct Hin as [<- | Hin]; [reflexivity|]). destruct Hin.
  - intros c. clear - Hin. cbn in Hin.
    repeat (destruct Hin as [<- | Hin]; [reflexivity|]). destruct Hin.
Qed.

End FetchFacts.

Lemma proxy_error_shown_witness :
  let w := sample_world (Throw TypeError) in
  let body := str "{" ++ [34%N] ++ str "error" ++ [34%N] ++ str ":{" ++ [34%N] ++ str "message"
              ++ [34%N] ++ str ":" ++ [34%N] ++ str "Missing threadId" ++ [34%N] ++ str "}}" in
  let parse := fun _ : jsstring => Ok (error_body "Missing threadId") in
  fst (serve Messages (obj []) w) = refusal Messages
  /\ JSON_stringify (error_body "Missing threadId") = Some body
  /\ exists msg,
       In msg proxy_messages
       /\ Net.fetchJSON parse
            (Ok {| Net.status := 400; Net.statusText := str "Bad Request";
                   Net.text := Ok body |})
          = Throw (Exn (str msg)).
Proof.
  cbv zeta. split; [reflexivity|]. split; [reflexivity|].
  destruct (proxy_error_shown (fun _ => Ok (error_body "Missing threadId"))
              Messages (obj []) (sample_world (Throw TypeError))
              (str "Bad Request") _ eq_refl eq_refl eq_refl) as (msg & Hin & Hf & _).
  exists msg. split; [exact Hin | exact Hf].
Defined.

(** ** Escaping of HTML *)

Lemma is_special_cases c :
  Html.is_special c = true
  <-> c = Html.AMP \/ c = Html.LT \/ c = Html.GT \/ c = Html.QUOT \/ c = Html.APOS.
Proof.
  unfold Html.is_special. rewrite !orb_true_iff, !char_eqb_eq. tauto.
Qed.

Lemma escape_cons c s :
  Html.escape (c :: s) = (if Html.is_special c then Html.entity c else [c]) ++ Html.escape s.
Proof. reflexivity. Qed.

Lemma entity_shape c :
  Html.is_special c = true ->
  exists x tail, Html.entity c = Html.AMP :: x :: tail
                 /\ Html.markup_free (Html.entity c)
                 /\ In (Html.entity c) Html.entities
                 /\ Forall (fun d => d <> Html.AMP) (x :: tail).
Proof.
  intros H. apply is_special_cases in H.
  destruct H as [-> | [-> | [-> | [-> | ->]]]]; cbn; eexists _, _; split; try reflexivity.
  all: split; [repeat constructor; discriminate|].
  all: split; [auto 6 | repeat constructor; discriminate].
Qed.

Lemma escape_markup_free s : Html.markup_free (Html.escape s).
Proof.
  induction s as [|c s IH]; [constructor|].
  rewrite escape_cons. apply Forall_app. split; [|exact IH].
  destruct (Html.is_special c) eqn:E.
  - destruct (entity_shape c E) as (_ & _ & _ & M & _). exact M.
  - constructor; [|constructor].
    repeat split; intros ->; discriminate E.
Qed.

Lemma starts_with_app_r e a b : starts_with e a = true -> starts_with e (a ++ b) = true.
Proof.
  revert a. induction e as [|x e IH]; intros a H; [destruct (a ++ b); reflexivity|].
  destruct a as [|y a]; [discriminate|]. cbn in H |- *.
  apply andb_true_iff in H. destruct H as [H1 H2]. rewrite H1. apply IH. exact H2.
Qed.

Lemma starts_with_refl e : starts_with e e = true.
Proof. induction e as [|x e IH]; [reflexivity|]. cbn. rewrite char_eqb_refl. exact IH. Qed.

Lemma ampersands_escaped_app_plain a b :
  Forall (fun d => d <> Html.AMP) a -> Html.ampersands_escaped b ->
  Html.ampersands_escaped (a ++ b).
Proof.
  induction 1 as [|d a Hd _ IH]; intros Hb; [exact Hb|].
  cbn. split; [intros E; contradiction | apply IH; exact Hb].
Qed.

Lemma escape_ampersands s : Html.ampersands_escaped (Html.escape s).
Proof.
  induction s as [|c s IH]; [exact I|].
  rewrite escape_cons. destruct (Html.is_special c) eqn:E.
  - destruct (entity_shape c E) as (x & tail & Ee & _ & Hin & Hplain).
    rewrite Ee in *.
    change ((Html.AMP :: x :: tail) ++ Html.escape s)
      with (Html.AMP :: ((x :: tail) ++ Html.escape s)).
    split.
    + intros _. exists (Html.AMP :: x :: tail). split; [exact Hin|].
      apply (starts_with_app_r (Html.AMP :: x :: tail) (Html.AMP :: x :: tail)).
      apply starts_with_refl.
    + apply ampersands_escaped_app_plain; assumption.
  - cbn [app Html.ampersands_escaped]. split; [|exact IH].
    intros ->. discriminate E.
Qed.

(** X15. What [escapeHtml] answers holds no less-than sign, greater-than
    sign, double quote or apostrophe, and each of its ampersands starts one of
    the five entities the function writes. *)
Theorem escapeHtml_no_markup (s : value) (out : jsstring) :
  Html.escapeHtml s = Ok out ->
  Html.markup_free out /\ Html.ampersands_escaped out.
Proof.
  unfold Html.escapeHtml. destruct (to_string s) as [t|x]; cbn [rbind]; [|discriminate].
  intros H. injection H as <-. split; [apply escape_markup_free | apply escape_ampersands].
Qed.

Lemma escapeHtml_no_markup_witness :
  Html.escapeHtml (VString (str "<a href='x'>R&D</a>"))
  = Ok (str "&lt;a href=&#39;x&#39;&gt;R&amp;D&lt;/a&gt;")
  /\ Html.markup_free (str "&lt;a href=&#39;x&#39;&gt;R&amp;D&lt;/a&gt;").
Proof.
  split; [reflexivity|].
  exact (proj1 (escapeHtml_no_markup (VString (str "<a href='x'>R&D</a>")) _ eq_refl)).
Defined.

Lemma entity_inj c d r t :
  Html.is_special c = true -> Html.is_special d = true ->
  Html.entity c ++ r = Html.entity d ++ t -> c = d /\ r = t.
Proof.
  intros Hc Hd. apply is_special_cases in Hc. apply is_special_cases in Hd.
  destruct Hc as [-> | [-> | [-> | [-> | ->]]]];
    destruct Hd as [-> | [-> | [-> | [-> | ->]]]];
    cbn; intros H; try discriminate H; injection H as H; auto.
Qed.

Lemma escape_injective a : forall b, Html.escape a = Html.escape b -> a = b.
Proof.
  induction a as [|c a IH]; intros [|d b] H.
  - reflexivity.
  - rewrite escape_cons in H. change (Html.escape []) with (@nil char) in H.
    destruct (Html.is_special d) eqn:Ed.
    + destruct (entity_shape d Ed) as (x & tail & Ee & _). rewrite Ee in H.
      cbn [app] in H. discriminate H.
    + cbn [app] in H. discriminate H.
  - rewrite escape_cons in H. change (Html.escape []) with (@nil char) in H.
    destruct (Html.is_special c) eqn:Ec.
    + destruct (entity_shape c Ec) as (x & tail & Ee & _). rewrite Ee in H.
      cbn [app] in H. discriminate H.
    + cbn [app] in H. discriminate H.
  - rewrite !escape_cons in H.
    destruct (Html.is_special c) eqn:Ec; destruct (Html.is_special d) eqn:Ed.
    + destruct (entity_inj c d _ _ Ec Ed H) as [-> H']. f_equal. apply IH. exact H'.
    + destruct (entity_shape c Ec) as (x & tail & Ee & _). rewrite Ee in H.
      injection H as <- _. discriminate Ed.
    + destruct (entity_shape d Ed) as (x & tail & Ee & _). rewrite Ee in H.
      injection H as -> _. discriminate Ec.
    + injection H as -> H'. f_equal. apply IH. exact H'.
Qed.

(** X16. [escapeHtml] loses nothing: two different strings are never escaped
    to the same text. *)
Theorem escapeHtml_injective (a b : jsstring) :
  Html.escapeHtml (VString a) = Html.escapeHtml (VString b) -> a = b.
Proof.
  unfold Html.escapeHtml. cbn [to_string rbind]. intros H. injection H as H.
  apply escape_injective. exact H.
Qed.

Lemma escapeHtml_injective_witness :
  Html.escapeHtml (VString (str "a<b")) = Html.escapeHtml (VString (str "a<b"))
  /\ str "a<b" = str "a<b".
Proof.
  split; [reflexivity|].
  exact (escapeHtml_injective (str "a<b") (str "a<b") eq_refl).
Defined.

Lemma escape_length s : List.length s <= List.length (Html.escape s).
Proof.
  induction s as [|c s IH]; [cbn; lia|].
  rewrite escape_cons, length_app. destruct (Html.is_special c) eqn:E.
  - destruct (entity_shape c E) as (x & tail & -> & _). cbn [List.length]. lia.
  - cbn [List.length]. lia.
Qed.

Lemma escape_plain s :
  Html.escape s = s <-> Forall (fun c => Html.is_special c = false) s.
Proof.
  induction s as [|c s IH]; [split; [constructor | reflexivity]|].
  rewrite escape_cons. destruct (Html.is_special c) eqn:E.
  - split.
    + intros H. exfalso.
      destruct (entity_shape c E) as (x & tail & Ee & _). rewrite Ee in H.
      apply (f_equal (@List.length char)) in H.
      cbn [app List.length] in H. rewrite length_app in H.
      pose proof (escape_length s). lia.
    + intros H. inversion H as [|? ? Hc _]. congruence.
  - cbn [app]. split.
    + intros H. injection H as H. constructor; [exact E | apply IH; exact H].
    + intros H. inversion H as [|? ? _ Hs]. f_equal. apply IH. exact Hs.
Qed.

(** X17. Escaping an escaped text again changes it, unless the original held
    none of the five code units: [escapeHtml] applied twice gives what it
    gives applied once exactly on the strings it leaves as they are, those
    with no ampersand, less-than sign, greater-than sign, double quote or
    apostrophe. *)
Theorem escapeHtml_twice (s : jsstring) :
  (rbind (Html.escapeHtml (VString s)) (fun t => Html.escapeHtml (VString t))
   = Html.escapeHtml (VString s)
   <-> Forall (fun c => Html.is_special c = false) s)
  /\ (Html.escapeHtml (VString s) = Ok s
      <-> Forall (fun c => Html.is_special c = false) s).
Proof.
  unfold Html.escapeHtml. cbn [to_string rbind]. split.
  - rewrite <- escape_plain. split.
    + intros H. injection H as H. apply escape_injective. exact H.
    + intros H. rewrite H, H. reflexivity.
  - rewrite <- escape_plain. split; [intros H; injection H as H; exact H | intros ->; reflexivity].
Qed.

(** ** The theme and the accessible mode *)

Lemma jsstring_eqb_refl s : jsstring_eqb s s = true.
Proof. apply jsstring_eqb_eq. reflexivity. Qed.

Lemma getItem_setItem k v l : Prefs.getItem k (Prefs.setItem k v l) = Some v.
Proof.
  induction l as [|[k' v'] l IH]; cbn.
  - rewrite jsstring_eqb_refl. reflexivity.
  - destruct (jsstring_eqb k k') eqn:E; cbn; [rewrite jsstring_eqb_refl | rewrite E];
      [reflexivity | exact IH].
Qed.

Lemma getItem_setItem_other k k' v l :
  jsstring_eqb k' k = false -> Prefs.getItem k' (Prefs.setItem k v l) = Prefs.getItem k' l.
Proof.
  intros N. induction l as [|[k0 v0] l IH]; cbn.
  - rewrite N. reflexivity.
  - destruct (jsstring_eqb k k0) eqn:E; cbn.
    + apply jsstring_eqb_eq in E. subst k0. rewrite N. reflexivity.
    + destruct (jsstring_eqb k' k0); [reflexivity | exact IH].
Qed.

Lemma setItem_restore k v v' l :
  Prefs.getItem k l = Some v -> Prefs.setItem k v (Prefs.setItem k v' l) = l.
Proof.
  induction l as [|[k0 v0] l IH]; cbn; [discriminate|].
  destruct (jsstring_eqb k k0) eqn:E; cbn.
  - rewrite jsstring_eqb_refl. intros H. injection H as ->.
    apply jsstring_eqb_eq in E. subst k0. reflexivity.
  - rewrite E. intros H. rewrite (IH H). reflexivity.
Qed.

Lemma applyTheme_os theme p : Prefs.os_listener (Prefs.applyTheme theme p) = Prefs.os_listener p.
Proof. reflexivity. Qed.

Lemma initTheme_stored mm cl p :
  exists isDark : bool,
    Prefs.initTheme mm cl p
    = Prefs.applyTheme (if isDark then str "dark" else str "light") p.
Proof.
  unfold Prefs.initTheme. cbv zeta.
  set (saved := Prefs.getItem Prefs.THEME_KEY (Prefs.localStorage p)).
  assert (P1 : exists isDark : bool,
    (if Prefs.item_is saved "light" || Prefs.item_is saved "dark"
     then Prefs.applyTheme (match saved with Some s => s | None => [] end) p
     else Prefs.applyTheme
            (if match mm with Some m => m | None => false end
             then str "dark" else str "light") p)
    = Prefs.applyTheme (if isDark then str "dark" else str "light") p).
  { destruct saved as [s|]; cbn [Prefs.item_is orb].
    - destruct (jsstring_eqb s (str "light")) eqn:El; cbn [orb].
      + apply jsstring_eqb_eq in El. subst s. exists false. reflexivity.
      + destruct (jsstring_eqb s (str "dark")) eqn:Ed.
        * apply jsstring_eqb_eq in Ed. subst s. exists true. reflexivity.
        * exists (match mm with Some m => m | None => false end). reflexivity.
    - exists (match mm with Some m => m | None => false end). reflexivity. }
  destruct P1 as [isDark ->]. exists isDark.
  unfold Prefs.applyTheme at 1. cbn [Prefs.localStorage].
  rewrite getItem_setItem. destruct isDark; reflexivity.
Qed.

Lemma step_os_listener ev p :
  Prefs.os_listener p = false -> Prefs.os_listener (Prefs.step ev p) = false.
Proof.
  intros H. destruct ev; unfold Prefs.step.
  - destruct (Prefs.themeToggle p); exact H.
  - destruct (Prefs.a11yToggle p); exact H.
  - rewrite H. exact H.
Qed.

Lemma run_os_listener evs : forall p,
  Prefs.os_listener p = false -> Prefs.os_listener (Prefs.run evs p) = false.
Proof.
  induction evs as [|ev evs IH]; intros p H; [exact H|].
  apply IH. apply step_os_listener. exact H.
Qed.

(** X18. The theme never follows the system: [initTheme] always stores a
    theme before it tests whether one is stored, so the listener for changes
    of the colour scheme is never registered; after the load of a page, a
    change of the scheme of the system changes nothing, whatever was stored
    and whatever was clicked. *)
Theorem theme_never_follows_os (matchMedia : option bool) (can_listen : bool)
  (p : Prefs.page) (evs : list Prefs.event) :
  Prefs.os_listener p = false ->
  Prefs.os_listener (Prefs.initTheme matchMedia can_listen p) = false
  /\ let q := Prefs.run evs (Prefs.load matchMedia can_listen p) in
     Prefs.os_listener q = false
     /\ forall matches, Prefs.step (Prefs.OsChange matches) q = q.
Proof.
  intros H.
  assert (I0 : forall r, Prefs.os_listener r = false ->
                         Prefs.os_listener (Prefs.initTheme matchMedia can_listen r) = false).
  { intros r Hr. destruct (initTheme_stored matchMedia can_listen r) as [d ->]. exact Hr. }
  split; [apply I0; exact H|]. cbv zeta.
  assert (L : Prefs.os_listener (Prefs.run evs (Prefs.load matchMedia can_listen p)) = false).
  { apply run_os_listener. unfold Prefs.load. apply I0. exact H. }
  split; [exact L|]. intros m. cbn. rewrite L. reflexivity.
Qed.

Lemma theme_never_follows_os_witness :
  let p := Prefs.fresh_page [] (Some Prefs.blank_button) None in
  Prefs.os_listener p = false
  /\ Prefs.dark (Prefs.load (Some false) true p) = false
  /\ Prefs.step (Prefs.OsChange true) (Prefs.load (Some false) true p)
     = Prefs.load (Some false) true p.
Proof.
  cbv zeta. split; [reflexivity|]. split; [reflexivity|].
  exact (proj2 (proj2 (theme_never_follows_os (Some false) true
                         (Prefs.fresh_page [] (Some Prefs.blank_button) None) []
                         eq_refl)) true).
Defined.

Lemma theme_keys_differ :
  jsstring_eqb Prefs.A11Y_KEY Prefs.THEME_KEY = false
  /\ jsstring_eqb Prefs.THEME_KEY Prefs.A11Y_KEY = false.
Proof. split; reflexivity. Qed.

Lemma theme_name_dark (d : bool) :
  jsstring_eqb (if d then str "dark" else str "light") (str "dark") = d.
Proof. destruct d; reflexivity. Qed.

Lemma applyTheme_consistent (d : bool) p :
  Prefs.getItem Prefs.A11Y_KEY (Prefs.localStorage p)
  = Some (if Prefs.a11y p then str "1" else str "0") ->
  (forall b, Prefs.a11yToggle p = Some b -> b = Prefs.a11y_button (Prefs.a11y p)) ->
  Prefs.consistent (Prefs.applyTheme (if d then str "dark" else str "light") p)
  /\ Prefs.dark (Prefs.applyTheme (if d then str "dark" else str "light") p) = d
  /\ Prefs.a11y (Prefs.applyTheme (if d then str "dark" else str "light") p) = Prefs.a11y p.
Proof.
  intros Ha Hb. unfold Prefs.consistent, Prefs.applyTheme. cbv zeta.
  cbn [Prefs.dark Prefs.a11y Prefs.localStorage Prefs.themeToggle Prefs.a11yToggle].
  rewrite theme_name_dark, getItem_setItem.
  rewrite (getItem_setItem_other _ _ _ _ (proj1 theme_keys_differ)).
  repeat split; try assumption.
  intros b. destruct (Prefs.themeToggle p); [|discriminate].
  intros E. injection E as <-. reflexivity.
Qed.

Lemma applyA11y_consistent (enabled : bool) p :
  Prefs.getItem Prefs.THEME_KEY (Prefs.localStorage p)
  = Some (if Prefs.dark p then str "dark" else str "light") ->
  (forall b, Prefs.themeToggle p = Some b -> b = Prefs.theme_button (Prefs.dark p)) ->
  Prefs.consistent (Prefs.applyA11y enabled p).
Proof.
  intros Ha Hb. unfold Prefs.consistent, Prefs.applyA11y.
  cbn [Prefs.dark Prefs.a11y Prefs.localStorage Prefs.themeToggle Prefs.a11yToggle].
  rewrite getItem_setItem.
  rewrite (getItem_setItem_other _ _ _ _ (proj2 theme_keys_differ)).
  repeat split; try assumption.
  intros b. destruct (Prefs.a11yToggle p); [|discriminate].
  intros E. injection E as <-. reflexivity.
Qed.

Lemma load_consistent mm cl p : Prefs.consistent (Prefs.load mm cl p).
Proof.
  unfold Prefs.load.
  destruct (initTheme_stored mm cl (Prefs.initA11y p)) as [d ->].
  apply (fun Ha Hb => proj1 (applyTheme_consistent d (Prefs.initA11y p) Ha Hb));
    unfold Prefs.initA11y, Prefs.applyA11y;
    cbn [Prefs.a11y Prefs.localStorage Prefs.a11yToggle].
  - apply getItem_setItem.
  - intros b. destruct (Prefs.a11yToggle p); [|discriminate].
    intros E. injection E as <-. reflexivity.
Qed.

Lemma step_consistent ev p : Prefs.consistent p -> Prefs.consistent (Prefs.step ev p).
Proof.
  intros C. pose proof C as (Ht & Ha & Bt & Ba). destruct ev; unfold Prefs.step.
  - destruct (Prefs.themeToggle p); [|exact C].
    change (if Prefs.dark p then str "light" else str "dark")
      with (if Prefs.dark p then (if false then str "dark" else str "light")
            else (if true then str "dark" else str "light")).
    destruct (Prefs.dark p);
      [exact (proj1 (applyTheme_consistent false p Ha Ba))
      | exact (proj1 (applyTheme_consistent true p Ha Ba))].
  - destruct (Prefs.a11yToggle p); [|exact C].
    apply applyA11y_consistent; assumption.
  - destruct (Prefs.os_listener p); [|exact C].
    exact (proj1 (applyTheme_consistent matches p Ha Ba)).
Qed.

Lemma run_consistent evs : forall p,
  Prefs.consistent p -> Prefs.consistent (Prefs.run evs p).
Proof.
  induction evs as [|ev evs IH]; intros p C; [exact C|].
  apply IH. apply step_consistent. exact C.
Qed.

Lemma item_is_flag (b : bool) (yes no lit : string) :
  jsstring_eqb (str yes) (str lit) = true -> jsstring_eqb (str no) (str lit) = false ->
  Prefs.item_is (Some (if b then str yes else str no)) lit = b.
Proof. intros Hy Hn. destruct b; cbn; assumption. Qed.

(** X19. The preferences survive a reload.  After the load of a page and any
    clicks on the two toggle buttons, the stored items, the classes of the
    root element and the labels of the buttons tell the same; and a page
    loaded later with that storage comes up with the same theme and the same
    accessible mode, whatever the colour scheme of the system then is. *)
Theorem prefs_survive_reload (matchMedia : option bool) (can_listen : bool)
  (p : Prefs.page) (evs : list Prefs.event) :
  let q := Prefs.run evs (Prefs.load matchMedia can_listen p) in
  Prefs.consistent q
  /\ forall matchMedia' can_listen' p',
       Prefs.localStorage p' = Prefs.localStorage q ->
       Prefs.dark (Prefs.load matchMedia' can_listen' p') = Prefs.dark q
       /\ Prefs.a11y (Prefs.load matchMedia' can_listen' p') = Prefs.a11y q.
Proof.
  cbv zeta.
  pose proof (run_consistent evs _ (load_consistent matchMedia can_listen p)) as C.
  split; [exact C|].
  destruct C as (Ht & Ha & _ & _).
  set (q := Prefs.run evs (Prefs.load matchMedia can_listen p)) in *.
  intros mm' cl' p' St. unfold Prefs.load.
  assert (A : Prefs.a11y (Prefs.initA11y p') = Prefs.a11y q).
  { unfold Prefs.initA11y, Prefs.applyA11y. cbn [Prefs.a11y].
    rewrite St, Ha. apply item_is_flag; reflexivity. }
  assert (S : Prefs.getItem Prefs.THEME_KEY (Prefs.localStorage (Prefs.initA11y p'))
              = Some (if Prefs.dark q then str "dark" else str "light")).
  { unfold Prefs.initA11y, Prefs.applyA11y. cbn [Prefs.localStorage].
    rewrite (getItem_setItem_other _ _ _ _ (proj2 theme_keys_differ)), St. exact Ht. }
  split.
  - unfold Prefs.initTheme. cbv zeta. rewrite S.
    destruct (Prefs.dark q); cbn [Prefs.item_is]; cbn -[Prefs.getItem Prefs.setItem];
      rewrite getItem_setItem; reflexivity.
  - destruct (initTheme_stored mm' cl' (Prefs.initA11y p')) as [d ->]. exact A.
Qed.

Lemma page_ext (p q : Prefs.page) :
  Prefs.dark p = Prefs.dark q -> Prefs.a11y p = Prefs.a11y q ->
  Prefs.localStorage p = Prefs.localStorage q ->
  Prefs.themeToggle p = Prefs.themeToggle q ->
  Prefs.a11yToggle p = Prefs.a11yToggle q ->
  Prefs.os_listener p = Prefs.os_listener q -> p = q.
Proof. destruct p, q; cbn; intros; subst; reflexivity. Qed.

Lemma applyTheme_fields t p :
  Prefs.dark (Prefs.applyTheme t p) = jsstring_eqb t (str "dark")
  /\ Prefs.a11y (Prefs.applyTheme t p) = Prefs.a11y p
  /\ Prefs.localStorage (Prefs.applyTheme t p)
     = Prefs.setItem Prefs.THEME_KEY t (Prefs.localStorage p)
  /\ Prefs.themeToggle (Prefs.applyTheme t p)
     = match Prefs.themeToggle p with
       | Some _ => Some (Prefs.theme_button (jsstring_eqb t (str "dark")))
       | None => None
       end
  /\ Prefs.a11yToggle (Prefs.applyTheme t p) = Prefs.a11yToggle p
  /\ Prefs.os_listener (Prefs.applyTheme t p) = Prefs.os_listener p.
Proof. repeat split. Qed.

Lemma applyA11y_fields e p :
  Prefs.dark (Prefs.applyA11y e p) = Prefs.dark p
  /\ Prefs.a11y (Prefs.applyA11y e p) = e
  /\ Prefs.localStorage (Prefs.applyA11y e p)
     = Prefs.setItem Prefs.A11Y_KEY (if e then str "1" else str "0") (Prefs.localStorage p)
  /\ Prefs.themeToggle (Prefs.applyA11y e p) = Prefs.themeToggle p
  /\ Prefs.a11yToggle (Prefs.applyA11y e p)
     = match Prefs.a11yToggle p with
       | Some _ => Some (Prefs.a11y_button e)
       | None => None
       end
  /\ Prefs.os_listener (Prefs.applyA11y e p) = Prefs.os_listener p.
Proof. repeat split. Qed.

(** X20. Two clicks on a toggle button undo each other: after the load of a
    page and any clicks, clicking the theme button twice, or the button of
    the accessible mode twice, gives back the very same classes, stored items
    and button labels. *)
Theorem toggle_twice_restores (matchMedia : option bool) (can_listen : bool)
  (p : Prefs.page) (evs : list Prefs.event) :
  let q := Prefs.run evs (Prefs.load matchMedia can_listen p) in
  Prefs.step Prefs.ClickTheme (Prefs.step Prefs.ClickTheme q) = q
  /\ Prefs.step Prefs.ClickA11y (Prefs.step Prefs.ClickA11y q) = q.
Proof.
  cbv zeta.
  pose proof (run_consistent evs _ (load_consistent matchMedia can_listen p)) as C.
  set (q := Prefs.run evs (Prefs.load matchMedia can_listen p)) in *.
  destruct C as (Ht & Ha & Bt & Ba). split.
  - unfold Prefs.step. destruct (Prefs.themeToggle q) as [b|] eqn:Eb; [|rewrite Eb; reflexivity].
    set (t := if Prefs.dark q then str "light" else str "dark").
    destruct (applyTheme_fields t q) as (F1 & F2 & F3 & F4 & F5 & F6).
    rewrite F4, Eb, F1.
    set (t' := if jsstring_eqb t (str "dark") then str "light" else str "dark").
    destruct (applyTheme_fields t' (Prefs.applyTheme t q)) as (G1 & G2 & G3 & G4 & G5 & G6).
    assert (Et : t' = if Prefs.dark q then str "dark" else str "light")
      by (subst t' t; destruct (Prefs.dark q); reflexivity).
    apply page_ext.
    + rewrite G1, Et. apply theme_name_dark.
    + rewrite G2. exact F2.
    + rewrite G3, F3, Et. apply setItem_restore. exact Ht.
    + rewrite G4, F4, Eb, Et, theme_name_dark, (Bt b eq_refl). reflexivity.
    + rewrite G5. exact F5.
    + rewrite G6. exact F6.
  - unfold Prefs.step. destruct (Prefs.a11yToggle q) as [b|] eqn:Eb; [|rewrite Eb; reflexivity].
    destruct (applyA11y_fields (negb (Prefs.a11y q)) q) as (F1 & F2 & F3 & F4 & F5 & F6).
    rewrite F5, Eb, F2.
    destruct (applyA11y_fields (negb (negb (Prefs.a11y q)))
                (Prefs.applyA11y (negb (Prefs.a11y q)) q)) as (G1 & G2 & G3 & G4 & G5 & G6).
    apply page_ext.
    + rewrite G1. exact F1.
    + rewrite G2. apply negb_involutive.
    + rewrite G3, F3, negb_involutive. apply setItem_restore. exact Ha.
    + rewrite G4. exact F4.
    + rewrite G5, F5, Eb, negb_involutive, (Ba b eq_refl). reflexivity.
    + rewrite G6. exact F6.
Qed.

(** ** The quick-action chips *)

(** X21. A chip does the same on Enter or on the space key as on a click,
    except the chip of the action loyalty (and one of an action spelt
    loyaltly): a click on the loyalty chip opens the sign-up form, while the
    key sends the prompt of the chip, for the chip of the suggestions its
    label, as a chat message. *)
Theorem chip_key_and_click (key : jsstring) (c : Forms.chip) :
  key = str "Enter" \/ key = str " " ->
  (Forms.on_keydown key (Some c) = Forms.on_click (Some c)
   <-> Forms.action_is c "loyalty" = false /\ Forms.action_is c "loyaltly" = false)
  /\ (Forms.action_is c "loyalty" = true ->
      Forms.on_click (Some c) = Some (Forms.OpenForm "loyalty-signup")
      /\ Forms.on_keydown key (Some c) = Some (Forms.SendMessage (Forms.chip_prompt c))).
Proof.
  intros K.
  assert (Ek : jsstring_eqb key (str "Enter") || jsstring_eqb key (str " ") = true)
    by (destruct K as [-> | ->]; reflexivity).
  unfold Forms.on_keydown, Forms.on_click. rewrite Ek.
  unfold Forms.action_is. destruct (Forms.action c) as [a|]; [|split; [split; auto|discriminate]].
  destruct (jsstring_eqb a (str "wimo")) eqn:E1.
  { apply jsstring_eqb_eq in E1. subst a. cbn. split; [split; auto | discriminate]. }
  destruct (jsstring_eqb a (str "c2w")) eqn:E2.
  { apply jsstring_eqb_eq in E2. subst a. cbn. split; [split; auto | discriminate]. }
  destruct (jsstring_eqb a (str "loyalty")) eqn:E3.
  { apply jsstring_eqb_eq in E3. subst a. cbn [jsstring_eqb]. cbn.
    split; [split; [discriminate | intros [H _]; discriminate H] | auto]. }
  destruct (jsstring_eqb a (str "loyaltly")) eqn:E4.
  { split; [split; [discriminate | intros [_ H]; discriminate H] | discriminate]. }
  split; [split; auto | discriminate].
Qed.

Lemma chip_key_and_click_witness :
  let c := Forms.chip_of {| Forms.label := "Join the Motoring Club";
                            Forms.s_prompt := "Join loyalty";
                            Forms.s_action := Some "loyalty"%string |} in
  In {| Forms.label := "Join the Motoring Club"; Forms.s_prompt := "Join loyalty";
        Forms.s_action := Some "loyalty"%string |} Forms.SUGGESTIONS
  /\ Forms.on_click (Some c) = Some (Forms.OpenForm "loyalty-signup")
  /\ Forms.on_keydown (str "Enter") (Some c)
     = Some (Forms.SendMessage (str "Join the Motoring Club")).
Proof.
  cbv zeta. split; [cbn; auto 10|].
  exact (proj2 (chip_key_and_click (str "Enter")
                  (Forms.chip_of {| Forms.label := "Join the Motoring Club";
                                    Forms.s_prompt := "Join loyalty";
                                    Forms.s_action := Some "loyalty"%string |})
                  (or_introl eq_refl)) eq_refl).
Defined.

(** ** The messages of the forms *)

Lemma ci_eqb_refl a : ci_eqb a a = true.
Proof. unfold ci_eqb. apply char_eqb_refl. Qed.

Lemma lit_ci_prefix p rest : lit_ci p (p ++ rest) = Some rest.
Proof.
  induction p as [|a p IH]; [reflexivity|]. cbn. rewrite ci_eqb_refl. exact IH.
Qed.

Lemma matched_prefix p rest : matched (p ++ rest) (Some rest) = Some (List.length p).
Proof. cbn. rewrite length_app. f_equal. lia. Qed.

(** An expression that matches at some place of a text is found by [test]. *)
Lemma test_finds m pre c rest k :
  m (unit_before None pre) (c :: rest) = Some (S k) -> test m (pre ++ c :: rest) = true.
Proof.
  intros H. unfold test. destruct (matches_somewhere m (pre ++ c :: rest)) eqn:E; [reflexivity|].
  apply matches_somewhere_false in E. apply quiet_app in E.
  destruct E as [E _]. exfalso. exact (E k H).
Qed.

Lemma trim_keeps_head c s : is_white_space c = false -> trim (c :: s) <> [].
Proof.
  intros H. unfold trim. rewrite (trimStart_fixed (c :: s) H).
  destruct (trimEnd_cons_keep c s H) as [s' ->]. discriminate.
Qed.

Lemma begin_turn_skipped text c :
  sending c = false -> trim text <> [] -> shouldSkipUserBubble text = true ->
  exists c', begin_turn text c = Some c'
             /\ transcript c' = transcript c ++ [TypingBubble].
Proof.
  intros Hs Ht Hk. unfold begin_turn. destruct (trim text); [contradiction|].
  rewrite Hs, Hk. eexists. split; reflexivity.
Qed.

Lemma skip_track_order o e : shouldSkipUserBubble (Forms.track_order_message o e) = true.
Proof.
  unfold shouldSkipUserBubble.
  assert (H : test re_order (Forms.track_order_message o e) = true).
  { unfold Forms.track_order_message.
    change (str "Where is my order? orderNumber: " ++ o ++ str ", Email: " ++ e)
      with ([] ++ 87%N :: (str "here is my order?"
                           ++ (str " orderNumber: " ++ o ++ str ", Email: " ++ e))).
    apply (test_finds re_order [] _ _ 17). unfold re_order.
    change (87%N :: str "here is my order?" ++ ?r) with (str "Where is my order?" ++ r).
    rewrite lit_ci_prefix, matched_prefix. reflexivity. }
  rewrite H. reflexivity.
Qed.

Lemma skip_c2w a : shouldSkipUserBubble (Forms.c2w_message a) = true.
Proof.
  unfold shouldSkipUserBubble.
  assert (H : test re_cycle (Forms.c2w_message a) = true).
  { unfold Forms.c2w_message.
    change (str "Check my Cycle to Work status. AgreementNumber: " ++ a)
      with (str "Check my " ++ 67%N :: (str "ycle to Work status"
                                        ++ (str ". AgreementNumber: " ++ a))).
    apply (test_finds re_cycle (str "Check my ") _ _ 19). unfold re_cycle.
    set (rest := str ". AgreementNumber: " ++ a).
    change (67%N :: str "ycle to Work status" ++ rest)
      with (str "Cycle" ++ (str " to Work status" ++ rest)) at 2.
    rewrite lit_ci_prefix.
    change (skip_spaces (str " to Work status" ++ rest))
      with (str "to" ++ (str " Work status" ++ rest)).
    rewrite lit_ci_prefix.
    change (skip_spaces (str " Work status" ++ rest)) with (str "Work status" ++ rest).
    rewrite lit_ci_prefix.
    change (67%N :: str "ycle to Work status" ++ rest)
      with (str "Cycle to Work status" ++ rest).
    rewrite matched_prefix. reflexivity. }
  rewrite H. rewrite orb_true_r. reflexivity.
Qed.

Lemma re_loyalty_start rest :
  word_boundary (Some 80%N) rest = true ->
  re_loyalty None (str "LOYALTY_SIGNUP" ++ rest) = Some 14.
Proof.
  intros H. unfold re_loyalty. rewrite lit_ci_prefix, H. apply matched_prefix.
Qed.

Lemma skip_loyalty payload : shouldSkipUserBubble (Forms.loyalty_message payload) = true.
Proof.
  unfold shouldSkipUserBubble.
  assert (H : test re_loyalty (Forms.loyalty_message payload) = true).
  { unfold Forms.loyalty_message.
    set (json := match JSON_stringify payload with Some s => s | None => str "undefined" end).
    apply (test_finds re_loyalty [] 76%N
             (str "OYALTY_SIGNUP" ++ (str " payload: " ++ json)) 13).
    exact (re_loyalty_start (str " payload: " ++ json) eq_refl). }
  rewrite H. rewrite !orb_true_r. reflexivity.
Qed.

Lemma skip_rating n : 1 <= n <= 5 -> shouldSkipUserBubble (rating_text n) = true.
Proof.
  intros H.
  destruct n as [|[|[|[|[|[|n]]]]]]; try lia; reflexivity.
Qed.

(** X22. The messages the forms and the stars build are never echoed a
    second time: whatever the fields hold, [sendMessage] adds no user bubble
    for the message of the order form, of the Cycle to Work form, of the
    loyalty sign-up or of a rating.  The pane gets the one echo the handler
    of the form wrote itself, and for the loyalty sign-up none: its payload is
    never shown. *)
Theorem form_messages_not_echoed (c : client) :
  sending c = false ->
  (forall orderNumber Email,
     exists c', Forms.submit_track_order orderNumber Email c = Some c'
                /\ transcript c'
                   = transcript c
                     ++ [UserBubble (Forms.track_order_echo orderNumber Email); TypingBubble])
  /\ (forall AgreementNumber,
        exists c', Forms.submit_c2w AgreementNumber c = Some c'
                   /\ transcript c'
                      = transcript c
                        ++ [UserBubble (Forms.c2w_echo AgreementNumber); TypingBubble])
  /\ (forall payload,
        exists c', begin_turn (Forms.loyalty_message payload) c = Some c'
                   /\ transcript c' = transcript c ++ [TypingBubble])
  /\ (forall n, 1 <= n <= 5 ->
        exists c', begin_turn (rating_text n) (addMsg (rating_bubble n) c) = Some c'
                   /\ transcript c' = transcript c ++ [rating_bubble n; TypingBubble]).
Proof.
  intros Hs. repeat split.
  - intros o e. unfold Forms.submit_track_order.
    destruct (begin_turn_skipped (Forms.track_order_message o e)
                (addMsg (UserBubble (Forms.track_order_echo o e)) c) Hs
                (trim_keeps_head 87%N _ eq_refl) (skip_track_order o e)) as (c' & E & T).
    exists c'. split; [exact E|]. rewrite T. cbn [addMsg set_transcript transcript].
    rewrite <- app_assoc. reflexivity.
  - intros a. unfold Forms.submit_c2w.
    destruct (begin_turn_skipped (Forms.c2w_message a)
                (addMsg (UserBubble (Forms.c2w_echo a)) c) Hs
                (trim_keeps_head 67%N _ eq_refl) (skip_c2w a)) as (c' & E & T).
    exists c'. split; [exact E|]. rewrite T. cbn [addMsg set_transcript transcript].
    rewrite <- app_assoc. reflexivity.
  - intros payload.
    exact (begin_turn_skipped (Forms.loyalty_message payload) c Hs
             (trim_keeps_head 76%N _ eq_refl) (skip_loyalty payload)).
  - intros n Hn.
    destruct (begin_turn_skipped (rating_text n) (addMsg (rating_bubble n) c) Hs
                (trim_keeps_head 70%N _ eq_refl) (skip_rating n Hn)) as (c' & E & T).
    exists c'. split; [exact E|]. rewrite T. cbn [addMsg set_transcript transcript].
    rewrite <- app_assoc. reflexivity.
Qed.

Lemma form_messages_not_echoed_witness :
  sending (ui boot) = false
  /\ exists c', Forms.submit_track_order (str "HX123") (str "a@b.co") (ui boot) = Some c'
                /\ transcript c'
                   = [UserBubble (Forms.track_order_echo (str "HX123") (str "a@b.co"));
                      TypingBubble].
Proof.
  split; [reflexivity|].
  exact (proj1 (form_messages_not_echoed (ui boot) eq_refl) (str "HX123") (str "a@b.co")).
Defined.

(** ** The validation of the loyalty sign-up *)

Lemma domain_ok_shape d :
  Forms.domain_ok d = true
  <-> exists b c, d = b ++ [46%N] ++ c /\ b <> [] /\ c <> []
                  /\ forallb Forms.is_email_unit b = true
                  /\ forallb Forms.is_email_unit c = true.
Proof.
  split.
  - induction d as [|x rest IH]; [discriminate|].
    cbn [Forms.domain_ok]. intros H. apply andb_true_iff in H. destruct H as [Hx H].
    apply orb_true_iff in H. destruct H as [H | H].
    + destruct rest as [|dot [|y tld]]; try discriminate H.
      apply andb_true_iff in H. destruct H as [Hd Hc]. apply char_eqb_eq in Hd. subst dot.
      exists [x], (y :: tld). repeat split; try discriminate; [|exact Hc].
      cbn. rewrite Hx. reflexivity.
    + destruct (IH H) as (b & c & -> & Hb & Hc & Fb & Fc).
      exists (x :: b), c. repeat split; try assumption; [discriminate|].
      cbn. rewrite Hx. exact Fb.
  - intros (b & c & -> & Hb & Hc & Fb & Fc).
    induction b as [|x b IH]; [contradiction|].
    cbn [forallb] in Fb. apply andb_true_iff in Fb. destruct Fb as [Hx Fb].
    change ((x :: b) ++ [46%N] ++ c) with (x :: (b ++ [46%N] ++ c)).
    cbn [Forms.domain_ok]. rewrite Hx. cbn [andb].
    destruct b as [|x' b'].
    + destruct c as [|y tld]; [contradiction|].
      cbn [app]. rewrite char_eqb_refl. apply orb_true_iff. left. exact Fc.
    + rewrite (IH ltac:(discriminate) Fb). apply orb_true_r.
Qed.

Lemma run_length_stops p a x r :
  forallb p a = true -> p x = false -> run_length p (a ++ x :: r) = List.length a.
Proof.
  intros Fa Hx. induction a as [|c a IH]; cbn; [rewrite Hx; reflexivity|].
  cbn in Fa. apply andb_true_iff in Fa. destruct Fa as [Hc Fa].
  rewrite Hc, (IH Fa). reflexivity.
Qed.

Lemma run_length_split p s :
  s = firstn (run_length p s) s ++ skipn (run_length p s) s
  /\ forallb p (firstn (run_length p s) s) = true.
Proof.
  induction s as [|c s [E F]]; [split; reflexivity|].
  cbn [run_length]. destruct (p c) eqn:Hc; [|split; reflexivity].
  cbn [firstn skipn app forallb]. rewrite Hc, F. split; [f_equal; exact E | reflexivity].
Qed.

Lemma re_email_shape s : Forms.re_email_test s = true <-> Forms.email_shape s.
Proof.
  unfold Forms.re_email_test, Forms.email_shape. cbv zeta. split.
  - intros H. apply andb_true_iff in H. destruct H as [Hn H].
    apply Nat.leb_le in Hn.
    destruct (run_length_split Forms.is_email_unit s) as [E F].
    destruct (skipn (run_length Forms.is_email_unit s) s) as [|at_sign d] eqn:Es;
      [discriminate|].
    apply andb_true_iff in H. destruct H as [Ha Hd]. apply char_eqb_eq in Ha. subst at_sign.
    apply domain_ok_shape in Hd. destruct Hd as (b & c & -> & Hb & Hc & Fb & Fc).
    exists (firstn (run_length Forms.is_email_unit s) s), b, c.
    repeat split; try assumption.
    intros E0. rewrite E0 in E. cbn [app] in E.
    rewrite E in Hn at 1. cbn in Hn. lia.
  - intros (a & b & c & -> & Ha & Hb & Hc & Fa & Fb & Fc).
    change (a ++ [64%N] ++ b ++ [46%N] ++ c) with (a ++ 64%N :: (b ++ [46%N] ++ c)).
    rewrite (run_length_stops Forms.is_email_unit a 64%N _ Fa eq_refl).
    assert (L : Nat.leb 1 (List.length a) = true).
    { destruct a; [contradiction | reflexivity]. }
    apply andb_true_iff. split; [exact L|].
    rewrite skipn_app, skipn_all, Nat.sub_diag. cbn [app skipn].
    apply andb_true_iff. split; [apply char_eqb_refl|]. apply domain_ok_shape.
    exists b, c. repeat split; assumption.
Qed.

Lemma email_shape_nonempty s : Forms.email_shape s -> s <> [].
Proof.
  intros (a & b & c & -> & Ha & _). destruct a; [contradiction | discriminate].
Qed.

(** X23. The loyalty sign-up is sent only with a first name and an e-mail
    address of the shape local@domain.ending: the list of errors is empty
    exactly when something is left of the first name after trimming and the
    trimmed address is a non-empty local part, an at sign, a non-empty domain,
    a dot and a non-empty ending, none of them holding white space or a
    further at sign; that shape is what the expression of the handler
    tests. *)
Theorem loyalty_validation (e : Forms.entries) :
  (Forms.loyalty_errors e = []
   <-> Forms.field e "firstName" <> []
       /\ Forms.email_shape (Forms.field e "emailAddress"))
  /\ (forall s, Forms.re_email_test s = true <-> Forms.email_shape s).
Proof.
  split; [|exact re_email_shape].
  unfold Forms.loyalty_errors. cbv zeta.
  destruct (Forms.field e "firstName") as [|f fs].
  - split; [discriminate | intros [H _]; contradiction].
  - cbn [app]. destruct (Forms.field e "emailAddress") as [|m ms] eqn:Em.
    + split; [discriminate|]. intros [_ H]. apply email_shape_nonempty in H. contradiction.
    + destruct (Forms.re_email_test (m :: ms)) eqn:Et; cbn [negb].
      * split; [|reflexivity]. intros _. split; [discriminate|].
        apply re_email_shape. exact Et.
      * split; [discriminate|]. intros [_ H]. apply re_email_shape in H. congruence.
Qed.

(** ** The rating flag after a new chat *)

Lemma hideTyping_forms c : rating_forms (hideTyping c) = rating_forms c.
Proof.
  unfold rating_forms, hideTyping. cbn [transcript set_transcript].
  induction (transcript c) as [|b l IH]; [reflexivity|].
  destruct b; cbn; rewrite ?IH; reflexivity.
Qed.

Lemma error_row_plain e : is_rating_form (error_row e) = false /\ is_typing (error_row e) = false.
Proof. unfold error_row. destruct (error_markdown e); split; reflexivity. Qed.

Lemma catch_error_orphaned e c : orphaned c -> orphaned (finally (catch_error e c)).
Proof.
  intros [P F]. split; [exact P|].
  unfold finally, catch_error, addMsg, rating_forms.
  cbn [transcript set_transcript set_sending]. rewrite filter_app. cbn [filter].
  rewrite (proj1 (error_row_plain e)).
  rewrite app_nil_r. fold (rating_forms (hideTyping c)). rewrite hideTyping_forms. exact F.
Qed.

Lemma set_threadId_orphaned v c : orphaned c -> orphaned (set_threadId v c).
Proof. intros H. exact H. Qed.

Lemma open_run_orphaned fresh a c c1 status :
  orphaned c -> open_run fresh a c = Ok (c1, status) -> orphaned c1.
Proof.
  intros [P F] R. destruct (open_run_rows _ _ _ _ _ R) as (T & _ & P1 & _).
  split; [rewrite P1; exact P | unfold rating_forms in *; rewrite T; exact F].
Qed.

Lemma follow_run_orphaned status a c c' :
  orphaned c -> conclude (follow_run status a c) = Ended c' -> orphaned c'.
Proof.
  intros O. unfold follow_run.
  destruct (poll status (polled a) 0); cbn [conclude].
  - destruct (listed a) as [list|e]; cbn [conclude].
    + destruct (renderLatestAssistant list (hideTyping c)) as [c2|e] eqn:Er; cbn [conclude].
      * intros H. injection H as <-.
        destruct O as [P F].
        destruct (renderLatestAssistant_forms _ _ _ Er) as [K _].
        destruct (K P) as [K1 K2]. rewrite hideTyping_forms in K1.
        split; [exact K2 | unfold finally, rating_forms in *; cbn; rewrite <- F; exact K1].
      * intros H. injection H as <-. apply catch_error_orphaned.
        destruct O as [P F]. split; [exact P | rewrite hideTyping_forms; exact F].
    + intros H. injection H as <-. apply catch_error_orphaned. exact O.
  - intros H. injection H as <-. apply catch_error_orphaned. exact O.
  - discriminate.
Qed.

Lemma no_form_no_star id l : filter is_rating_form l = [] -> existsb (is_form id) l = false.
Proof.
  induction l as [|b l IH]; [reflexivity|].
  destruct b; cbn; try exact IH. discriminate.
Qed.

Lemma step_orphaned ev s s' :
  orphaned (ui s) -> ownerless s -> step ev s = Some s' ->
  orphaned (ui s') /\ ownerless s'.
Proof.
  intros O W. destruct ev as [text | id n | a | a |]; cbn [step].
  - destruct (begin_turn text (ui s)) as [c|] eqn:B.
    + intros H. injection H as <-. cbn [ui flights start_flight]. split.
      * destruct (begin_turn_Some _ _ _ B) as (_ & _ & P & _ & _ & F).
        destruct O as [OP OF]. split; [rewrite P; exact OP|].
        unfold rating_forms in *. rewrite F. exact OF.
      * unfold ownerless. cbn [flights start_flight]. apply Forall_app. split; [exact W|].
        constructor; [reflexivity | constructor].
    + intros H. injection H as <-. split; assumption.
  - destruct O as [OP OF]. unfold rating_forms in OF.
    rewrite (no_form_no_star id _ OF). discriminate.
  - destruct (flights s) as [|f rest] eqn:Ef; [discriminate|].
    unfold ownerless in W. rewrite Ef in W. inversion W as [|? ? Hf Hrest]. subst.
    destruct (first_status f); [discriminate|].
    destruct (open_run (fresh_thread f) a (ui s)) as [[c status]|e] eqn:R.
    + intros H. injection H as <-. cbn [ui flights]. split.
      * eapply open_run_orphaned; eassumption.
      * constructor; [exact Hf | exact Hrest].
    + intros H. injection H as <-. unfold land. rewrite Hf. cbn [ui flights].
      split; [apply catch_error_orphaned; exact O | exact Hrest].
  - destruct (flights s) as [|f rest] eqn:Ef; [discriminate|].
    unfold ownerless in W. rewrite Ef in W. inversion W as [|? ? Hf Hrest]. subst.
    destruct (first_status f) as [status|]; [|discriminate].
    destruct (conclude (follow_run status a (ui s))) as [c|k] eqn:Et; [|discriminate].
    intros H. injection H as <-. unfold land. rewrite Hf. cbn [ui flights].
    split; [|exact Hrest].
    eapply follow_run_orphaned; eassumption.
  - intros H. injection H as <-. cbn [ui flights]. split; [|exact W].
    destruct O as [OP _]. split; [exact OP | reflexivity].
Qed.

Lemma run_orphaned evs : forall s s',
  orphaned (ui s) -> ownerless s -> run evs s = Some s' ->
  orphaned (ui s') /\ ownerless s'.
Proof.
  induction evs as [|ev evs IH]; intros s s' O W; cbn [run].
  - intros H. injection H as <-. split; assumption.
  - destruct (step ev s) as [s1|] eqn:Es; [|discriminate].
    destruct (step_orphaned ev s s1 O W Es) as [O1 W1]. apply IH; assumption.
Qed.

(** X24. The new-chat button empties the pane but leaves the flag of a
    pending rating as it is.  Pressed while a rating is pending and no star
    handler awaits a turn, it leaves a page on which no rating form is ever
    shown again, whatever is sent and whatever the replies hold: the flag
    stays set, and only the click on a star of a form could clear it. *)
Theorem rating_lost_after_new_chat (s s' : session) (evs : list event) :
  pendingFeedback (ui s) = true ->
  ownerless s ->
  run (NewChat :: evs) s = Some s' ->
  rating_forms (ui s') = [] /\ pendingFeedback (ui s') = true.
Proof.
  intros P W. cbn [run step]. intros H.
  assert (O : orphaned (ui {| ui := set_transcript [WelcomeBubble] (set_threadId VNull (ui s));
                             flights := flights s |})).
  { split; [exact P | reflexivity]. }
  destruct (run_orphaned evs _ s' O W H) as [[P' F'] _]. split; assumption.
Qed.

Lemma rating_lost_after_new_chat_witness :
  exists s s',
    run first_rating boot = Some s
    /\ rating_forms (ui s) = [RatingForm 0]
    /\ pendingFeedback (ui s) = true
    /\ ownerless s
    /\ run (NewChat :: first_rating) s = Some s'
    /\ rating_forms (ui s') = [] /\ pendingFeedback (ui s') = true.
Proof.
  destruct (run first_rating boot) as [s|] eqn:E1; [|discriminate E1].
  assert (E1' := E1). vm_compute in E1'. injection E1' as E1'.
  assert (P : pendingFeedback (ui s) = true) by (rewrite <- E1'; reflexivity).
  assert (W : ownerless s) by (rewrite <- E1'; constructor).
  destruct (run (NewChat :: first_rating) s) as [s'|] eqn:E2;
    [|rewrite <- E1' in E2; vm_compute in E2; discriminate E2].
  exists s, s'. split; [reflexivity|]. split; [rewrite <- E1'; reflexivity|].
  split; [exact P|]. split; [exact W|]. split; [exact E2|].
  exact (rating_lost_after_new_chat s s' first_rating P W E2).
Defined.

(** ** The thread of a conversation *)

Lemma threads_runs_success req w :
  code (fst (serve ThreadsRuns req w)) = 200%Z ->
  exists rq up j,
    snd (serve ThreadsRuns req w) = [TokenCall; FetchCall rq]
    /\ upstream w rq = Ok up /\ json up = Ok j
    /\ payload (fst (serve ThreadsRuns req w))
       = obj [("thread",
               obj [("id", or_else (prop j "thread_id")
                             (or_else (prop (prop j "thread") "id") VNull))]);
              ("run",
               obj [("id", prop j "id");
                    ("status", prop j "status");
                    ("thread_id", prop j "thread_id");
                    ("created_at", prop j "created_at");
                    ("started_at", prop j "started_at");
                    ("completed_at", prop j "completed_at")])]%string.
Proof.
  run_endpoint.
  destruct (extractUserText req) as [[|c t]|] eqn:Et; cbn [fst snd code]; try discriminate.
  split_world w; cbn [fst snd app code payload]; intros H; try discriminate H;
    try (exfalso; eapply not_ok_not_200; eassumption).
  match goal with
  | G : get ?j "thread_id" = Ok ?v |- _ =>
      assert (Ev : v = prop j "thread_id")
        by (destruct j; cbn in G; try discriminate G; injection G as <-; reflexivity)
  end.
  subst. eexists _, _, _. repeat split; eassumption.
Qed.

Lemma renderLatestAssistant_threadId items c c' :
  renderLatestAssistant items c = Ok c' -> threadId c' = threadId c.
Proof.
  unfold renderLatestAssistant. destruct items as [|i items].
  - intros H. injection H as <-. reflexivity.
  - destruct (latestAssistant (i :: items)) as [[m|]|]; cbn [rbind]; [| |discriminate].
    + cbv zeta.
      destruct (stripFeedbackPrompt (extractAssistantText (content m))) as [cleaned found].
      cbn [fst snd]. intros H. injection H as <-.
      destruct cleaned; destruct found; destruct (pendingFeedback c) eqn:P;
        cbn; rewrite ?P; reflexivity.
    + intros H. injection H as <-. reflexivity.
Qed.

Lemma follow_run_threadId status a c c' :
  conclude (follow_run status a c) = Ended c' -> threadId c' = threadId c.
Proof.
  unfold follow_run. destruct (poll status (polled a) 0); cbn [conclude].
  - destruct (listed a) as [list|e]; cbn [conclude].
    + destruct (renderLatestAssistant list (hideTyping c)) as [c2|e] eqn:Er; cbn [conclude].
      * intros H. injection H as <-.
        apply renderLatestAssistant_threadId in Er. cbn. rewrite Er. reflexivity.
      * intros H. injection H as <-. reflexivity.
    + intros H. injection H as <-. reflexivity.
  - intros H. injection H as <-. reflexivity.
  - discriminate.
Qed.

Lemma open_run_append a c c1 status : open_run false a c = Ok (c1, status) -> c1 = c.
Proof.
  unfold open_run. destruct (appended a); [|discriminate]. destruct (started a); [|discriminate].
  cbn [rbind]. intros H. injection H as <- _. reflexivity.
Qed.

Lemma land_threadId f rest c : threadId (ui (land f rest c)) = threadId c.
Proof. unfold land. cbn [ui]. destruct (owner f); reflexivity. Qed.

(** The page is on the thread [tid] and no turn in flight is about to assign
    another. *)
Lemma step_keeps_thread tid ev s s' :
  truthy tid = true -> ev <> NewChat ->
  threadId (ui s) = tid /\ keeps_thread s ->
  step ev s = Some s' ->
  threadId (ui s') = tid /\ keeps_thread s'.
Proof.
  intros Tt Nn [T K]. unfold keeps_thread in *.
  destruct ev as [text | id n | a | a |]; cbn [step]; [| | | |contradiction].
  - destruct (begin_turn text (ui s)) as [c|] eqn:B.
    + intros H. injection H as <-. cbn [ui flights start_flight].
      destruct (begin_turn_Some _ _ _ B) as (_ & _ & _ & Th & _).
      split; [rewrite Th; exact T|].
      apply Forall_app. split; [exact K|].
      constructor; [|constructor]. left. cbn [fresh_thread]. rewrite T, Tt. reflexivity.
    + intros H. injection H as <-. split; assumption.
  - destruct (existsb (is_form id) (transcript (ui s)) && Nat.leb 1 n && Nat.leb n 5);
      [|discriminate].
    destruct (begin_turn (rating_text n) (addMsg (rating_bubble n) (ui s))) as [c|] eqn:B.
    + intros H. injection H as <-. cbn [ui flights start_flight].
      destruct (begin_turn_Some _ _ _ B) as (_ & _ & _ & Th & _).
      split; [rewrite Th; exact T|].
      apply Forall_app. split; [exact K|].
      constructor; [|constructor]. left. cbn [fresh_thread]. 
      change (threadId (addMsg (rating_bubble n) (ui s))) with (threadId (ui s)).
      rewrite T, Tt. reflexivity.
    + intros H. injection H as <-. cbn [ui flights]. split; [exact T | exact K].
  - destruct (flights s) as [|f rest] eqn:Ef; [discriminate|].
    inversion K as [|? ? Kf Krest]. subst.
    destruct (first_status f) eqn:Fs; [discriminate|].
    destruct Kf as [Kf | Kf]; [|congruence]. rewrite Kf.
    destruct (open_run false a (ui s)) as [[c status]|e] eqn:R.
    + intros H. injection H as <-. cbn [ui flights]. apply open_run_append in R. subst c.
      split; [reflexivity|]. constructor; [right; discriminate | exact Krest].
    + intros H. injection H as <-. rewrite land_threadId. split; [reflexivity | exact Krest].
  - destruct (flights s) as [|f rest] eqn:Ef; [discriminate|].
    inversion K as [|? ? Kf Krest]. subst.
    destruct (first_status f) as [status|]; [|discriminate].
    destruct (conclude (follow_run status a (ui s))) as [c|k] eqn:Et; [|discriminate].
    intros H. injection H as <-. rewrite land_threadId. split; [|exact Krest].
    exact (follow_run_threadId _ _ _ _ Et).
Qed.

Lemma run_keeps_thread tid evs : forall s s',
  truthy tid = true -> ~ In NewChat evs ->
  threadId (ui s) = tid /\ keeps_thread s ->
  run evs s = Some s' ->
  threadId (ui s') = tid /\ keeps_thread s'.
Proof.
  induction evs as [|ev evs IH]; intros s s' Tt Nn J; cbn [run].
  - intros H. injection H as <-. exact J.
  - destruct (step ev s) as [s1|] eqn:Es; [|discriminate].
    apply IH; [exact Tt | intros X; apply Nn; right; exact X|].
    apply (step_keeps_thread tid ev s s1 Tt); [|exact J | exact Es].
    intros ->. apply Nn. left. reflexivity.
Qed.

Lemma or_else_thread a b :
  truthy (or_else a b) = true -> or_else (or_else a (or_else b VNull)) a = or_else a b.
Proof.
  unfold or_else. destruct (truthy a) eqn:Ta.
  - rewrite Ta. reflexivity.
  - intros Tb. rewrite Tb, Tb. reflexivity.
Qed.

(** X25. A conversation stays on the thread its first message created, until
    the new-chat button is pressed.  When /api/threads-runs answers 200 for an
    upstream reply that names the thread in thread_id, or else in thread.id,
    the client whose first turn reads that answer keeps exactly that id from
    then on: through the rest of the turn and through every later send, click
    and answer, as long as the new-chat button is not pressed.  Pressed while
    the turn polls, the button leaves the page without a thread, and the turn
    ends without one.  And a message appended with the id makes the proxy call
    upstream at PROJECT_ENDPOINT/threads/ID/messages?api-version=v1 with ID
    the encoding of that id. *)
Theorem thread_id_round_trip (w : world) (req : value) (a : answers) (s : session)
  (f : flight) (text : jsstring) (rq : fetch_request) (up : upstream_reply) (j : value) :
  let first := serve ThreadsRuns req w in
  let tid := or_else (prop j "thread_id") (prop (prop j "thread") "id") in
  code (fst first) = 200%Z ->
  In (FetchCall rq) (snd first) -> upstream w rq = Ok up -> json up = Ok j ->
  truthy tid = true ->
  created a = Ok (payload (fst first)) ->
  flights s = [f] -> fresh_thread f = true -> first_status f = None ->
  exists s1,
    step (Started a) s = Some s1
    /\ threadId (ui s1) = tid
    /\ (forall evs s2, ~ In NewChat evs -> run evs s1 = Some s2 -> threadId (ui s2) = tid)
    /\ (forall a' s2, run [NewChat; Answered a'] s1 = Some s2 -> threadId (ui s2) = VNull)
    /\ forall rq',
         In (FetchCall rq') (snd (serve AppendMessage (Net.appendMessage tid text) w)) ->
         exists id, encodeURIComponent w tid = Ok id
                    /\ url rq' = PROJECT_ENDPOINT w ++ str "/threads/" ++ id
                                 ++ str "/messages?api-version=v1".
Proof.
  cbv zeta. intros H200 Hin Hup Hj Ht Hc Hf Hfresh Hfirst.
  destruct (threads_runs_success req w H200) as (rq0 & up0 & j0 & Hlog & Hup0 & Hj0 & Hpay).
  rewrite Hlog in Hin. destruct Hin as [Hin | [Hin | []]]; [discriminate Hin|].
  apply FetchCall_inj in Hin. subst rq0.
  rewrite Hup in Hup0. injection Hup0 as <-. rewrite Hj in Hj0. injection Hj0 as <-.
  set (tid := or_else (prop j "thread_id") (prop (prop j "thread") "id")) in *.
  assert (R : open_run true a (ui s)
              = Ok (set_threadId tid (ui s), prop j "status")).
  { unfold open_run. rewrite Hc, Hpay. cbn [rbind]. unfold obj at 1. cbn [map].
    cbv zeta.
    change (prop (prop (obj _) "thread") "id")
      with (or_else (prop j "thread_id") (or_else (prop (prop j "thread") "id") VNull)).
    change (prop (prop (obj _) "run") "thread_id") with (prop j "thread_id").
    change (prop (prop (obj _) "run") "status") with (prop j "status").
    rewrite (or_else_thread _ _ Ht). reflexivity. }
  eexists. split; [cbn [step]; rewrite Hf, Hfirst, Hfresh, R; reflexivity|].
  split; [reflexivity|]. split; [|split].
  - intros evs s2 Nn Hr.
    refine (proj1 (run_keeps_thread tid evs _ s2 Ht Nn _ Hr)).
    split; [reflexivity|]. unfold keeps_thread. cbn [flights].
    constructor; [right; discriminate | constructor].
  - intros a' s2. cbn [run step flights ui first_status].
    destruct (conclude _) as [c|k] eqn:E; [|discriminate].
    intros H. injection H as <-. rewrite land_threadId.
    exact (follow_run_threadId _ _ _ _ E).
  - intros rq'. run_endpoint.
    assert (Tid : truthy (prop (or_else (Net.appendMessage tid text)
                     (VObject [])) "threadId") = true) by exact Ht.
    assert (Tp : prop (or_else (Net.appendMessage tid text)
                     (VObject [])) "threadId" = tid) by reflexivity.
    rewrite Tid. rewrite !Tp. cbn [negb orb].
    split_world w; cbn [fst snd app]; intros Hin'; same_fetch FetchCall_inj;
      cbn [url]; eauto.
Qed.

Lemma thread_id_round_trip_witness :
  exists s s1 s2 s3,
    run [Send (str "hi")] boot = Some s
    /\ step (Started first_answers) s = Some s1
    /\ threadId (ui s1) = vstr "thread_1"
    /\ run [Answered first_answers; Send (str "more")] s1 = Some s2
    /\ threadId (ui s2) = vstr "thread_1"
    /\ run [NewChat; Answered first_answers] s1 = Some s3
    /\ threadId (ui s3) = VNull.
Proof.
  destruct (run [Send (str "hi")] boot) as [s|] eqn:E0; [|vm_compute in E0; discriminate E0].
  assert (E0' := E0). vm_compute in E0'. injection E0' as E0'.
  destruct (thread_id_round_trip creating_world hi_body first_answers s
              {| fresh_thread := true; owner := None; first_status := None |}
              (str "more") hi_request
              {| status := 200; json := Ok upstream_run |} upstream_run
              eq_refl (or_intror (or_introl eq_refl)) eq_refl eq_refl eq_refl eq_refl
              ltac:(rewrite <- E0'; reflexivity) eq_refl eq_refl)
    as (s1 & E1 & T1 & Keep & Lost & _).
  assert (E1' := E1). rewrite <- E0' in E1'. vm_compute in E1'. injection E1' as E1'.
  destruct (run [Answered first_answers; Send (str "more")] s1) as [s2|] eqn:E2;
    [|rewrite <- E1' in E2; vm_compute in E2; discriminate E2].
  destruct (run [NewChat; Answered first_answers] s1) as [s3|] eqn:E3;
    [|rewrite <- E1' in E3; vm_compute in E3; discriminate E3].
  exists s, s1, s2, s3. split; [reflexivity|]. split; [exact E1|]. split; [exact T1|].
  split; [exact E2|]. split.
  - refine (Keep _ _ _ E2). cbn [In]. intros [X | [X | []]]; discriminate X.
  - split; [exact E3|]. exact (Lost _ _ E3).
Defined.

(** ** What the proxy sends upstream as the text of the user *)

(** X26. The first message of a thread never reaches upstream blank or with
    white space around it: the content /api/threads-runs posts is a string
    that is not empty and that trimming leaves as it is, whatever the shape of
    the request.  /api/append-message posts the content of the request as it
    came, of whatever type, and only when its text form is not blank. *)
Theorem upstream_content (req : value) (w : world) (rq : fetch_request) :
  (In (FetchCall rq) (snd (serve ThreadsRuns req w)) ->
     exists t, extractUserText req = Ok t /\ t <> [] /\ trim t = t
               /\ body rq = Some (obj [("assistant_id", VString (ASSISTANT_ID w));
                                       ("thread",
                                        obj [("messages",
                                              VArray [obj [("role", vstr "user");
                                                           ("content", VString t)]])])]%string))
  /\ (In (FetchCall rq) (snd (serve AppendMessage req w)) ->
        let content := prop (or_else req (VObject [])) "content" in
        body rq = Some (obj [("role", vstr "user"); ("content", content)]%string)
        /\ exists s, to_string (or_else content (VString [])) = Ok s /\ trim s <> []).
Proof.
  split.
  - run_endpoint.
    destruct (extractUserText req) as [[|c t]|] eqn:Et; cbn [fst snd].
    + intros [].
    + pose proof (extractUserText_trimmed req (c :: t) Et) as Tr.
      split_world w; cbn [fst snd app]; intros Hin; same_fetch FetchCall_inj.
      all: exists (c :: t); repeat split; try assumption; discriminate.
    + intros [].
  - cbv zeta. run_endpoint.
    destruct (truthy (prop (or_else req (VObject [])) "threadId")) eqn:Tid; cbn [lift negb orb].
    + destruct (to_string (or_else (prop (or_else req (VObject [])) "content") (VString [])))
        as [s|x] eqn:Es; [|intros []].
      destruct (trim s) as [|c t] eqn:Ts; [intros []|].
      split_world w; cbn [fst snd app]; intros Hin; same_fetch FetchCall_inj.
      all: split; [reflexivity|]; exists s; split; [reflexivity|]; rewrite Ts; discriminate.
    + intros [].
Qed.

Lemma upstream_content_witness :
  In (FetchCall hi_request) (snd (serve ThreadsRuns hi_body creating_world))
  /\ exists t, extractUserText hi_body = Ok t /\ t <> [] /\ trim t = t.
Proof.
  assert (H : In (FetchCall hi_request) (snd (serve ThreadsRuns hi_body creating_world)))
    by (right; left; reflexivity).
  split; [exact H|].
  destruct (proj1 (upstream_content hi_body creating_world hi_request) H)
    as (t & E & N & T & _).
  exists t. repeat split; assumption.
Defined.

(** ** The typing indicator *)

Lemma hideTyping_no_typing c : no_typing (transcript (hideTyping c)).
Proof.
  unfold no_typing, hideTyping. cbn [transcript set_transcript].
  apply Forall_forall. intros b Hb. apply filter_In in Hb. destruct Hb as [_ Hb].
  destruct (is_typing b); [discriminate Hb | reflexivity].
Qed.

Lemma renderLatestAssistant_added items c c' :
  renderLatestAssistant items c = Ok c' ->
  exists added, transcript c' = transcript c ++ added /\ no_typing added.
Proof.
  unfold renderLatestAssistant. destruct items as [|i items].
  - intros H. injection H as <-. eexists. split; [reflexivity|].
    constructor; [reflexivity | constructor].
  - destruct (latestAssistant (i :: items)) as [[m|]|]; cbn [rbind]; [| |discriminate].
    + cbv zeta.
      destruct (stripFeedbackPrompt (extractAssistantText (content m))) as [cleaned found].
      cbn [fst snd]. intros H. injection H as <-.
      destruct cleaned as [|x t]; destruct found; destruct (pendingFeedback c) eqn:P;
        cbn; rewrite ?P; cbn; rewrite ?P.
      all: try (exists []; split; [rewrite app_nil_r; reflexivity | constructor]).
      all: try (eexists [_]; split; [reflexivity | repeat constructor]).
      all: eexists [_; _]; split; [rewrite <- app_assoc; reflexivity | repeat constructor].
    + intros H. injection H as <-. eexists. split; [reflexivity|].
      constructor; [reflexivity | constructor].
Qed.

Lemma catch_error_no_typing e c : no_typing (transcript (finally (catch_error e c))).
Proof.
  unfold finally, catch_error, addMsg. cbn [transcript set_transcript set_sending].
  apply Forall_app. split; [apply hideTyping_no_typing|].
  constructor; [apply error_row_plain | constructor].
Qed.

Lemma follow_run_no_typing status a c c' :
  conclude (follow_run status a c) = Ended c' -> no_typing (transcript c').
Proof.
  unfold follow_run. destruct (poll status (polled a) 0); cbn [conclude].
  - destruct (listed a) as [list|e]; cbn [conclude].
    + destruct (renderLatestAssistant list (hideTyping c)) as [c3|e] eqn:Er; cbn [conclude].
      * intros H. injection H as <-. cbn [finally transcript set_sending].
        destruct (renderLatestAssistant_added _ _ _ Er) as (added & -> & Ha).
        apply Forall_app. split; [apply hideTyping_no_typing | exact Ha].
      * intros H. injection H as <-. apply catch_error_no_typing.
    + intros H. injection H as <-. apply catch_error_no_typing.
  - intros H. injection H as <-. apply catch_error_no_typing.
  - discriminate.
Qed.

Lemma after_rating_no_typing id c :
  no_typing (transcript c) -> no_typing (transcript (after_rating id c)).
Proof.
  unfold no_typing, after_rating. cbn [transcript set_transcript set_pendingFeedback].
  rewrite !Forall_forall. intros H b Hb. apply filter_In in Hb. apply H. apply Hb.
Qed.

Lemma land_no_typing f rest c :
  no_typing (transcript c) -> no_typing (transcript (ui (land f rest c))).
Proof.
  intros T. unfold land. cbn [ui]. destruct (owner f); [apply after_rating_no_typing|]; exact T.
Qed.

Lemma step_typing ev s s' :
  (flights s = [] -> no_typing (transcript (ui s))) ->
  step ev s = Some s' ->
  flights s' = [] -> no_typing (transcript (ui s')).
Proof.
  intros I. destruct ev as [text | id n | a | a |]; cbn [step].
  - destruct (begin_turn text (ui s)) as [c|].
    + intros H. injection H as <-. cbn [flights start_flight]. intros E.
      apply app_eq_nil in E. destruct E as [_ E]. discriminate E.
    + intros H. injection H as <-. exact I.
  - destruct (existsb (is_form id) (transcript (ui s)) && Nat.leb 1 n && Nat.leb n 5);
      [|discriminate].
    destruct (begin_turn (rating_text n) (addMsg (rating_bubble n) (ui s))) as [c|].
    + intros H. injection H as <-. cbn [flights start_flight]. intros E.
      apply app_eq_nil in E. destruct E as [_ E]. discriminate E.
    + intros H. injection H as <-. cbn [flights ui]. intros E.
      apply after_rating_no_typing. unfold addMsg. cbn [transcript set_transcript].
      apply Forall_app. split; [exact (I E) | constructor; [reflexivity | constructor]].
  - destruct (flights s) as [|f rest]; [discriminate|].
    destruct (first_status f); [discriminate|].
    destruct (open_run (fresh_thread f) a (ui s)) as [[c status]|e].
    + intros H. injection H as <-. cbn [flights]. discriminate.
    + intros H. injection H as <-. intros _. apply land_no_typing, catch_error_no_typing.
  - destruct (flights s) as [|f rest]; [discriminate|].
    destruct (first_status f) as [status|]; [|discriminate].
    destruct (conclude (follow_run status a (ui s))) as [c|k] eqn:Et; [|discriminate].
    intros H. injection H as <-. intros _. apply land_no_typing.
    exact (follow_run_no_typing _ _ _ _ Et).
  - intros H. injection H as <-. cbn [ui flights]. intros _.
    constructor; [reflexivity | constructor].
Qed.

Lemma run_typing evs : forall s s',
  (flights s = [] -> no_typing (transcript (ui s))) ->
  run evs s = Some s' ->
  flights s' = [] -> no_typing (transcript (ui s')).
Proof.
  induction evs as [|ev evs IH]; intros s s' I; cbn [run].
  - intros H. injection H as <-. exact I.
  - destruct (step ev s) as [s1|] eqn:Es; [|discriminate].
    apply IH. exact (step_typing ev s s1 I Es).
Qed.

(** X27. The typing indicator never outlives its turn: in every state the
    client can reach, when no turn is in flight the pane holds no typing
    indicator, whether the turns ended with a reply, with an error or after
    the new-chat button was pressed. *)
Theorem typing_only_in_flight (s : session) :
  reachable s -> flights s = [] -> no_typing (transcript (ui s)).
Proof.
  intros [evs H]. apply (run_typing evs boot s); [|exact H].
  intros _. constructor.
Qed.

Lemma typing_only_in_flight_witness :
  let evs := first_rating
             ++ [Send (str "more"); Started answers_failing;
                 Send (str "again"); Started answers_with_marker; NewChat;
                 Answered answers_with_marker] in
  exists s, run evs boot = Some s
            /\ flights s = []
            /\ no_typing (transcript (ui s)).
Proof.
  cbv zeta.
  destruct (run (first_rating
                 ++ [Send (str "more"); Started answers_failing;
                     Send (str "again"); Started answers_with_marker; NewChat;
                     Answered answers_with_marker]) boot)
    as [s|] eqn:E; [|vm_compute in E; discriminate E].
  assert (F : flights s = []).
  { assert (E' := E). vm_compute in E'. injection E' as <-. reflexivity. }
  exists s. split; [reflexivity|]. split; [exact F|].
  apply (typing_only_in_flight s); [|exact F].
  eexists. exact E.
Defined.
